(** * Kitsune questions app: bookkeeping of questions, answers, votes and visits

    A shallow embedding of [kitsune/questions/models.py] and
    [kitsune/questions/tasks.py].  The relational store is a record of tables,
    every table a list of rows in storage order; a model instance held by
    Python code is a row value that is written back by [save].  Exceptions are
    values of [exn] carried by [result]. *)

From Stdlib Require Import ZArith List Bool String Ascii Lia Arith Permutation.
Import ListNotations.
Local Open Scope Z_scope.

(** ** Time

    A naive [datetime] is the number of microseconds since an arbitrary
    midnight; [timedelta] values are microsecond counts too.  An operation
    is given one reading of the clock, [now], which stands for every
    [datetime.now()] and [Now()] of its run. *)

Definition datetime := Z.

Definition MICROSECONDS_PER_SECOND : Z := 1000000.
Definition MICROSECONDS_PER_DAY : Z := 86400 * MICROSECONDS_PER_SECOND.

Definition timedelta_days (d : Z) : Z := d * MICROSECONDS_PER_DAY.
Definition timedelta_seconds (s : Z) : Z := s * MICROSECONDS_PER_SECOND.

(** [t.date()] seen again as a datetime, and
    [t.replace(hour=0, minute=0, second=0, microsecond=0)]: the midnight that
    opens the day of [t]. *)
Definition midnight (t : datetime) : datetime := t - t mod MICROSECONDS_PER_DAY.

(** The ORM lookup [created__range=(lo, hi)] is SQL [BETWEEN lo AND hi]. *)
Definition in_range (lo hi t : datetime) : bool := (lo <=? t) && (t <=? hi).

(** ** Exceptions and results *)

Inductive exn : Type :=
| DoesNotExist
| InvalidUserException
| AlreadyTakenException
| IntegrityError
| ValueError
| KeyError
| DataError.

Inductive result (A : Type) : Type :=
| Ok (a : A)
| Raise (e : exn).
Arguments Ok {A} a.
Arguments Raise {A} e.

Definition bind {A B : Type} (m : result A) (k : A -> result B) : result B :=
  match m with
  | Ok a => k a
  | Raise e => Raise e
  end.

Notation "'let*' x ':=' m 'in' k" := (bind m (fun x => k))
  (at level 10, x name, m at level 100, k at level 200).
Notation "'let*' ' p ':=' m 'in' k" :=
  (bind m (fun x => match x with p => k end))
  (at level 10, p strict pattern, m at level 100, k at level 200).

(** ** Rows

    Only the columns that the modelled code reads or writes are kept.  The
    primary key is a column where the code names it ([Question.id],
    [Answer.id]). *)

Record Question : Type := mkQuestion {
  q_id : Z;
  q_creator : Z;
  q_created : datetime;
  q_updated : datetime;
  q_is_spam : bool;
  q_last_answer : option Z;
  q_num_answers : Z;
  q_solution : option Z;
  q_num_votes_past_week : Z;
  q_taken_by : option Z;
  q_taken_until : option datetime
}.

(** An [Answer] instance has [id = None] until its first save. *)
Record Answer : Type := mkAnswer {
  a_id : option Z;
  a_question : Z;
  a_creator : Z;
  a_created : datetime;
  a_updated : datetime;
  a_is_spam : bool;
  a_page : Z
}.

Record QuestionVote : Type := mkQuestionVote {
  qv_question : Z;
  qv_creator : option Z;
  qv_anonymous_id : string;
  qv_created : datetime
}.

Record AnswerVote : Type := mkAnswerVote {
  av_answer : Z;
  av_helpful : bool;
  av_creator : option Z;
  av_anonymous_id : string;
  av_created : datetime
}.

Record QuestionVisits : Type := mkQuestionVisits {
  v_question : Z;
  v_visits : Z
}.

Record DB : Type := mkDB {
  questions : list Question;
  answers : list Answer;
  question_votes : list QuestionVote;
  answer_votes : list AnswerVote;
  question_visits : list QuestionVisits;
  next_answer_id : Z
}.

(** Field assignments on instances. *)

Definition set_q_updated (t : datetime) (q : Question) : Question :=
  mkQuestion (q_id q) (q_creator q) (q_created q) t (q_is_spam q)
    (q_last_answer q) (q_num_answers q) (q_solution q)
    (q_num_votes_past_week q) (q_taken_by q) (q_taken_until q).

Definition set_q_last_answer (la : option Z) (q : Question) : Question :=
  mkQuestion (q_id q) (q_creator q) (q_created q) (q_updated q) (q_is_spam q)
    la (q_num_answers q) (q_solution q)
    (q_num_votes_past_week q) (q_taken_by q) (q_taken_until q).

Definition set_q_num_answers (n : Z) (q : Question) : Question :=
  mkQuestion (q_id q) (q_creator q) (q_created q) (q_updated q) (q_is_spam q)
    (q_last_answer q) n (q_solution q)
    (q_num_votes_past_week q) (q_taken_by q) (q_taken_until q).

Definition set_q_solution (s : option Z) (q : Question) : Question :=
  mkQuestion (q_id q) (q_creator q) (q_created q) (q_updated q) (q_is_spam q)
    (q_last_answer q) (q_num_answers q) s
    (q_num_votes_past_week q) (q_taken_by q) (q_taken_until q).

Definition set_q_num_votes_past_week (n : Z) (q : Question) : Question :=
  mkQuestion (q_id q) (q_creator q) (q_created q) (q_updated q) (q_is_spam q)
    (q_last_answer q) (q_num_answers q) (q_solution q)
    n (q_taken_by q) (q_taken_until q).

Definition set_q_taken (by_ : option Z) (until : option datetime)
    (q : Question) : Question :=
  mkQuestion (q_id q) (q_creator q) (q_created q) (q_updated q) (q_is_spam q)
    (q_last_answer q) (q_num_answers q) (q_solution q)
    (q_num_votes_past_week q) by_ until.

Definition set_a_id (i : option Z) (a : Answer) : Answer :=
  mkAnswer i (a_question a) (a_creator a) (a_created a) (a_updated a)
    (a_is_spam a) (a_page a).

Definition set_a_updated (t : datetime) (a : Answer) : Answer :=
  mkAnswer (a_id a) (a_question a) (a_creator a) (a_created a) t
    (a_is_spam a) (a_page a).

Definition set_a_is_spam (b : bool) (a : Answer) : Answer :=
  mkAnswer (a_id a) (a_question a) (a_creator a) (a_created a) (a_updated a)
    b (a_page a).

Definition set_a_page (p : Z) (a : Answer) : Answer :=
  mkAnswer (a_id a) (a_question a) (a_creator a) (a_created a) (a_updated a)
    (a_is_spam a) p.

Definition with_questions (qs : list Question) (db : DB) : DB :=
  mkDB qs (answers db) (question_votes db) (answer_votes db)
    (question_visits db) (next_answer_id db).

Definition with_answers (l : list Answer) (db : DB) : DB :=
  mkDB (questions db) l (question_votes db) (answer_votes db)
    (question_visits db) (next_answer_id db).

Definition with_answer_votes (l : list AnswerVote) (db : DB) : DB :=
  mkDB (questions db) (answers db) (question_votes db) l
    (question_visits db) (next_answer_id db).

Definition with_question_visits (l : list QuestionVisits) (db : DB) : DB :=
  mkDB (questions db) (answers db) (question_votes db) (answer_votes db)
    l (next_answer_id db).

Definition with_next_answer_id (n : Z) (db : DB) : DB :=
  mkDB (questions db) (answers db) (question_votes db) (answer_votes db)
    (question_visits db) n.

(** ** Query helpers *)

Definition opt_eqb (x y : option Z) : bool :=
  match x, y with
  | Some a, Some b => a =? b
  | None, None => true
  | _, _ => false
  end.

(** [fk == instance]: a foreign key that is NULL equals no instance, and an
    instance that was never saved equals no row. *)
Definition refers_to (fk : option Z) (pk : option Z) : bool :=
  match fk, pk with
  | Some a, Some b => a =? b
  | _, _ => false
  end.

Definition count {A : Type} (l : list A) : Z := Z.of_nat (List.length l).

(** [Question.objects.get(id=question_id)]. *)
Definition Question_objects_get (question_id : Z) (db : DB) : result Question :=
  match find (fun q => q_id q =? question_id) (questions db) with
  | Some q => Ok q
  | None => Raise DoesNotExist
  end.

(** [UPDATE] of the row of a saved question. *)
Definition update_question_row (q : Question) (db : DB) : DB :=
  with_questions
    (map (fun r => if q_id r =? q_id q then q else r) (questions db)) db.

(** [UPDATE] of the row of a saved answer. *)
Definition update_answer_row (a : Answer) (db : DB) : DB :=
  with_answers
    (map (fun r => if refers_to (a_id r) (a_id a) then a else r) (answers db)) db.

(** [ORDER BY]: a stable insertion sort, [before x y] telling that [x] may
    stand in front of [y]; rows with equal keys keep their storage order. *)
Fixpoint insert_by {A : Type} (before : A -> A -> bool) (x : A) (l : list A)
    : list A :=
  match l with
  | [] => [x]
  | y :: l' => if before x y then x :: l else y :: insert_by before x l'
  end.

Definition order_by {A : Type} (before : A -> A -> bool) (l : list A) : list A :=
  fold_right (insert_by before) [] l.

(** [order_by("created")] and [order_by("-created")] on answers. *)
Definition created_asc (x y : Answer) : bool := a_created x <=? a_created y.
Definition created_desc (x y : Answer) : bool := a_created y <=? a_created x.

(** [question.answers]: the answers whose foreign key is the question. *)
Definition question_answers (question_id : Z) (db : DB) : list Answer :=
  filter (fun a => a_question a =? question_id) (answers db).

Definition not_spam (a : Answer) : bool := negb (a_is_spam a).

(** ** Effects other than the store *)

Inductive event : Type :=
| LogDebug
| LogInfo
| CaptureException (err : exn)
| Delay_update_answer_pages (question_id : Z).

(** What a task leaves behind: the exception that escaped it, if any, what it
    logged, reported or queued, and the store. *)
Record outcome : Type := mkOutcome {
  raised : option exn;
  events : list event;
  store : DB
}.

(** ** Requests *)

(** [request.user] is [Some uid] for an authenticated user, and
    [request.anonymous] is [Some aid] when [has_id] holds. *)
Record Request : Type := mkRequest {
  request_user : option Z;
  request_anonymous : option string
}.

(** The two concrete classes below [AAQBase]. *)
Inductive AAQ : Type :=
| IsQuestion (q : Question)
| IsAnswer (a : Answer).

(** ** AAQBase.has_voted *)

Definition has_voted (self : AAQ) (request : Request) (db : DB) : bool :=
  match request_user request with
  | Some user =>
      match self with
      | IsAnswer a =>
          if a_creator a =? user then true
          else existsb (fun v => refers_to (Some (av_answer v)) (a_id a)
                                 && opt_eqb (av_creator v) (Some user))
                 (answer_votes db)
      | IsQuestion q =>
          if q_creator q =? user then true
          else existsb (fun v => (qv_question v =? q_id q)
                                 && opt_eqb (qv_creator v) (Some user))
                 (question_votes db)
      end
  | None =>
      match request_anonymous request with
      | Some anonymous_id =>
          match self with
          | IsAnswer a =>
              existsb (fun v => refers_to (Some (av_answer v)) (a_id a)
                                && String.eqb (av_anonymous_id v) anonymous_id)
                (answer_votes db)
          | IsQuestion q =>
              existsb (fun v => (qv_question v =? q_id q)
                                && String.eqb (qv_anonymous_id v) anonymous_id)
                (question_votes db)
          end
      | None => false
      end
  end.

(** ** Question *)

(** [Question.save(update)] of a question that already has a row; the branch
    for a new question (follow, classifier) is not needed here. *)
Definition Question_save (update : bool) (now : datetime) (self : Question)
    (db : DB) : Question * DB :=
  let self := if update then set_q_updated now self else self in
  (self, update_question_row self db).

(** The votes counted by [created__range=(lo, Now())] for one question. *)
Definition votes_in_range (lo hi : datetime) (question_id : Z) (db : DB) : Z :=
  count (filter (fun v => (qv_question v =? question_id)
                          && in_range lo hi (qv_created v))
           (question_votes db)).

Definition sync_num_votes_past_week (now : datetime) (self : Question) (db : DB)
    : Z * Question :=
  let last_week := midnight now - timedelta_days 7 in
  let n := votes_in_range last_week now (q_id self) db in
  (n, set_q_num_votes_past_week n self).

Definition is_taken (now : datetime) (self : Question) (db : DB)
    : bool * Question * DB :=
  let expired :=
    match q_taken_by self, q_taken_until self with
    | None, _ => true
    | _, None => true
    | Some _, Some until => until <? now
    end in
  if expired then
    match q_taken_by self, q_taken_until self with
    | None, None => (false, self, db)
    | _, _ =>
        let self := set_q_taken None None self in
        let '(self, db) := Question_save false now self db in
        (false, self, db)
    end
  else (true, self, db).

(** ** Operations that read the configuration

    [kitsune/questions/config.py] is not part of the sources at hand: its two
    constants are variables here, [ANSWERS_PER_PAGE] a positive number of
    answers and [TAKE_TIMEOUT] a number of seconds. *)

Section Config.

Variable ANSWERS_PER_PAGE : positive.
Variable TAKE_TIMEOUT : Z.

Definition take (user : Z) (force : bool) (now : datetime) (self : Question)
    (db : DB) : result (Question * DB) :=
  if user =? q_creator self then Raise InvalidUserException
  else
    let taken_by_other :=
      match q_taken_by self with
      | None => false
      | Some u => negb (u =? user)
      end in
    if taken_by_other && negb force then Raise AlreadyTakenException
    else
      let self :=
        set_q_taken (Some user) (Some (now + timedelta_seconds TAKE_TIMEOUT))
          self in
      Ok (Question_save false now self db).

(** ** Answer *)

(** [Answer.save(update, no_notify)].  [question] is the instance behind
    [self.question]; it is mutated and saved, so it is handed back.  The
    notifications that [no_notify] switches off touch no table and are left
    out. *)
Definition Answer_save (update : bool) (now : datetime) (self : Answer)
    (question : Question) (db : DB) : Answer * Question * DB :=
  let new := match a_id self with None => true | Some _ => false end in
  let '(self, db) :=
    if new then
      let page := q_num_answers question / Z.pos ANSWERS_PER_PAGE + 1 in
      let self := set_a_id (Some (next_answer_id db)) (set_a_page page self) in
      (self,
       with_next_answer_id (next_answer_id db + 1)
         (with_answers (answers db ++ [self]) db))
    else
      let self := set_a_updated now self in
      (self, update_answer_row self db) in
  let visible := filter not_spam (question_answers (q_id question) db) in
  let question := set_q_num_answers (count visible) question in
  let latest := firstn 1 (order_by created_desc visible) in
  let last_answer :=
    if new then a_id self
    else match latest with
         | a :: _ => a_id a
         | [] => None
         end in
  let question := set_q_last_answer last_answer question in
  let '(question, db) := Question_save update now question db in
  (self, question, db).

(** [Answer.mark_as_spam]: [self.question] is fetched through the foreign
    key. *)
Definition Answer_mark_as_spam (now : datetime) (self : Answer) (db : DB)
    : result (Answer * Question * DB) :=
  let* question := Question_objects_get (a_question self) db in
  Ok (Answer_save true now (set_a_is_spam true self) question db).

(** [Model.delete] of an answer: the collector nulls the two [SET_NULL]
    foreign keys of [Question] that point at the row, deletes the votes that
    [CASCADE] from it, then the row. *)
Definition delete_answer_row (pk : Z) (db : DB) : DB :=
  let unlink (fk : option Z) : option Z :=
    if refers_to fk (Some pk) then None else fk in
  let qs :=
    map (fun q => set_q_solution (unlink (q_solution q))
                    (set_q_last_answer (unlink (q_last_answer q)) q))
      (questions db) in
  let avs := filter (fun v => negb (av_answer v =? pk)) (answer_votes db) in
  let ans := filter (fun a => negb (refers_to (a_id a) (Some pk))) (answers db) in
  with_answers ans (with_answer_votes avs (with_questions qs db)).

Definition Answer_delete (now : datetime) (self : Answer) (db : DB) : outcome :=
  match Question_objects_get (a_question self) db with
  | Raise e => mkOutcome (Some e) [] db
  | Ok question =>
      let question :=
        if refers_to (q_last_answer question) (a_id self) then
          let answers :=
            order_by created_desc (question_answers (q_id question) db) in
          match nth_error answers 1 with
          | Some a => set_q_last_answer (a_id a) question
          | None => set_q_last_answer None question
          end
        else question in
      let question :=
        if refers_to (q_solution question) (a_id self)
        then set_q_solution None question else question in
      let answers := filter not_spam (question_answers (q_id question) db) in
      let question := set_q_num_answers (count answers - 1) question in
      let '(question, db) := Question_save false now question db in
      match a_id self with
      | None => mkOutcome (Some ValueError) [] db
      | Some pk =>
          mkOutcome None [Delay_update_answer_pages (q_id question)]
            (delete_answer_row pk db)
      end
  end.

(** ** Tasks *)

Definition update_question_votes (now : datetime) (question_id : Z) (db : DB)
    : outcome :=
  match Question_objects_get question_id db with
  | Ok q =>
      let '(_, q) := sync_num_votes_past_week now q db in
      let '(_, db) := Question_save false now q db in
      mkOutcome None [LogDebug] db
  | Raise DoesNotExist => mkOutcome None [LogDebug; LogInfo] db
  | Raise e => mkOutcome (Some e) [LogDebug] db
  end.

(** [Coalesce(Subquery(...), 0)]: the grouped subquery has a row only when
    the question has a vote in the range. *)
Definition coalesce (x : option Z) (default : Z) : Z :=
  match x with
  | Some v => v
  | None => default
  end.

Definition update_question_vote_chunk (now : datetime) (question_ids : list Z)
    (db : DB) : outcome :=
  let past_week := midnight (now - timedelta_days 7) in
  let subquery (id : Z) : option Z :=
    let n := votes_in_range past_week now id db in
    if n =? 0 then None else Some n in
  let qs :=
    map (fun q =>
           if existsb (Z.eqb (q_id q)) question_ids
           then set_q_num_votes_past_week (coalesce (subquery (q_id q)) 0) q
           else q)
      (questions db) in
  mkOutcome None [LogInfo] (with_questions qs db).

Fixpoint update_answer_pages_loop (now : datetime) (i : Z)
    (answers : list Answer) (question : Question) (db : DB) : Question * DB :=
  match answers with
  | [] => (question, db)
  | answer :: rest =>
      let answer := set_a_page (i / Z.pos ANSWERS_PER_PAGE + 1) answer in
      let '(_, question, db) := Answer_save true now answer question db in
      update_answer_pages_loop now (i + 1) rest question db
  end.

Definition update_answer_pages (now : datetime) (question_id : Z) (db : DB)
    : outcome :=
  match Question_objects_get question_id db with
  | Raise err => mkOutcome None [CaptureException err] db
  | Ok question =>
      let answers :=
        order_by created_asc (question_answers (q_id question) db) in
      let '(_, db) :=
        update_answer_pages_loop now 0 (filter not_spam answers) question db in
      mkOutcome None [LogDebug] db
  end.

End Config.

(** ** QuestionVisits.reload_from_analytics

    The reload runs in one session against a store that other sessions
    change too.  The only interference the code considers is the one of its
    own comment: questions deleted between the query that lists the valid ids
    and the insert.  A [world] holds the store, the deletions that other
    sessions will commit (one entry per call of [create_batch]), and the ids
    they have deleted so far. *)

Record world : Type := mkWorld {
  w_db : DB;
  w_races : list (list Z);
  w_external : list Z
}.

Definition M (A : Type) : Type := world -> result A * world.

Definition ret {A : Type} (a : A) : M A := fun w => (Ok a, w).

Definition mbind {A B : Type} (m : M A) (k : A -> M B) : M B :=
  fun w =>
    match m w with
    | (Ok a, w') => k a w'
    | (Raise e, w') => (Raise e, w')
    end.

Notation "x <- m ;; k" := (mbind m (fun x => k))
  (at level 61, m at next level, right associativity).
Notation "m ;;; k" := (mbind m (fun _ => k))
  (at level 61, right associativity).

Definition lift {A : Type} (r : result A) : M A := fun w => (r, w).

Definition mem (x : Z) (l : list Z) : bool := existsb (Z.eqb x) l.

(** Deleting a question row, with the [CASCADE] rules of the models. *)
Definition delete_question_row (pk : Z) (db : DB) : DB :=
  let db :=
    fold_right
      (fun a d => match a_id a with
                  | Some i => delete_answer_row i d
                  | None => d
                  end)
      db (question_answers pk db) in
  mkDB (filter (fun q => negb (q_id q =? pk)) (questions db))
       (answers db)
       (filter (fun v => negb (qv_question v =? pk)) (question_votes db))
       (answer_votes db)
       (filter (fun v => negb (v_question v =? pk)) (question_visits db))
       (next_answer_id db).

(** Questions deleted, and committed, by other sessions. *)
Definition concurrent_delete (ids : list Z) (db : DB) : DB :=
  fold_right delete_question_row db ids.

(** The point between two statements where the next scheduled deletions of
    other sessions become visible. *)
Definition interleave : M unit :=
  fun w =>
    match w_races w with
    | [] => (Ok tt, w)
    | ids :: rest =>
        (Ok tt,
         mkWorld (concurrent_delete ids (w_db w)) rest (w_external w ++ ids))
    end.

(** [with transaction.atomic()]: when the body raises, the writes of the
    session since the block was entered are undone; what other sessions
    committed meanwhile stays. *)
Definition atomic {A : Type} (body : M A) : M A :=
  fun w =>
    match body w with
    | (Ok a, w') => (Ok a, w')
    | (Raise e, w') =>
        (Raise e,
         mkWorld (concurrent_delete (w_external w') (w_db w))
           (w_races w') (w_external w'))
    end.

(** [try: body except IntegrityError: handler]. *)
Definition except_IntegrityError (body handler : M unit) : M unit :=
  fun w =>
    match body w with
    | (Raise IntegrityError, w') => handler w'
    | r => r
    end.

(** A Python dict, in insertion order. *)
Definition dict (V : Type) : Type := list (Z * V).

Definition dict_set {V : Type} (d : dict V) (k : Z) (v : V) : dict V :=
  if mem k (map fst d)
  then map (fun kv => if fst kv =? k then (k, v) else kv) d
  else d ++ [(k, v)].

Definition dict_get {V : Type} (d : dict V) (k : Z) : option V :=
  option_map snd (find (fun kv => fst kv =? k) d).

(** An unsaved [QuestionVisits] instance:
    [cls(question_id=Subquery(Question.objects.filter(id=question_id)
    .values("id")), visits=visits)]. *)
Record VisitsInstance : Type := mkVisitsInstance {
  vi_question_subquery : Z;
  vi_visits : Z
}.

(** Modelled from the spec: [kitsune.sumo.utils.chunked] is not part of the
    sources at hand; "insertion happens in sub-batches of 1,000": successive
    slices of [n] elements, the last one shorter, none empty. *)
Fixpoint chunked_fuel {A : Type} (fuel : nat) (l : list A) (n : nat)
    : list (list A) :=
  match fuel with
  | O => []
  | S fuel' =>
      match firstn n l with
      | [] => []
      | t => t :: chunked_fuel fuel' (skipn n l) n
      end
  end.

Definition chunked {A : Type} (l : list A) (n : nat) : list (list A) :=
  chunked_fuel (List.length l) l n.

(** [Question.objects.filter(id__in=batch).values_list("id", flat=True)],
    in the default ordering of [Question], [-updated]. *)
Definition updated_desc (x y : Question) : bool := q_updated y <=? q_updated x.

Definition existing_question_ids (batch : list Z) (db : DB) : list Z :=
  map q_id
    (order_by updated_desc (filter (fun q => mem (q_id q) batch) (questions db))).

(** [instance_by_question_id[id] for id in ids]. *)
Fixpoint instances_for (d : dict VisitsInstance) (ids : list Z)
    : result (list VisitsInstance) :=
  match ids with
  | [] => Ok []
  | id :: rest =>
      match dict_get d id with
      | Some inst => let* insts := instances_for d rest in Ok (inst :: insts)
      | None => Raise KeyError
      end
  end.

(** The row that the [INSERT] writes for an instance whose subquery finds its
    question. *)
Definition visits_row (i : VisitsInstance) : QuestionVisits :=
  mkQuestionVisits (vi_question_subquery i) (vi_visits i).

Fixpoint distinct (l : list Z) : bool :=
  match l with
  | [] => true
  | x :: l' => negb (mem x l') && distinct l'
  end.

(** [visits = models.IntegerField(...)]: a signed 32-bit column. *)
Definition fits_IntegerField (n : Z) : bool :=
  (-2147483648 <=? n) && (n <=? 2147483647).

(** [cls.objects.bulk_create(instances)], one [INSERT].  A count that does
    not fit the [visits] column makes the statement fail with [DataError].
    The subquery of an instance is NULL when its question is gone, and
    [question] is both [NOT NULL] and [unique]: a violated constraint makes
    it fail with [IntegrityError].  A failed statement leaves the table as
    it was.  For a statement that has both defects the order of the two
    checks is the database's; the range is looked at first here, and no
    property below rests on a statement with both. *)
Definition bulk_create (instances : list VisitsInstance) : M unit :=
  fun w =>
    let db := w_db w in
    let present (i : VisitsInstance) : bool :=
      mem (vi_question_subquery i) (map q_id (questions db)) in
    let keys := map vi_question_subquery instances in
    let fresh (k : Z) : bool :=
      negb (mem k (map v_question (question_visits db))) in
    if negb (forallb (fun i => fits_IntegerField (vi_visits i)) instances) then
      (Raise DataError, w)
    else if forallb present instances && forallb fresh keys && distinct keys then
      (Ok tt,
       mkWorld
         (with_question_visits
            (question_visits db ++ map visits_row instances) db)
         (w_races w) (w_external w))
    else (Raise IntegrityError, w).

Definition create_batch (instance_by_question_id : dict VisitsInstance)
    (batch_of_question_ids : list Z) : M unit :=
  ids <- (fun w => (Ok (existing_question_ids batch_of_question_ids (w_db w)), w)) ;;
  instances <- lift (instances_for instance_by_question_id ids) ;;
  interleave ;;;
  bulk_create instances.

(** The body of [for batch_of_question_ids in chunked(question_ids, 1000)]. *)
Definition create_batch_with_retry (instance_by_question_id : dict VisitsInstance)
    (batch_of_question_ids : list Z) : M unit :=
  except_IntegrityError
    (atomic (create_batch instance_by_question_id batch_of_question_ids))
    (create_batch instance_by_question_id batch_of_question_ids).

Fixpoint create_batches (instance_by_question_id : dict VisitsInstance)
    (batches : list (list Z)) : M unit :=
  match batches with
  | [] => ret tt
  | batch :: rest =>
      create_batch_with_retry instance_by_question_id batch ;;;
      create_batches instance_by_question_id rest
  end.

(** [cls.objects.filter(question_id__in=question_ids).delete()]. *)
Definition delete_stale (question_ids : list Z) : M unit :=
  fun w =>
    let db := w_db w in
    (Ok tt,
     mkWorld
       (with_question_visits
          (filter (fun v => negb (mem (v_question v) question_ids))
             (question_visits db)) db)
       (w_races w) (w_external w)).

(** The [for i, (question_id, visits) in enumerate(..., start=1)] loop. *)
Fixpoint reload_loop (total_count : Z) (i : Z)
    (instance_by_question_id : dict VisitsInstance)
    (items : list (Z * Z)) : M unit :=
  match items with
  | [] => ret tt
  | (question_id, visits) :: rest =>
      let instance_by_question_id :=
        dict_set instance_by_question_id question_id
          (mkVisitsInstance question_id visits) in
      if negb (i mod 30000 =? 0) && negb (i =? total_count) then
        reload_loop total_count (i + 1) instance_by_question_id rest
      else
        let question_ids := map fst instance_by_question_id in
        delete_stale question_ids ;;;
        create_batches instance_by_question_id (chunked question_ids 1000) ;;;
        reload_loop total_count (i + 1) [] rest
  end.

(** [pageviews_by_question_id] is what
    [googleanalytics.pageviews_by_question] returned, as its [items()]. *)
Definition reload_from_analytics (pageviews_by_question_id : list (Z * Z))
    : M unit :=
  atomic
    (reload_loop (count pageviews_by_question_id) 1 [] pageviews_by_question_id).

(** ** Leaf of a hierarchical topic title *)

Local Open Scope string_scope.

(** Python's [str.isspace] on an ASCII character. *)
Definition is_space (c : ascii) : bool :=
  let n := nat_of_ascii c in
  ((9 <=? n)%nat && (n <=? 13)%nat) || ((28 <=? n)%nat && (n <=? 32)%nat).

Fixpoint lstrip (s : string) : string :=
  match s with
  | EmptyString => EmptyString
  | String c s' => if is_space c then lstrip s' else s
  end.

Fixpoint rstrip (s : string) : string :=
  match s with
  | EmptyString => EmptyString
  | String c s' =>
      match rstrip s' with
      | EmptyString => if is_space c then EmptyString else String c EmptyString
      | r => String c r
      end
  end.

Definition strip (s : string) : string := lstrip (rstrip s).

Definition nonempty (s : string) : bool :=
  match s with
  | EmptyString => false
  | String _ _ => true
  end.

(** The first of [tokens] that [s] starts with. *)
Definition token_at (tokens : list string) (s : string) : option string :=
  find (fun t => String.prefix t s) tokens.

(** Cuts [s] at every occurrence of a token, scanning from the left; [skip]
    counts the characters of the token under the cursor still to be passed
    over, [cur] is the segment read so far. *)
Fixpoint split_tokens (tokens : list string) (skip : nat) (cur : string)
    (s : string) : list string :=
  match s with
  | EmptyString => [cur]
  | String c s' =>
      match skip with
      | S k => split_tokens tokens k cur s'
      | O =>
          match token_at tokens s with
          | Some t => cur :: split_tokens tokens (String.length t - 1) EmptyString s'
          | None => split_tokens tokens 0 (cur ++ String c EmptyString) s'
          end
      end
  end.

(** The last non-empty segment after trimming; a title without one is handed
    back as it is. *)
Definition most_specific (tokens : list string) (title : string) : string :=
  match rev (filter nonempty (map strip (split_tokens tokens 0 EmptyString title))) with
  | leaf :: _ => leaf
  | [] => title
  end.

Definition SEPARATORS : list string :=
  ["."; ">"; "-"; ";"; ":"; "::"; "/"; "|"].

(** Modelled from the spec: [kitsune.questions.utils.get_most_specific] is not
    part of the sources at hand (its tests are); "a hierarchical path using
    any of a fixed set of separator tokens ([.], [>], [-], [;], [:], [::],
    [/], [|]), taking the last non-empty segment after trimming
    whitespace". *)
Definition get_most_specific (title : string) : string :=
  most_specific SEPARATORS title.

(** Modelled from the spec: the same sentence, with [-] and [/] separators
    only where they stand between blanks.  [test_hierarchical_topics]
    expects the leaf [Blocked application/service/website] with its own
    slashes, [test_existing_topics] wants every topic title returned
    unharmed, and the paths of the tests are made of titles such as
    [Add-ons, extensions, and themes]; where the tests cut a path at [-] or
    [/], blanks stand around it. *)
Definition SEPARATORS_SPACED : list string :=
  ["."; ">"; " - "; ";"; ":"; "::"; " / "; "|"].

Definition get_most_specific_spaced (title : string) : string :=
  most_specific SEPARATORS_SPACED title.

(** Does the character occur in [s]? *)
Fixpoint occurs (c : ascii) (s : string) : bool :=
  match s with
  | EmptyString => false
  | String x s' => Ascii.eqb x c || occurs c s'
  end.

(** Does a token occur somewhere in [s]? *)
Fixpoint has_token (tokens : list string) (s : string) : bool :=
  match s with
  | EmptyString => false
  | String _ s' =>
      match token_at tokens s with
      | Some _ => true
      | None => has_token tokens s'
      end
  end.

(** [hierachical_cases] of [GetMostSpecificTests.test_hierarchical_topics]:
    title and expected leaf. *)
Definition hierarchical_cases : list (string * string) :=
  [ ("Settings.Add-ons, extensions, and themes.Extensions", "Extensions");
    ("Settings>Add-ons, extensions, and themes>Extensions", "Extensions");
    ("Settings > Add-ons, extensions, and themes > Extensions", "Extensions");
    ("Settings - Add-ons, extensions, and themes - Extensions", "Extensions");
    ("Settings;Add-ons, extensions, and themes;Extensions", "Extensions");
    ("Settings ; Add-ons, extensions, and themes ; Extensions", "Extensions");
    ("Settings:Add-ons, extensions, and themes:Extensions", "Extensions");
    ("Settings : Add-ons, extensions, and themes : Extensions", "Extensions");
    ("Settings::Add-ons, extensions, and themes::Extensions", "Extensions");
    ("Settings :: Add-ons, extensions, and themes :: Extensions", "Extensions");
    ("Performance and connectivity / Site breakages / Blocked application/service/website",
     "Blocked application/service/website");
    ("Performance and connectivity|Site breakages|Blocked application/service/website",
     "Blocked application/service/website");
    ("Performance and connectivity | Site breakages |  Blocked application/service/website ",
     "Blocked application/service/website") ].

Local Close Scope string_scope.


(** ** Sample data *)

Definition HOUR : Z := 3600 * MICROSECONDS_PER_SECOND.

(** Question 1, asked by user 10, unclaimed, without answers. *)
Definition sample_question : Question :=
  mkQuestion 1 10 0 0 false None 0 None 0 None None.

(** The same question claimed by user 20 until [until]. *)
Definition claimed_question (until : datetime) : Question :=
  set_q_taken (Some 20) (Some until) sample_question.

Definition sample_db : DB := mkDB [sample_question] [] [] [] [] 1.

(** Noon of day 10, and a vote cast by user 30 at one o'clock of day 3. *)
Definition sample_now : datetime := timedelta_days 10 + 12 * HOUR.

Definition early_vote : QuestionVote :=
  mkQuestionVote 1 (Some 30) EmptyString (timedelta_days 3 + HOUR).

Definition voted_db : DB := mkDB [sample_question] [] [early_vote] [] [] 1.

(** A reply to question 1 written at [now] by [creator], as the view builds
    it before saving ([page] at its default). *)
Definition new_answer (creator : Z) (now : datetime) : Answer :=
  mkAnswer None 1 creator now now false 1.

Definition post_answer (creator : Z) (now : datetime) (db : DB)
    : result (Answer * Question * DB) :=
  let* question := Question_objects_get 1 db in
  Ok (Answer_save 20 true now (new_answer creator now) question db).

(** Two replies to question 1, an hour apart: the second reply and the store. *)
Definition two_answers : result (Answer * DB) :=
  let* '(_, _, db) := post_answer 21 HOUR sample_db in
  let* '(b, _, db) := post_answer 22 (2 * HOUR) db in
  Ok (b, db).

(** A third reply follows and is then marked as spam: the second reply and
    the store. *)
Definition newer_spam : result (Answer * DB) :=
  let* '(b, db) := two_answers in
  let* '(c, _, db) := post_answer 23 (3 * HOUR) db in
  let* '(_, _, db) := Answer_mark_as_spam 20 (4 * HOUR) c db in
  Ok (b, db).

(** What [newer_spam] evaluates to. *)
Definition second_reply : Answer :=
  mkAnswer (Some 2) 1 22 (2 * HOUR) (2 * HOUR) false 1.

Definition newer_spam_db : DB :=
  mkDB [mkQuestion 1 10 0 (4 * HOUR) false (Some 2) 2 None 0 None None]
       [mkAnswer (Some 1) 1 21 HOUR HOUR false 1;
        second_reply;
        mkAnswer (Some 3) 1 23 (3 * HOUR) (4 * HOUR) true 1]
       [] [] [] 4.

(** Ids and pages of the answers of question 1 that are no spam. *)
Definition pages_of (db : DB) : list (option Z * Z) :=
  map (fun a => (a_id a, a_page a)) (filter not_spam (question_answers 1 db)).

(** Three replies; the second is marked as spam and the pages are
    recomputed; the first is deleted and the pages are recomputed again.
    The pages after each of the three steps, at 20 answers per page. *)
Definition paging_scenario : result (list (list (option Z * Z))) :=
  let* '(a, _, db) := post_answer 21 HOUR sample_db in
  let* '(b, _, db) := post_answer 22 (2 * HOUR) db in
  let* '(_, _, db) := post_answer 23 (3 * HOUR) db in
  let first := pages_of db in
  let* '(_, _, db) := Answer_mark_as_spam 20 (4 * HOUR) b db in
  let db := store (update_answer_pages 20 (5 * HOUR) 1 db) in
  let second := pages_of db in
  let db := store (Answer_delete (6 * HOUR) a db) in
  let db := store (update_answer_pages 20 (7 * HOUR) 1 db) in
  Ok [first; second; pages_of db].

Definition creator_of (self : AAQ) : Z :=
  match self with
  | IsQuestion q => q_creator q
  | IsAnswer a => a_creator a
  end.

(** ** Notions used to state and prove the properties *)

(** The primary key of [Answer]: every row has an id, and no two rows share
    one. *)
Definition answers_keyed (db : DB) : Prop :=
  NoDup (map a_id (answers db))
  /\ Forall (fun a => a_id a <> None) (answers db).

(** The columns that [update_answer_pages] leaves alone. *)
Definition same_key (x y : Answer) : Prop :=
  a_id x = a_id y /\ a_question x = a_question y
  /\ a_created x = a_created y /\ a_is_spam x = a_is_spam y.

(** The instances that the loop of [update_answer_pages] saves, the first
    one numbered [i]. *)
Fixpoint renumbered (per_page : positive) (now : datetime) (i : Z)
    (l : list Answer) : list Answer :=
  match l with
  | [] => []
  | a :: rest =>
      set_a_updated now (set_a_page (i / Z.pos per_page + 1) a)
      :: renumbered per_page now (i + 1) rest
  end.

(** One [UPDATE] seen from a row, and a run of them. *)
Definition overwrite (r a : Answer) : Answer :=
  if refers_to (a_id r) (a_id a) then a else r.

Definition overwrites (saved : list Answer) (r : Answer) : Answer :=
  fold_left overwrite saved r.

(** A world in which no other session interferes. *)
Definition quiet (db : DB) : world := mkWorld db [] [].

(** The primary key of [Question]. *)
Definition questions_keyed (db : DB) : Prop := NoDup (map q_id (questions db)).

(** Every instance of the dict sits under the id its subquery looks for. *)
Definition keyed_dict (d : dict VisitsInstance) : Prop :=
  Forall (fun kv => vi_question_subquery (snd kv) = fst kv) d.

(** Every count of the dict, and of the pageviews, fits the [visits]
    column. *)
Definition counts_fit (d : dict VisitsInstance) : Prop :=
  Forall (fun kv => fits_IntegerField (vi_visits (snd kv)) = true) d.

Definition pageviews_fit (pageviews : list (Z * Z)) : Prop :=
  Forall (fun item => fits_IntegerField (snd item) = true) pageviews.

(** The dict entry that the loop of [reload_from_analytics] makes of an
    item. *)
Definition entry_of (item : Z * Z) : Z * VisitsInstance :=
  (fst item, mkVisitsInstance (fst item) (snd item)).

(** The rows that a quiet [create_batch], a run of them, and the loop of
    [reload_from_analytics] insert. *)
Definition batch_rows (d : dict VisitsInstance) (batch : list Z) (db : DB)
    : list QuestionVisits :=
  match instances_for d (existing_question_ids batch db) with
  | Ok instances => map visits_row instances
  | Raise _ => []
  end.

Definition batches_rows (d : dict VisitsInstance) (batches : list (list Z))
    (db : DB) : list QuestionVisits :=
  flat_map (fun batch => batch_rows d batch db) batches.

Fixpoint loop_rows (total_count : Z) (i : Z) (d : dict VisitsInstance)
    (items : list (Z * Z)) (db : DB) : list QuestionVisits :=
  match items with
  | [] => []
  | (question_id, visits) :: rest =>
      let d := dict_set d question_id (mkVisitsInstance question_id visits) in
      if negb (i mod 30000 =? 0) && negb (i =? total_count) then
        loop_rows total_count (i + 1) d rest db
      else
        batches_rows d (chunked (map fst d) 1000) db
        ++ loop_rows total_count (i + 1) [] rest db
  end.

(** The loop of [reload_from_analytics], at item number [i] with the dict
    [d] and the items still to come, gets to create the fresh instances of
    the dict [d_f] in the world [w_f], the stale rows of its keys just
    deleted: at this item, at a later item of the same batch, or in a later
    batch after the sub-batches of this one were all created. *)
Inductive flush_at (total_count : Z)
    : Z -> dict VisitsInstance -> list (Z * Z) -> world
      -> dict VisitsInstance -> world -> Prop :=
| flush_here (i : Z) (d : dict VisitsInstance) (k visits : Z)
    (rest : list (Z * Z)) (w : world) :
    negb (i mod 30000 =? 0) && negb (i =? total_count) = false ->
    flush_at total_count i d ((k, visits) :: rest) w
      (dict_set d k (mkVisitsInstance k visits))
      (snd (delete_stale
              (map fst (dict_set d k (mkVisitsInstance k visits))) w))
| flush_later (i : Z) (d : dict VisitsInstance) (k visits : Z)
    (rest : list (Z * Z)) (w : world) (d_f : dict VisitsInstance)
    (w_f : world) :
    negb (i mod 30000 =? 0) && negb (i =? total_count) = true ->
    flush_at total_count (i + 1) (dict_set d k (mkVisitsInstance k visits))
      rest w d_f w_f ->
    flush_at total_count i d ((k, visits) :: rest) w d_f w_f
| flush_next (i : Z) (d : dict VisitsInstance) (k visits : Z)
    (rest : list (Z * Z)) (w w1 : world) (d_f : dict VisitsInstance)
    (w_f : world) :
    negb (i mod 30000 =? 0) && negb (i =? total_count) = false ->
    create_batches (dict_set d k (mkVisitsInstance k visits))
      (chunked (map fst (dict_set d k (mkVisitsInstance k visits))) 1000)
      (snd (delete_stale
              (map fst (dict_set d k (mkVisitsInstance k visits))) w))
    = (Ok tt, w1) ->
    flush_at total_count (i + 1) [] rest w1 d_f w_f ->
    flush_at total_count i d ((k, visits) :: rest) w d_f w_f.

(** The rows that a reload leaves alone: those of questions it has no
    pageviews for. *)
Definition kept (keys : list Z) (table : list QuestionVisits)
    : list QuestionVisits :=
  filter (fun v => negb (mem (v_question v) keys)) table.

(** The row that a reload owes to an item. *)
Definition row_of (item : Z * Z) : QuestionVisits :=
  mkQuestionVisits (fst item) (snd item).

(** Three questions, a stale row of visits for the first and a row for a
    question that the pageviews do not mention; the pageviews of
    [test_visit_count_from_analytics], whose last id has no question. *)
Definition asked (id : Z) : Question :=
  mkQuestion id 10 0 0 false None 0 None 0 None None.

Definition visits_db : DB :=
  mkDB [asked 1; asked 2; asked 3] [] [] []
       [mkQuestionVisits 1 5; mkQuestionVisits 9 1] 1.

Definition test_pageviews : list (Z * Z) :=
  [(1, 42); (2, 27); (3, 1337); (123459, 3)].

(** The dict and the sub-batch of a reload of [test_pageviews]. *)
Definition test_dict : dict VisitsInstance := map entry_of test_pageviews.

Definition test_batch : list Z := map fst test_pageviews.

(** ** Further members of the models *)

(** A [timedelta] in its normal form: any number of days, and within the day
    seconds below 86400 and microseconds below a million. *)
Record timedelta : Type := mkTimedelta {
  td_days : Z;
  td_seconds : Z;
  td_microseconds : Z
}.

Definition timedelta_of (microseconds : Z) : timedelta :=
  mkTimedelta
    (microseconds / MICROSECONDS_PER_DAY)
    ((microseconds mod MICROSECONDS_PER_DAY) / MICROSECONDS_PER_SECOND)
    (microseconds mod MICROSECONDS_PER_SECOND).

(** [Question.age]. *)
Definition age (now : datetime) (self : Question) : Z :=
  let delta := timedelta_of (now - q_created self) in
  td_seconds delta + td_days delta * 24 * 60 * 60.

(** [Question.num_votes], without the cache on the instance. *)
Definition num_votes (self : Question) (db : DB) : Z :=
  count (filter (fun v => qv_question v =? q_id self) (question_votes db)).

(** The sequence behind [Answer.id]: every id in the table was handed out
    before the next one. *)
Definition answers_below_next (db : DB) : Prop :=
  Forall (fun a => exists i, a_id a = Some i /\ i < next_answer_id db)
    (answers db).

(** The answers of a question that are no spam: the queryset
    [Answer.objects.filter(question=..., is_spam=False)]. *)
Definition visible_answers (question_id : Z) (db : DB) : list Answer :=
  filter not_spam (question_answers question_id db).

(** Question 1 with three replies, none of them spam, and the third reply. *)
Definition third_reply : Answer :=
  mkAnswer (Some 3) 1 23 (3 * HOUR) (3 * HOUR) false 1.

Definition three_answers_db : DB :=
  mkDB [mkQuestion 1 10 0 (3 * HOUR) false (Some 3) 3 None 0 None None]
       [mkAnswer (Some 1) 1 21 HOUR HOUR false 1; second_reply; third_reply]
       [] [] [] 4.

Definition three_answers_question : Question :=
  mkQuestion 1 10 0 (3 * HOUR) false (Some 3) 3 None 0 None None.

(** The answers that [update_answer_pages] numbers, in its order. *)
Definition numbered_answers (question_id : Z) (db : DB) : list Answer :=
  filter not_spam (order_by created_asc (question_answers question_id db)).

(** What a save of an answer that has a row leaves of the question. *)
Definition question_in_step (now : datetime) (question_id : Z)
    (question : Question) (db : DB) : Prop :=
  Question_objects_get question_id db = Ok question
  /\ q_updated question = now
  /\ q_num_answers question = count (visible_answers question_id db)
  /\ ((visible_answers question_id db = [] /\ q_last_answer question = None)
      \/ exists a,
           In a (visible_answers question_id db)
           /\ q_last_answer question = a_id a
           /\ forall b, In b (visible_answers question_id db) ->
                        a_created b <= a_created a).

(** [Question.num_visits], without the cache on the instance:
    [QuestionVisits.objects.get(question=self).visits], [None] when there is
    no row; [get] raises [MultipleObjectsReturned] when there are several. *)
Inductive visits_lookup : Type :=
| Visits (visits : option Z)
| MultipleObjectsReturned.

Definition num_visits (self : Question) (db : DB) : visits_lookup :=
  match filter (fun v => v_question v =? q_id self) (question_visits db) with
  | [] => Visits None
  | [row] => Visits (Some (v_visits row))
  | _ :: _ :: _ => MultipleObjectsReturned
  end.

(** ** Vote metadata

    A [str] is the list of its characters; what a character is plays no part
    in [add_metadata], which is modelled for any type of characters that a
    text column stores. *)

Definition VOTE_METADATA_MAX_LENGTH : nat := 1000.

(** [key = models.CharField(max_length=40, ...)]. *)
Definition KEY_MAX_LENGTH : nat := 40.

(** [object_id = models.PositiveIntegerField(...)]: what fits the column. *)
Definition fits_PositiveIntegerField (n : Z) : bool :=
  (0 <=? n) && (n <=? 2147483647).

(** A saved vote of either kind, as the generic foreign key of
    [VoteMetadata] names it: its model and its primary key, which comes from
    a sequence that starts at 1. *)
Inductive vote_ref : Type :=
| QuestionVote_ref (pk : positive)
| AnswerVote_ref (pk : positive).

Definition object_id (vote : vote_ref) : Z :=
  match vote with
  | QuestionVote_ref pk => Z.pos pk
  | AnswerVote_ref pk => Z.pos pk
  end.

Record VoteMetadata (char : Type) : Type := mkVoteMetadata {
  vm_vote : vote_ref;
  vm_key : list char;
  vm_value : list char
}.
Arguments mkVoteMetadata {char} _ _ _.
Arguments vm_vote {char} _.
Arguments vm_key {char} _.
Arguments vm_value {char} _.

(** [VoteBase.add_metadata]:
    [VoteMetadata.objects.create(vote=self, key=key,
    value=value[:VOTE_METADATA_MAX_LENGTH])].  The [INSERT] fails with
    [DataError] for a key longer than its column and for a primary key of
    the vote that does not fit [object_id]; the value is cut to the length
    of its column before. *)
Definition add_metadata {char : Type} (self : vote_ref) (key value : list char)
    (table : list (VoteMetadata char)) : result (list (VoteMetadata char)) :=
  if (KEY_MAX_LENGTH <? List.length key)%nat
     || negb (fits_PositiveIntegerField (object_id self))
  then Raise DataError
  else
    Ok (table
        ++ [mkVoteMetadata self key (firstn VOTE_METADATA_MAX_LENGTH value)]).

(** ** Version numbers

    A [str] is the list of its code points. *)

Definition FULL_STOP : N := 46.

Section Digits.

(** [\d] in a pattern on [str]: the decimal digits of Unicode (category
    Nd), a table of the interpreter. *)
Variable is_decimal : N -> bool.

(** The longest run of digits that [s] starts with, and what follows it. *)
Fixpoint span_digits (s : list N) : list N * list N :=
  match s with
  | [] => ([], [])
  | c :: rest =>
      if is_decimal c
      then let '(digits, tail) := span_digits rest in (c :: digits, tail)
      else ([], s)
  end.

(** [_tenths_version]: group 1 of [(\d+\.\d+).*] matched at the start of
    [full_version], the empty string when there is no match.  The full stop
    is no digit, so the greedy [\d+] never has to give a character back. *)
Definition _tenths_version (full_version : list N) : list N :=
  let '(major, rest) := span_digits full_version in
  match major, rest with
  | _ :: _, c :: rest' =>
      if (c =? FULL_STOP)%N then
        let '(minor, _) := span_digits rest' in
        match minor with
        | _ :: _ => major ++ FULL_STOP :: minor
        | [] => []
        end
      else []
  | _, _ => []
  end.

(** A string of digits only. *)
Definition all_digits (s : list N) : bool := forallb is_decimal s.

End Digits.

(** The digits 0 to 9 of ASCII and of the Arabic-Indic script: two of the
    ranges of category Nd. *)
Definition sample_decimal (c : N) : bool :=
  (((48 <=? c) && (c <=? 57)) || ((1632 <=? c) && (c <=? 1641)))%N.

(** The code points of the ASCII string [s]. *)
Definition code_points (s : string) : list N :=
  map N_of_ascii (list_ascii_of_string s).

(** ** Permissions *)

(** The user of a request: [id] is [None] for [AnonymousUser], and
    [has_perm] is the answer of the authentication backends. *)
Record User : Type := mkUser {
  user_id : option Z;
  user_is_authenticated : bool;
  user_has_perm : string -> bool
}.

(** A question with the two flags that decide whether it is editable;
    [is_archived] is a nullable column. *)
Record FlaggedQuestion : Type := mkFlaggedQuestion {
  fq_question : Question;
  fq_is_locked : bool;
  fq_is_archived : option bool
}.

(** [user == self.creator]. *)
Definition is_creator (user : User) (self : FlaggedQuestion) : bool :=
  opt_eqb (user_id user) (Some (q_creator (fq_question self))).

(** Truth of a nullable boolean. *)
Definition truthy (b : option bool) : bool :=
  match b with
  | Some true => true
  | _ => false
  end.

Definition editable (self : FlaggedQuestion) : bool :=
  negb (fq_is_locked self) && negb (truthy (fq_is_archived self)).

Definition allows_edit (self : FlaggedQuestion) (user : User) : bool :=
  user_has_perm user "questions.change_question"
  || (editable self && is_creator user self).

Definition allows_new_answer (self : FlaggedQuestion) (user : User) : bool :=
  user_has_perm user "questions.add_answer"
  || (editable self && user_is_authenticated user).

Definition allows_solve (self : FlaggedQuestion) (user : User) : bool :=
  editable self
  && (is_creator user self || user_has_perm user "questions.change_solution").

Definition allows_unsolve (self : FlaggedQuestion) (user : User) : bool :=
  editable self
  && (is_creator user self || user_has_perm user "questions.change_solution").

Definition allows_flag (self : FlaggedQuestion) (user : User) : bool :=
  user_is_authenticated user && negb (is_creator user self) && editable self.

(** ** Helpful replies *)

(** The helpful votes on answers of the question:
    [AnswerVote.objects.filter(helpful=True, answer__question=self)]. *)
Definition helpful_votes (self : Question) (db : DB) : list AnswerVote :=
  filter
    (fun v =>
       av_helpful v
       && existsb (fun a => refers_to (a_id a) (Some (av_answer v))
                            && (a_question a =? q_id self))
            (answers db))
    (answer_votes db).

(** The groups of [values("answer")]: each answer once. *)
Fixpoint groups (l : list Z) : list Z :=
  match l with
  | [] => []
  | x :: rest => x :: filter (fun y => negb (y =? x)) (groups rest)
  end.

(** [Count("*")] of a group. *)
Definition score (votes : list AnswerVote) (answer_id : Z) : Z :=
  count (filter (fun v => av_answer v =? answer_id) votes).

(** [helpful_ids]: the two groups of highest score, highest first. *)
Definition helpful_ids (self : Question) (db : DB) : list Z :=
  let votes := helpful_votes self db in
  firstn 2
    (order_by (fun x y => score votes y <=? score votes x)
       (filter (fun id => 0 <? score votes id)
          (groups (map av_answer votes)))).

(** [list.remove]: without the first occurrence. *)
Fixpoint list_remove (x : Z) (l : list Z) : list Z :=
  match l with
  | [] => []
  | y :: rest => if y =? x then rest else y :: list_remove x rest
  end.

(** [helpful_ids] once the solution, if it is set and among them, has been
    removed. *)
Definition without_solution (self : Question) (ids : list Z) : list Z :=
  match q_solution self with
  | Some solution => if mem solution ids then list_remove solution ids else ids
  | None => ids
  end.

(** [Question.helpful_replies]; the answers come back in the default order
    of [Answer], by [created]. *)
Definition helpful_replies (self : Question) (db : DB) : list Answer :=
  let ids := without_solution self (helpful_ids self db) in
  if 0 <? count ids then
    order_by created_asc
      (filter (fun a => match a_id a with
                        | Some i => mem i ids
                        | None => false
                        end)
         (question_answers (q_id self) db))
  else [].

(** Question 1 with its three replies: the second one is the solution and
    has three helpful votes, the third has two, the first has one and a
    vote that is not helpful. *)
Definition solved_question : Question :=
  mkQuestion 1 10 0 (3 * HOUR) false (Some 3) 3 (Some 2) 0 None None.

Definition helpful_vote (answer_id creator : Z) : AnswerVote :=
  mkAnswerVote answer_id true (Some creator) EmptyString (4 * HOUR).

Definition helpful_db : DB :=
  mkDB [solved_question]
       [mkAnswer (Some 1) 1 21 HOUR HOUR false 1; second_reply; third_reply]
       []
       [mkAnswerVote 1 false (Some 30) EmptyString (4 * HOUR);
        helpful_vote 1 31;
        helpful_vote 3 30; helpful_vote 3 31;
        helpful_vote 2 31; helpful_vote 2 32; helpful_vote 2 33]
       [] 4.

(** A locked question and a moderator who holds every permission. *)
Definition locked_question : FlaggedQuestion :=
  mkFlaggedQuestion sample_question true (Some false).

Definition moderator : User := mkUser (Some 20) true (fun _ => true).

(** A question whose [is_archived] is NULL, and its creator, who holds no
    permission. *)
Definition open_question : FlaggedQuestion :=
  mkFlaggedQuestion sample_question false None.

Definition asker : User := mkUser (Some 10) true (fun _ => false).

(** Rows in descending order of a key. *)
Fixpoint descending {A : Type} (key : A -> Z) (l : list A) : Prop :=
  match l with
  | [] => True
  | x :: rest => (forall y, In y rest -> key y <= key x) /\ descending key rest
  end.

(** * Properties *)

(** ** Rows and lookups *)

Lemma get_missing (question_id : Z) (db : DB) :
  (forall q, In q (questions db) -> q_id q <> question_id) ->
  Question_objects_get question_id db = Raise DoesNotExist.
Proof.
  intros Hnone. unfold Question_objects_get.
  destruct (find _ (questions db)) as [q|] eqn:Hfind; [|reflexivity].
  apply find_some in Hfind. destruct Hfind as [Hin Heq].
  apply Z.eqb_eq in Heq. exfalso. exact (Hnone q Hin Heq).
Qed.

Lemma get_found (question_id : Z) (db : DB) (question : Question) :
  Question_objects_get question_id db = Ok question ->
  In question (questions db) /\ q_id question = question_id.
Proof.
  unfold Question_objects_get.
  destruct (find _ (questions db)) as [q|] eqn:Hfind; [|discriminate].
  intros H. injection H as <-. apply find_some in Hfind.
  destruct Hfind as [Hin Heq]. apply Z.eqb_eq in Heq. auto.
Qed.

Lemma find_updated_row (q : Question) (l : list Question) :
  find (fun r => q_id r =? q_id q)
    (map (fun r => if q_id r =? q_id q then q else r) l)
  = match find (fun r => q_id r =? q_id q) l with
    | Some _ => Some q
    | None => None
    end.
Proof.
  induction l as [|r l IH]; simpl; [reflexivity|].
  destruct (q_id r =? q_id q) eqn:E.
  - rewrite Z.eqb_refl. reflexivity.
  - rewrite E. exact IH.
Qed.

(** After a save, the row of the instance, if there is one, is the
    instance. *)
Lemma get_after_save (update : bool) (now : datetime) (q : Question) (db : DB) :
  Question_objects_get (q_id q) (snd (Question_save update now q db))
  = match Question_objects_get (q_id q) db with
    | Ok _ => Ok (fst (Question_save update now q db))
    | Raise e => Raise e
    end.
Proof.
  unfold Question_objects_get, Question_save. simpl.
  assert (Hid : q_id (if update then set_q_updated now q else q) = q_id q)
    by (destruct update; reflexivity).
  set (q' := if update then set_q_updated now q else q) in *.
  rewrite <- Hid. rewrite find_updated_row.
  destruct (find _ (questions db)); reflexivity.
Qed.

(** ** Voting eligibility *)

(** C10: for an authenticated request by the creator of the question or
    answer, [has_voted] is [True] whatever votes are stored; for a request
    that is neither authenticated nor carries an anonymous id, it is
    [False]. *)
Theorem has_voted_creator_and_unidentified :
  forall (self : AAQ) (request : Request) (db : DB),
    (request_user request = Some (creator_of self) ->
     has_voted self request db = true)
    /\ (request_user request = None -> request_anonymous request = None ->
        has_voted self request db = false).
Proof.
  intros self request db. split.
  - intros Huser. unfold has_voted. rewrite Huser.
    destruct self as [q|a]; simpl; rewrite Z.eqb_refl; reflexivity.
  - intros Huser Hanon. unfold has_voted. rewrite Huser, Hanon. reflexivity.
Qed.

Lemma has_voted_creator_and_unidentified_witness :
  has_voted (IsQuestion sample_question) (mkRequest (Some 10) None) sample_db
  = true
  /\ has_voted (IsQuestion sample_question) (mkRequest None None) voted_db
     = false.
Proof.
  split.
  - apply (has_voted_creator_and_unidentified
             (IsQuestion sample_question) (mkRequest (Some 10) None) sample_db).
    reflexivity.
  - apply (has_voted_creator_and_unidentified
             (IsQuestion sample_question) (mkRequest None None) voted_db);
      reflexivity.
Defined.

(** ** Claims on a question *)

(** C6: when [taken_until] is earlier than now, or one of [taken_by] and
    [taken_until] is missing while the other is set, [is_taken] answers
    [False], resets both fields to none and saves the question, so that its
    row, if it has one, holds no claim. *)
Theorem is_taken_stale_claim_is_reset :
  forall (now : datetime) (self : Question) (db : DB),
    ((exists until, q_taken_until self = Some until /\ until < now)
     \/ (q_taken_by self = None /\ q_taken_until self <> None)
     \/ (q_taken_by self <> None /\ q_taken_until self = None)) ->
    exists self' db',
      is_taken now self db = (false, self', db')
      /\ q_taken_by self' = None
      /\ q_taken_until self' = None
      /\ db' = update_question_row self' db
      /\ Question_objects_get (q_id self) db'
         = match Question_objects_get (q_id self) db with
           | Ok _ => Ok self'
           | Raise e => Raise e
           end.
Proof.
  intros now self db H.
  exists (set_q_taken None None self),
         (update_question_row (set_q_taken None None self) db).
  pose proof (get_after_save false now (set_q_taken None None self) db) as Hget.
  unfold Question_save in Hget. simpl in Hget.
  unfold is_taken.
  destruct H as [[until [Hu Hlt]] | [[Hby Hu] | [Hby Hu]]].
  - rewrite Hu. apply Z.ltb_lt in Hlt.
    destruct (q_taken_by self); rewrite ?Hlt; simpl; auto.
  - rewrite Hby. destruct (q_taken_until self); [|congruence]. simpl. auto.
  - rewrite Hu. destruct (q_taken_by self); [|congruence]. simpl. auto.
Qed.

Lemma is_taken_stale_claim_is_reset_witness :
  exists self' db',
    is_taken sample_now (claimed_question HOUR)
      (mkDB [claimed_question HOUR] [] [] [] [] 1) = (false, self', db')
    /\ q_taken_by self' = None
    /\ q_taken_until self' = None
    /\ db' = update_question_row self' (mkDB [claimed_question HOUR] [] [] [] [] 1)
    /\ Question_objects_get (q_id (claimed_question HOUR)) db'
       = match Question_objects_get (q_id (claimed_question HOUR))
                 (mkDB [claimed_question HOUR] [] [] [] [] 1) with
         | Ok _ => Ok self'
         | Raise e => Raise e
         end.
Proof.
  apply (is_taken_stale_claim_is_reset sample_now (claimed_question HOUR)
           (mkDB [claimed_question HOUR] [] [] [] [] 1)).
  left. exists HOUR. split; [reflexivity | vm_compute; reflexivity].
Defined.

(** C5, as the code has it: [take] by the creator always raises
    [InvalidUserException]; by another user, on a question held by a third
    user and without [force], it raises [AlreadyTakenException]; by another
    user with [force] it succeeds, hands the claim to that user and sets the
    expiry [TAKE_TIMEOUT] seconds from now; and by the user who holds the
    question, or on a question that nobody holds, it succeeds without
    [force] too, with the same claim and the same fresh expiry. *)
Theorem take_outcomes :
  forall (TAKE_TIMEOUT : Z) (user : Z) (force : bool) (now : datetime)
         (self : Question) (db : DB),
    (user = q_creator self ->
     take TAKE_TIMEOUT user force now self db = Raise InvalidUserException)
    /\ (user <> q_creator self ->
        (exists holder, q_taken_by self = Some holder /\ holder <> user) ->
        force = false ->
        take TAKE_TIMEOUT user force now self db = Raise AlreadyTakenException)
    /\ (user <> q_creator self ->
        force = true ->
        exists self' db',
          take TAKE_TIMEOUT user force now self db = Ok (self', db')
          /\ q_taken_by self' = Some user
          /\ q_taken_until self' = Some (now + timedelta_seconds TAKE_TIMEOUT)
          /\ db' = update_question_row self' db)
    /\ (user <> q_creator self ->
        q_taken_by self = Some user \/ q_taken_by self = None ->
        exists self' db',
          take TAKE_TIMEOUT user force now self db = Ok (self', db')
          /\ q_taken_by self' = Some user
          /\ q_taken_until self' = Some (now + timedelta_seconds TAKE_TIMEOUT)
          /\ db' = update_question_row self' db).
Proof.
  intros T user force now self db. unfold take. repeat split.
  - intros ->. rewrite Z.eqb_refl. reflexivity.
  - intros Hne [holder [Hby Hother]] ->.
    apply Z.eqb_neq in Hne. rewrite Hne, Hby.
    apply Z.eqb_neq in Hother. rewrite Hother. reflexivity.
  - intros Hne ->. apply Z.eqb_neq in Hne. rewrite Hne.
    rewrite andb_false_r.
    eexists. eexists. split; [reflexivity|]. simpl. auto.
  - intros Hne Hby. apply Z.eqb_neq in Hne. rewrite Hne.
    destruct Hby as [-> | ->]; [rewrite Z.eqb_refl|]; cbn [negb andb];
      eexists; eexists; (split; [reflexivity|]); simpl; auto.
Qed.

Lemma take_outcomes_witness :
  take 600 10 false sample_now sample_question sample_db
  = Raise InvalidUserException
  /\ take 600 30 false sample_now (claimed_question HOUR) sample_db
     = Raise AlreadyTakenException
  /\ (exists self' db',
        take 600 30 true sample_now (claimed_question HOUR) sample_db
        = Ok (self', db')
        /\ q_taken_by self' = Some 30
        /\ q_taken_until self' = Some (sample_now + timedelta_seconds 600)
        /\ db' = update_question_row self' sample_db)
  /\ exists self' db',
       take 600 20 false sample_now (claimed_question HOUR) sample_db
       = Ok (self', db')
       /\ q_taken_by self' = Some 20
       /\ q_taken_until self' = Some (sample_now + timedelta_seconds 600)
       /\ db' = update_question_row self' sample_db.
Proof.
  split; [|split; [|split]].
  - apply (take_outcomes 600 10 false sample_now sample_question sample_db).
    reflexivity.
  - apply (take_outcomes 600 30 false sample_now (claimed_question HOUR)
             sample_db).
    + vm_compute. discriminate.
    + exists 20. split; [reflexivity | lia].
    + reflexivity.
  - destruct (take_outcomes 600 30 true sample_now (claimed_question HOUR)
                sample_db) as [_ [_ [Hforce _]]].
    apply Hforce.
    + vm_compute. discriminate.
    + reflexivity.
  - destruct (take_outcomes 600 20 false sample_now (claimed_question HOUR)
                sample_db) as [_ [_ [_ Hholder]]].
    apply Hholder.
    + vm_compute. discriminate.
    + left. reflexivity.
Defined.

(** The holder of a claim takes the question again without [force] and
    succeeds; the creator takes it with [force] and fails. *)
Lemma take_counterexample :
  q_taken_by (claimed_question HOUR) = Some 20
  /\ (exists self' db',
        take 600 20 false sample_now (claimed_question HOUR) sample_db
        = Ok (self', db'))
  /\ take 600 10 true sample_now (claimed_question HOUR) sample_db
     = Raise InvalidUserException.
Proof.
  split; [reflexivity|]. split; [|reflexivity].
  eexists. eexists. vm_compute. reflexivity.
Qed.

(** ** Tasks on a question that is gone *)

(** C8: for a question id without a row, [update_question_votes] and
    [update_answer_pages] raise nothing and leave the store as it was. *)
Theorem tasks_skip_missing_question :
  forall (ANSWERS_PER_PAGE : positive) (now : datetime) (question_id : Z)
         (db : DB),
    (forall q, In q (questions db) -> q_id q <> question_id) ->
    raised (update_question_votes now question_id db) = None
    /\ store (update_question_votes now question_id db) = db
    /\ raised (update_answer_pages ANSWERS_PER_PAGE now question_id db) = None
    /\ store (update_answer_pages ANSWERS_PER_PAGE now question_id db) = db.
Proof.
  intros P now question_id db Hnone.
  unfold update_question_votes, update_answer_pages.
  rewrite (get_missing question_id db Hnone). simpl. auto.
Qed.

Lemma tasks_skip_missing_question_witness :
  raised (update_question_votes sample_now 7 voted_db) = None
  /\ store (update_question_votes sample_now 7 voted_db) = voted_db
  /\ raised (update_answer_pages 20 sample_now 7 voted_db) = None
  /\ store (update_answer_pages 20 sample_now 7 voted_db) = voted_db.
Proof.
  apply (tasks_skip_missing_question 20 sample_now 7 voted_db).
  intros q [<- | []]. vm_compute. discriminate.
Defined.

(** ** Votes of the past week *)

Lemma midnight_shift (now : datetime) (d : Z) :
  midnight (now - timedelta_days d) = midnight now - timedelta_days d.
Proof.
  unfold midnight, timedelta_days, datetime in *.
  replace (now - d * MICROSECONDS_PER_DAY)
    with (now + (- d) * MICROSECONDS_PER_DAY) by ring.
  rewrite Z.mod_add by (unfold MICROSECONDS_PER_DAY, MICROSECONDS_PER_SECOND; lia).
  ring.
Qed.

(** C4, as the code has it: [sync_num_votes_past_week], the task that
    saves its result, and [update_question_vote_chunk] set the counter of a
    question to the number of its votes created between the midnight that
    opens the seventh day before today and now, both ends included. *)
Theorem votes_past_week_since_midnight :
  forall (now : datetime) (db : DB),
    (forall self,
       fst (sync_num_votes_past_week now self db)
       = votes_in_range (midnight now - timedelta_days 7) now (q_id self) db)
    /\ (forall question_id q,
          Question_objects_get question_id db = Ok q ->
          Question_objects_get question_id
            (store (update_question_votes now question_id db))
          = Ok (set_q_num_votes_past_week
                  (votes_in_range (midnight now - timedelta_days 7) now
                     question_id db) q))
    /\ (forall question_ids q',
          In q' (questions (store (update_question_vote_chunk now question_ids db))) ->
          In (q_id q') question_ids ->
          q_num_votes_past_week q'
          = votes_in_range (midnight now - timedelta_days 7) now (q_id q') db).
Proof.
  intros now db. split; [reflexivity|]. split.
  - intros question_id q Hget.
    destruct (get_found _ _ _ Hget) as [_ Hid].
    unfold update_question_votes. rewrite Hget.
    unfold sync_num_votes_past_week. cbn [store].
    set (q' := set_q_num_votes_past_week _ q).
    pose proof (get_after_save false now q' db) as Hsaved.
    change (q_id q') with (q_id q) in Hsaved. rewrite Hid in Hsaved.
    rewrite Hget in Hsaved. unfold Question_save in *. cbn [fst snd] in *.
    cbn [store]. rewrite Hsaved. unfold q'. rewrite Hid. reflexivity.
  - intros question_ids q' Hin Hid.
    unfold update_question_vote_chunk in Hin.
    rewrite midnight_shift in Hin.
    cbn [store questions with_questions] in Hin.
    apply in_map_iff in Hin. destruct Hin as [q [Hq _]].
    assert (Hmem : forall x, In x question_ids ->
              existsb (Z.eqb x) question_ids = true).
    { intros x Hx. apply existsb_exists. exists x. split; [exact Hx|].
      apply Z.eqb_refl. }
    destruct (existsb (Z.eqb (q_id q)) question_ids) eqn:E.
    + subst q'. cbn [set_q_num_votes_past_week q_num_votes_past_week q_id].
      destruct (votes_in_range _ now (q_id q) db =? 0) eqn:E0; simpl.
      * apply Z.eqb_eq in E0. symmetry. exact E0.
      * reflexivity.
    + subst q'. rewrite (Hmem _ Hid) in E. discriminate.
Qed.

Lemma votes_past_week_since_midnight_witness :
  Question_objects_get 1 (store (update_question_votes sample_now 1 voted_db))
  = Ok (set_q_num_votes_past_week
          (votes_in_range (midnight sample_now - timedelta_days 7) sample_now
             1 voted_db) sample_question)
  /\ q_num_votes_past_week (set_q_num_votes_past_week 1 sample_question)
     = votes_in_range (midnight sample_now - timedelta_days 7) sample_now
         (q_id (set_q_num_votes_past_week 1 sample_question)) voted_db.
Proof.
  destruct (votes_past_week_since_midnight sample_now voted_db)
    as [_ [Htask Hchunk]].
  split.
  - apply (Htask 1 sample_question). reflexivity.
  - apply (Hchunk [1] (set_q_num_votes_past_week 1 sample_question)).
    + vm_compute. left. reflexivity.
    + vm_compute. left. reflexivity.
Defined.

(** At noon of day 10 a vote of one o'clock of day 3 is older than seven
    days, and both operations count it. *)
Lemma votes_past_week_counterexample :
  votes_in_range (sample_now - timedelta_days 7) sample_now 1 voted_db = 0
  /\ fst (sync_num_votes_past_week sample_now sample_question voted_db) = 1
  /\ map q_num_votes_past_week
       (questions (store (update_question_vote_chunk sample_now [1] voted_db)))
     = [1].
Proof.
  vm_compute. auto.
Qed.

(** ** Deleting an answer *)

(** The case of [test_delete_last_answer_of_question]: the newest of two
    replies is deleted and [last_answer] goes back to the first. *)
Example delete_newest_of_two :
  exists b db,
    two_answers = Ok (b, db)
    /\ map q_last_answer (questions db) = [Some 2]
    /\ raised (Answer_delete (3 * HOUR) b db) = None
    /\ map q_last_answer (questions (store (Answer_delete (3 * HOUR) b db)))
       = [Some 1].
Proof.
  eexists. eexists. split; [vm_compute; reflexivity|].
  vm_compute. auto.
Qed.

(** C7 at a store where a newer reply was marked as spam: [last_answer] is
    the second reply; deleting it leaves the first reply, which is no spam,
    and [last_answer] ends as none. *)
Theorem delete_last_answer_older_than_spam :
  newer_spam = Ok (second_reply, newer_spam_db)
  /\ map q_last_answer (questions newer_spam_db) = [a_id second_reply]
  /\ raised (Answer_delete (5 * HOUR) second_reply newer_spam_db) = None
  /\ map (fun a => (a_id a, a_is_spam a))
       (answers (store (Answer_delete (5 * HOUR) second_reply newer_spam_db)))
     = [(Some 1, false); (Some 3, true)]
  /\ map q_last_answer
       (questions (store (Answer_delete (5 * HOUR) second_reply newer_spam_db)))
     = [None].
Proof.
  vm_compute. auto 6.
Qed.

(** ** Leaf of a topic path *)

Local Open Scope string_scope.

Lemma append_snoc (cur : string) (c : ascii) (s : string) :
  (cur ++ String c EmptyString) ++ s = cur ++ String c s.
Proof.
  induction cur as [|x cur IH]; simpl; [reflexivity|].
  rewrite IH. reflexivity.
Qed.

Lemma split_without_token (tokens : list string) (s : string) :
  forall cur,
    has_token tokens s = false ->
    split_tokens tokens 0 cur s = [cur ++ s].
Proof.
  induction s as [|c s IH]; intros cur Hno.
  - simpl. f_equal. induction cur as [|x cur IHc]; simpl; congruence.
  - cbn [split_tokens]. cbn [has_token] in Hno.
    destruct (token_at tokens (String c s)); [discriminate|].
    rewrite (IH _ Hno). rewrite append_snoc. reflexivity.
Qed.

(** A token does not start where one of its characters is nowhere to be
    found. *)
Lemma prefix_first (c : ascii) (t s : string) :
  occurs c s = false -> prefix (String c t) s = false.
Proof.
  destruct s as [|x s]; [reflexivity|]. simpl.
  destruct (ascii_dec c x) as [->|Hne]; [|reflexivity].
  rewrite Ascii.eqb_refl. discriminate.
Qed.

Lemma prefix_second (b c : ascii) (t s : string) :
  occurs c s = false -> prefix (String b (String c t)) s = false.
Proof.
  destruct s as [|x s]; [reflexivity|]. cbn [occurs prefix].
  intros H. apply orb_false_iff in H. destruct H as [_ H].
  destruct (ascii_dec b x); [|reflexivity].
  apply prefix_first. exact H.
Qed.

Lemma token_at_spaced (s : string) :
  occurs "-" s = false -> occurs "/" s = false ->
  token_at SEPARATORS_SPACED s = token_at SEPARATORS s.
Proof.
  intros Hhyphen Hslash. unfold token_at, SEPARATORS_SPACED, SEPARATORS.
  cbn [find].
  rewrite (prefix_first "-" EmptyString s Hhyphen).
  rewrite (prefix_second " " "-" " " s Hhyphen).
  rewrite (prefix_first "/" EmptyString s Hslash).
  rewrite (prefix_second " " "/" " " s Hslash).
  reflexivity.
Qed.

Lemma split_tokens_spaced (s : string) :
  forall skip cur,
    occurs "-" s = false -> occurs "/" s = false ->
    split_tokens SEPARATORS_SPACED skip cur s
    = split_tokens SEPARATORS skip cur s.
Proof.
  induction s as [|c s IH]; intros skip cur Hhyphen Hslash; [reflexivity|].
  cbn [split_tokens].
  rewrite (token_at_spaced (String c s) Hhyphen Hslash).
  cbn [occurs] in Hhyphen, Hslash.
  apply orb_false_iff in Hhyphen. apply orb_false_iff in Hslash.
  destruct Hhyphen as [_ Hhyphen]. destruct Hslash as [_ Hslash].
  destruct skip as [|k]; [|apply IH; assumption].
  destruct (token_at SEPARATORS (String c s)) as [t|];
    [f_equal|]; apply IH; assumption.
Qed.




Local Close Scope string_scope.

(** ** Page numbers *)

Section Ordering.

Context {A : Type} (before : A -> A -> bool).

Lemma insert_by_perm (x : A) (l : list A) :
  Permutation (insert_by before x l) (x :: l).
Proof.
  induction l as [|y l IH]; simpl; [apply Permutation_refl|].
  destruct (before x y); [apply Permutation_refl|].
  eapply perm_trans; [apply perm_skip, IH | apply perm_swap].
Qed.

Lemma order_by_perm (l : list A) : Permutation (order_by before l) l.
Proof.
  induction l as [|x l IH]; simpl; [apply perm_nil|].
  eapply perm_trans; [apply insert_by_perm | apply perm_skip, IH].
Qed.

Lemma order_by_In (x : A) (l : list A) : In x (order_by before l) <-> In x l.
Proof.
  split; apply Permutation_in;
    [apply order_by_perm | apply Permutation_sym, order_by_perm].
Qed.

(** Sorting commutes with a change of the rows that keeps their order. *)
Lemma insert_by_map (g : A -> A) (x : A) (l : list A) :
  (forall y, In y l -> before (g x) (g y) = before x y) ->
  insert_by before (g x) (map g l) = map g (insert_by before x l).
Proof.
  induction l as [|y l IH]; intros Hg; simpl; [reflexivity|].
  rewrite (Hg y (or_introl eq_refl)).
  destruct (before x y); [reflexivity|].
  simpl. rewrite IH; [reflexivity|].
  intros z Hz. apply Hg. right. exact Hz.
Qed.

Lemma order_by_map (g : A -> A) (l : list A) :
  (forall x y, In x l -> In y l -> before (g x) (g y) = before x y) ->
  order_by before (map g l) = map g (order_by before l).
Proof.
  induction l as [|x l IH]; intros Hg; simpl; [reflexivity|].
  rewrite IH by (intros; apply Hg; right; assumption).
  apply insert_by_map.
  intros y Hy. apply Hg; [left; reflexivity|].
  right. apply order_by_In. exact Hy.
Qed.

End Ordering.

Lemma filter_map_invariant {A : Type} (p : A -> bool) (g : A -> A) (l : list A) :
  (forall x, In x l -> p (g x) = p x) ->
  filter p (map g l) = map g (filter p l).
Proof.
  induction l as [|x l IH]; intros Hg; simpl; [reflexivity|].
  rewrite (Hg x (or_introl eq_refl)).
  rewrite IH by (intros; apply Hg; right; assumption).
  destruct (p x); reflexivity.
Qed.

Section Keys.

Context {A K : Type} (key : A -> K).

(** Rows selected from a keyed table are keyed. *)
Lemma keyed_filter (p : A -> bool) (table : list A) :
  NoDup (map key table) -> NoDup (map key (filter p table)).
Proof.
  induction table as [|row table IH]; simpl; [trivial|].
  rewrite NoDup_cons_iff. intros [Hfresh Hrest].
  destruct (p row); simpl; [|exact (IH Hrest)].
  apply NoDup_cons; [|exact (IH Hrest)].
  contradict Hfresh.
  apply in_map_iff in Hfresh. destruct Hfresh as [y [Hy Hin]].
  apply filter_In in Hin. rewrite <- Hy. apply in_map. tauto.
Qed.

(** Two rows of a keyed table with the same key are the same row. *)
Lemma keyed_row_unique (table : list A) (x y : A) :
  NoDup (map key table) -> In x table -> In y table -> key x = key y -> x = y.
Proof.
  induction table as [|row table IH]; simpl; [contradiction|].
  rewrite NoDup_cons_iff. intros [Hfresh Hrest] Hx Hy Hkey.
  destruct Hx as [-> | Hx], Hy as [-> | Hy]; auto.
  - contradict Hfresh. rewrite Hkey. apply in_map. exact Hy.
  - contradict Hfresh. rewrite <- Hkey. apply in_map. exact Hx.
Qed.

End Keys.

Lemma refers_to_true (x y : option Z) :
  refers_to x y = true <-> x = y /\ x <> None.
Proof.
  destruct x as [a|], y as [b|]; simpl;
    try (split; [discriminate | intros [H1 H2]; congruence]).
  rewrite Z.eqb_eq. split.
  - intros ->. split; [reflexivity | discriminate].
  - intros [H _]. congruence.
Qed.

Lemma table_overwrites (saved : list Answer) (table : list Answer) :
  fold_left (fun t a => map (fun r => overwrite r a) t) saved table
  = map (overwrites saved) table.
Proof.
  revert table. induction saved as [|a saved IH]; intros table; simpl.
  - symmetry. apply map_id.
  - rewrite IH. rewrite map_map. reflexivity.
Qed.

Lemma Answer_save_answers (per_page : positive) (update : bool) (now : datetime)
    (self : Answer) (question : Question) (db : DB) :
  a_id self <> None ->
  answers (snd (Answer_save per_page update now self question db))
  = map (fun r => overwrite r (set_a_updated now self)) (answers db).
Proof.
  intros Hid. unfold Answer_save.
  destruct (a_id self) as [k|] eqn:E; [|congruence].
  simpl. unfold overwrite. simpl. rewrite E. reflexivity.
Qed.

Lemma loop_answers (per_page : positive) (now : datetime) (l : list Answer) :
  forall i question db,
    Forall (fun a => a_id a <> None) l ->
    answers (snd (update_answer_pages_loop per_page now i l question db))
    = map (overwrites (renumbered per_page now i l)) (answers db).
Proof.
  induction l as [|a l IH]; intros i question db Hids; simpl.
  - symmetry. apply map_id.
  - inversion Hids as [|? ? Ha Hl]; subst.
    pose proof (Answer_save_answers per_page true now
                  (set_a_page (i / Z.pos per_page + 1) a) question db Ha) as Hsave.
    destruct (Answer_save per_page true now
                (set_a_page (i / Z.pos per_page + 1) a) question db)
      as [[self' question'] db'].
    simpl in Hsave. rewrite (IH _ _ _ Hl). rewrite Hsave. rewrite map_map.
    reflexivity.
Qed.

Lemma renumbered_nth (per_page : positive) (now : datetime) (l : list Answer) :
  forall i n u,
    nth_error (renumbered per_page now i l) n = Some u ->
    exists a,
      nth_error l n = Some a
      /\ same_key u a
      /\ a_page u = (i + Z.of_nat n) / Z.pos per_page + 1.
Proof.
  induction l as [|a l IH]; intros i n u Hn.
  - destruct n; discriminate.
  - destruct n as [|n]; simpl in Hn.
    + injection Hn as <-. exists a. split; [reflexivity|].
      split; [repeat split|]. simpl. rewrite Z.add_0_r. reflexivity.
    + destruct (IH _ _ _ Hn) as [a' [Hnth [Hkey Hpage]]].
      exists a'. split; [exact Hnth|]. split; [exact Hkey|].
      rewrite Hpage. f_equal. f_equal. lia.
Qed.

Lemma renumbered_ids (per_page : positive) (now : datetime) (l : list Answer) :
  forall i, map a_id (renumbered per_page now i l) = map a_id l.
Proof.
  induction l as [|a l IH]; intros i; simpl; [reflexivity|].
  rewrite IH. reflexivity.
Qed.

Lemma renumbered_In (per_page : positive) (now : datetime) (l : list Answer) :
  forall i u,
    In u (renumbered per_page now i l) -> exists a, In a l /\ same_key u a.
Proof.
  intros i u Hin. apply In_nth_error in Hin. destruct Hin as [n Hn].
  destruct (renumbered_nth _ _ _ _ _ _ Hn) as [a [Hnth [Hkey _]]].
  exists a. split; [eapply nth_error_In; eassumption | exact Hkey].
Qed.

(** A row that no saved instance names stays as it is. *)
Lemma overwrites_other (saved : list Answer) (r : Answer) :
  (forall u, In u saved -> a_id u <> a_id r) ->
  overwrites saved r = r.
Proof.
  revert r. induction saved as [|u saved IH]; intros r Hne; [reflexivity|].
  unfold overwrites. simpl. fold (overwrites saved (overwrite r u)).
  assert (Hov : overwrite r u = r).
  { unfold overwrite. destruct (refers_to (a_id r) (a_id u)) eqn:E; [|reflexivity].
    apply refers_to_true in E. destruct E as [E _].
    exfalso. apply (Hne u); [left; reflexivity | congruence]. }
  rewrite Hov. apply IH. intros v Hv. apply Hne. right. exact Hv.
Qed.

(** The row of the [n]-th saved instance ends as that instance. *)
Lemma overwrites_nth (saved : list Answer) :
  forall n u r,
    NoDup (map a_id saved) ->
    nth_error saved n = Some u ->
    a_id r = a_id u -> a_id u <> None ->
    overwrites saved r = u.
Proof.
  induction saved as [|v saved IH]; intros n u r Hnd Hn Hid Hsome.
  - destruct n; discriminate.
  - inversion Hnd as [|? ? Hnotin Hnd']; subst.
    unfold overwrites. simpl. fold (overwrites saved (overwrite r v)).
    destruct n as [|n]; simpl in Hn.
    + injection Hn as ->.
      assert (Hov : overwrite r u = u).
      { unfold overwrite.
        destruct (refers_to (a_id r) (a_id u)) eqn:E; [reflexivity|].
        assert (refers_to (a_id r) (a_id u) = true)
          by (apply refers_to_true; split; congruence).
        congruence. }
      rewrite Hov. apply overwrites_other.
      intros w Hw Heq. apply Hnotin. rewrite <- Heq. apply in_map. exact Hw.
    + assert (Hin : In u saved) by (eapply nth_error_In; eassumption).
      assert (Hov : overwrite r v = r).
      { unfold overwrite.
        destruct (refers_to (a_id r) (a_id v)) eqn:E; [|reflexivity].
        apply refers_to_true in E. destruct E as [E _].
        exfalso. apply Hnotin. rewrite <- E, Hid. apply in_map. exact Hin. }
      rewrite Hov. eapply IH; eassumption.
Qed.

(** On a keyed table, saved instances that come from rows of the table keep
    the key columns of every row. *)
Lemma overwrites_same_key (table saved : list Answer) :
  NoDup (map a_id table) ->
  (forall u, In u saved -> exists a, In a table /\ same_key u a) ->
  forall r r', In r table -> same_key r' r -> same_key (overwrites saved r') r.
Proof.
  intros Hnd. induction saved as [|u saved IH]; intros Hfrom r r' Hr Hkey.
  - exact Hkey.
  - unfold overwrites. simpl. fold (overwrites saved (overwrite r' u)).
    apply IH; [intros w Hw; apply Hfrom; right; exact Hw | exact Hr |].
    unfold overwrite. destruct (refers_to (a_id r') (a_id u)) eqn:E; [|exact Hkey].
    apply refers_to_true in E. destruct E as [E _].
    destruct (Hfrom u (or_introl eq_refl)) as [a [Ha Hua]].
    assert (a = r).
    { apply (keyed_row_unique a_id table); auto.
      destruct Hua as [Hua _]. destruct Hkey as [Hk _]. congruence. }
    subst a. exact Hua.
Qed.

Lemma renumbered_at (per_page : positive) (now : datetime) (l : list Answer) :
  forall i n a,
    nth_error l n = Some a ->
    nth_error (renumbered per_page now i l) n
    = Some (set_a_updated now
              (set_a_page ((i + Z.of_nat n) / Z.pos per_page + 1) a)).
Proof.
  induction l as [|x l IH]; intros i n a Hn.
  - destruct n; discriminate.
  - destruct n as [|n]; simpl in Hn.
    + injection Hn as ->. simpl. rewrite Z.add_0_r. reflexivity.
    + cbn [renumbered nth_error]. rewrite (IH (i + 1) n a Hn).
      replace (i + Z.of_nat (S n)) with (i + 1 + Z.of_nat n) by lia.
      reflexivity.
Qed.

(** C1: when the question exists, after [update_answer_pages] the [i]-th
    (from 0) of its answers that are no spam, in the order of [created], has
    page [i // ANSWERS_PER_PAGE + 1]; the rows of spam answers are not
    touched. *)
Theorem update_answer_pages_numbers_by_age :
  forall (ANSWERS_PER_PAGE : positive) (now : datetime) (question_id : Z)
         (db : DB) (question : Question),
    answers_keyed db ->
    Question_objects_get question_id db = Ok question ->
    raised (update_answer_pages ANSWERS_PER_PAGE now question_id db) = None
    /\ (forall i a,
          nth_error
            (filter not_spam
               (order_by created_asc
                  (question_answers question_id
                     (store (update_answer_pages ANSWERS_PER_PAGE now
                               question_id db)))))
            i = Some a ->
          a_page a = Z.of_nat i / Z.pos ANSWERS_PER_PAGE + 1)
    /\ filter a_is_spam
         (answers (store (update_answer_pages ANSWERS_PER_PAGE now
                            question_id db)))
       = filter a_is_spam (answers db).
Proof.
  intros P now question_id db question [Hnd Hsome] Hget.
  destruct (get_found _ _ _ Hget) as [_ Hqid].
  unfold update_answer_pages. rewrite Hget. rewrite Hqid.
  set (T := answers db) in *.
  set (F := question_answers question_id db).
  set (L := filter not_spam (order_by created_asc F)).
  set (U := renumbered P now 0 L).
  assert (HFT : forall a, In a F -> In a T).
  { intros a Ha. unfold F, question_answers in Ha.
    apply filter_In in Ha. tauto. }
  assert (HLT : forall a, In a L -> In a T).
  { intros a Ha. unfold L in Ha. apply filter_In in Ha.
    destruct Ha as [Ha _]. apply order_by_In in Ha. auto. }
  assert (HTsome : forall a, In a T -> a_id a <> None).
  { intros a Ha. rewrite Forall_forall in Hsome. auto. }
  assert (HLsome : Forall (fun a => a_id a <> None) L).
  { apply Forall_forall. intros a Ha. auto. }
  assert (HLnd : NoDup (map a_id L)).
  { unfold L. apply keyed_filter.
    eapply Permutation_NoDup.
    - apply Permutation_map. apply Permutation_sym. apply order_by_perm.
    - unfold F, question_answers. apply keyed_filter. exact Hnd. }
  assert (HUnd : NoDup (map a_id U)).
  { unfold U. rewrite renumbered_ids. exact HLnd. }
  assert (HUfrom : forall u, In u U -> exists a, In a T /\ same_key u a).
  { intros u Hu. destruct (renumbered_In _ _ _ _ _ Hu) as [a [Ha Hk]].
    exists a. auto. }
  assert (Hkey : forall r, In r T -> same_key (overwrites U r) r).
  { intros r Hr. apply (overwrites_same_key T U Hnd HUfrom r r Hr).
    repeat split. }
  pose proof (loop_answers P now L 0 question db HLsome) as Hloop.
  fold U in Hloop. fold T in Hloop.
  fold F. fold L.
  destruct (update_answer_pages_loop P now 0 L question db) as [q' db'].
  simpl in Hloop. cbn [raised store].
  split; [reflexivity|]. split.
  - intros i a Hnth.
    unfold question_answers in Hnth. rewrite Hloop in Hnth.
    rewrite filter_map_invariant in Hnth
      by (intros x Hx; destruct (Hkey x Hx) as [_ [Hq _]]; rewrite Hq; reflexivity).
    fold (question_answers question_id db) in Hnth. fold F in Hnth.
    rewrite order_by_map in Hnth
      by (intros x y Hx Hy; unfold created_asc;
          destruct (Hkey x (HFT x Hx)) as [_ [_ [Hcx _]]];
          destruct (Hkey y (HFT y Hy)) as [_ [_ [Hcy _]]];
          rewrite Hcx, Hcy; reflexivity).
    rewrite filter_map_invariant in Hnth
      by (intros x Hx; apply order_by_In in Hx; unfold not_spam;
          destruct (Hkey x (HFT x Hx)) as [_ [_ [_ Hs]]];
          rewrite Hs; reflexivity).
    rewrite nth_error_map in Hnth.
    change (option_map (overwrites U) (nth_error L i) = Some a) in Hnth.
    destruct (nth_error L i) as [l|] eqn:Hl; [|simpl in Hnth; discriminate].
    simpl in Hnth. injection Hnth as <-.
    pose proof (renumbered_at P now L 0 i l Hl) as Hu. fold U in Hu.
    assert (Hin : In l T) by (apply HLT; eapply nth_error_In; eassumption).
    rewrite (overwrites_nth U i _ l HUnd Hu).
    + reflexivity.
    + reflexivity.
    + simpl. auto.
  - rewrite Hloop.
    rewrite filter_map_invariant
      by (intros x Hx; destruct (Hkey x Hx) as [_ [_ [_ Hs]]]; exact Hs).
    rewrite <- (map_id (filter a_is_spam T)) at 2.
    apply map_ext_in. intros r Hr. apply filter_In in Hr.
    destruct Hr as [Hr Hspam].
    apply overwrites_other. intros u Hu Heq.
    destruct (renumbered_In _ _ _ _ _ Hu) as [a [Ha Hk]].
    assert (a = r).
    { apply (keyed_row_unique a_id T); auto.
      destruct Hk as [Hk _]. congruence. }
    subst a. unfold L in Ha. apply filter_In in Ha.
    destruct Ha as [_ Hns]. unfold not_spam in Hns. rewrite Hspam in Hns.
    discriminate.
Qed.

Lemma update_answer_pages_numbers_by_age_witness :
  nth_error
    (filter not_spam
       (order_by created_asc
          (question_answers 1
             (store (update_answer_pages 1 sample_now 1 newer_spam_db)))))
    1
  = Some (mkAnswer (Some 2) 1 22 (2 * HOUR) sample_now false 2)
  /\ a_page (mkAnswer (Some 2) 1 22 (2 * HOUR) sample_now false 2)
     = Z.of_nat 1 / Z.pos 1 + 1.
Proof.
  assert (Hkeyed : answers_keyed newer_spam_db).
  { split.
    - repeat constructor; simpl; intuition discriminate.
    - repeat constructor; discriminate. }
  assert (Hget : Question_objects_get 1 newer_spam_db
                 = Ok (mkQuestion 1 10 0 (4 * HOUR) false (Some 2) 2 None 0
                         None None))
    by reflexivity.
  assert (Hnth :
    nth_error
      (filter not_spam
         (order_by created_asc
            (question_answers 1
               (store (update_answer_pages 1 sample_now 1 newer_spam_db)))))
      1
    = Some (mkAnswer (Some 2) 1 22 (2 * HOUR) sample_now false 2))
    by (vm_compute; reflexivity).
  split; [exact Hnth|].
  exact (proj1 (proj2 (update_answer_pages_numbers_by_age 1 sample_now 1
                         newer_spam_db _ Hkeyed Hget)) 1%nat _ Hnth).
Defined.

(** The scenario of three answers at 20 per page: all on page 1; without
    the one marked as spam; without the one deleted. *)
Example paging_scenario_pages :
  paging_scenario
  = Ok [ [(Some 1, 1); (Some 2, 1); (Some 3, 1)];
         [(Some 1, 1); (Some 3, 1)];
         [(Some 3, 1)] ].
Proof. vm_compute. reflexivity. Qed.

(** The case of [test_update_page_task], and pages of three answers with a
    spam one among them: at 20 per page every answer is on page 1. *)
Example update_answer_pages_twenty_per_page :
  map a_page
    (answers (store (update_answer_pages 20 sample_now 1
                       (with_answers
                          [mkAnswer (Some 1) 1 21 HOUR HOUR false 4] sample_db))))
  = [1]
  /\ map a_page (answers (store (update_answer_pages 20 sample_now 1 newer_spam_db)))
     = [1; 1; 1].
Proof.
  vm_compute. auto.
Qed.

(** ** Reload of the visit counts: lists, dicts and chunks *)

Lemma mem_In (x : Z) (l : list Z) : mem x l = true <-> In x l.
Proof.
  unfold mem. rewrite existsb_exists. split.
  - intros [y [Hy Heq]]. apply Z.eqb_eq in Heq. subst. exact Hy.
  - intros Hx. exists x. split; [exact Hx | apply Z.eqb_refl].
Qed.

Lemma mem_not_In (x : Z) (l : list Z) : mem x l = false <-> ~ In x l.
Proof.
  rewrite <- mem_In. destruct (mem x l); split; congruence.
Qed.

Lemma mem_app (x : Z) (l l' : list Z) : mem x (l ++ l') = mem x l || mem x l'.
Proof. unfold mem. apply existsb_app. Qed.

Lemma distinct_NoDup (l : list Z) : distinct l = true <-> NoDup l.
Proof.
  induction l as [|x l IH]; simpl.
  - split; [constructor | reflexivity].
  - rewrite andb_true_iff, negb_true_iff, mem_not_In, IH, NoDup_cons_iff.
    reflexivity.
Qed.

(** The two parts of a list without repetition share no element. *)
Lemma apart (l l' : list Z) (x : Z) :
  NoDup (l ++ l') -> In x l -> In x l' -> False.
Proof.
  induction l as [|y l IH]; simpl; [contradiction|].
  rewrite NoDup_cons_iff. intros [Hy Hnd] [Heq | Hx] Hx'.
  - apply Hy. rewrite Heq. apply in_or_app. right. exact Hx'.
  - exact (IH Hnd Hx Hx').
Qed.

Lemma dict_set_fresh {V : Type} (d : dict V) (k : Z) (v : V) :
  ~ In k (map fst d) -> dict_set d k v = d ++ [(k, v)].
Proof.
  intros Hfresh. unfold dict_set.
  apply mem_not_In in Hfresh. rewrite Hfresh. reflexivity.
Qed.

Lemma dict_get_In {V : Type} (d : dict V) (k : Z) (v : V) :
  NoDup (map fst d) -> In (k, v) d -> dict_get d k = Some v.
Proof.
  unfold dict_get. induction d as [|[k' v'] d IH]; simpl; [contradiction|].
  rewrite NoDup_cons_iff. intros [Hfresh Hrest] [Heq | Hin].
  - injection Heq as -> ->. rewrite Z.eqb_refl. reflexivity.
  - destruct (k' =? k) eqn:E; [|auto].
    apply Z.eqb_eq in E. subst k'. contradict Hfresh.
    change k with (fst (k, v)). apply in_map. exact Hin.
Qed.

Lemma firstn_nil_inv {A : Type} (n : nat) (l : list A) :
  (0 < n)%nat -> firstn n l = [] -> l = [].
Proof.
  destruct n; [lia|]. destruct l; [reflexivity | discriminate].
Qed.

Lemma chunked_fuel_concat {A : Type} (n : nat) :
  (0 < n)%nat ->
  forall fuel (l : list A),
    (List.length l <= fuel)%nat -> List.concat (chunked_fuel fuel l n) = l.
Proof.
  intros Hn. induction fuel as [|fuel IH]; intros l Hlen.
  - destruct l; [reflexivity | simpl in Hlen; lia].
  - cbn [chunked_fuel]. destruct (firstn n l) as [|x t] eqn:E.
    + symmetry. exact (firstn_nil_inv n l Hn E).
    + cbn [List.concat]. rewrite IH.
      * rewrite <- E. apply firstn_skipn.
      * rewrite length_skipn.
        destruct l; [rewrite firstn_nil in E; discriminate|].
        cbn [List.length] in *. lia.
Qed.

Lemma chunked_concat {A : Type} (l : list A) (n : nat) :
  (0 < n)%nat -> List.concat (chunked l n) = l.
Proof.
  intros Hn. unfold chunked. apply chunked_fuel_concat; [exact Hn | lia].
Qed.

(** ** Reload of the visit counts: one batch *)

Lemma existing_question_ids_NoDup (batch : list Z) (db : DB) :
  questions_keyed db -> NoDup (existing_question_ids batch db).
Proof.
  intros Hkeyed. unfold existing_question_ids.
  eapply Permutation_NoDup.
  - apply Permutation_map. apply Permutation_sym. apply order_by_perm.
  - apply keyed_filter. exact Hkeyed.
Qed.

Lemma existing_question_ids_In (batch : list Z) (db : DB) (id : Z) :
  In id (existing_question_ids batch db)
  <-> In id batch /\ In id (map q_id (questions db)).
Proof.
  unfold existing_question_ids. rewrite !in_map_iff. split.
  - intros [q [Hid Hq]]. apply order_by_In in Hq. apply filter_In in Hq.
    destruct Hq as [Hq Hmem]. apply mem_In in Hmem. subst id.
    split; [exact Hmem | exists q; auto].
  - intros [Hb [q [Hid Hq]]]. exists q. split; [exact Hid|].
    apply order_by_In. apply filter_In. split; [exact Hq|].
    apply mem_In. rewrite Hid. exact Hb.
Qed.

Lemma instances_for_ok (d : dict VisitsInstance) (ids : list Z) :
  NoDup (map fst d) -> keyed_dict d ->
  (forall id, In id ids -> In id (map fst d)) ->
  exists instances,
    instances_for d ids = Ok instances
    /\ map vi_question_subquery instances = ids
    /\ (forall inst, In inst instances -> In (vi_question_subquery inst, inst) d).
Proof.
  intros Hnd Hkeyed. induction ids as [|id ids IH]; intros Hsub.
  - exists []. simpl. repeat split. intros inst [].
  - destruct IH as [insts [Hok [Hkeys Hin]]];
      [intros x Hx; apply Hsub; right; exact Hx|].
    destruct (proj1 (in_map_iff _ _ _) (Hsub id (or_introl eq_refl)))
      as [[k inst] [Hk Hentry]].
    simpl in Hk. subst k.
    assert (Hsubq : vi_question_subquery inst = id).
    { unfold keyed_dict in Hkeyed. rewrite Forall_forall in Hkeyed.
      exact (Hkeyed _ Hentry). }
    exists (inst :: insts). simpl.
    rewrite (dict_get_In d id inst Hnd Hentry). rewrite Hok. simpl.
    split; [reflexivity|]. split; [congruence|].
    intros x [<- | Hx]; [rewrite Hsubq; exact Hentry | auto].
Qed.

Lemma dict_get_entry {V : Type} (d : dict V) (k : Z) (v : V) :
  dict_get d k = Some v -> exists k', In (k', v) d.
Proof.
  unfold dict_get. destruct (find (fun kv => fst kv =? k) d) as [[k' v']|] eqn:E;
    [|discriminate].
  simpl. intros H. injection H as <-. exists k'.
  apply find_some in E. tauto.
Qed.

(** The instances taken from a dict whose counts fit the column fit it. *)
Lemma instances_for_fit (d : dict VisitsInstance) (ids : list Z) :
  counts_fit d ->
  forall instances,
    instances_for d ids = Ok instances ->
    forallb (fun i => fits_IntegerField (vi_visits i)) instances = true.
Proof.
  intros Hfit. induction ids as [|id ids IH]; intros instances; simpl.
  - intros H. injection H as <-. reflexivity.
  - destruct (dict_get d id) as [inst|] eqn:Hget; [|discriminate].
    destruct (instances_for d ids) as [insts|e]; [|discriminate].
    simpl. intros H. injection H as <-. simpl.
    rewrite (IH insts eq_refl), andb_true_r.
    destruct (dict_get_entry d id inst Hget) as [k Hin].
    unfold counts_fit in Hfit. rewrite Forall_forall in Hfit.
    exact (Hfit _ Hin).
Qed.

(** What a quiet batch inserts: one row per id of the batch that has a
    question, with the visits of its dict entry. *)
Lemma batch_rows_spec (d : dict VisitsInstance) (batch : list Z) (db : DB) :
  NoDup (map fst d) -> keyed_dict d ->
  (forall id, In id batch -> In id (map fst d)) ->
  exists instances,
    instances_for d (existing_question_ids batch db) = Ok instances
    /\ batch_rows d batch db = map visits_row instances
    /\ map v_question (batch_rows d batch db) = existing_question_ids batch db
    /\ map vi_question_subquery instances = existing_question_ids batch db
    /\ (forall v, In v (batch_rows d batch db) <->
          exists inst,
            In (v_question v, inst) d /\ In (v_question v) batch
            /\ In (v_question v) (map q_id (questions db))
            /\ v_visits v = vi_visits inst).
Proof.
  intros Hnd Hkeyed Hsub.
  destruct (instances_for_ok d (existing_question_ids batch db) Hnd Hkeyed)
    as [insts [Hok [Hkeys Hin]]].
  { intros id Hid. apply existing_question_ids_In in Hid. apply Hsub. tauto. }
  exists insts. unfold batch_rows. rewrite Hok.
  split; [reflexivity|]. split; [reflexivity|].
  split; [rewrite map_map; exact Hkeys|]. split; [exact Hkeys|].
  intros v. rewrite in_map_iff. split.
  - intros [inst [<- Hinst]]. exists inst. simpl.
    assert (Hid : In (vi_question_subquery inst) (existing_question_ids batch db))
      by (rewrite <- Hkeys; apply in_map; exact Hinst).
    apply existing_question_ids_In in Hid. destruct Hid as [Hb Hq].
    auto.
  - intros [inst [Hentry [Hb [Hq Hv]]]].
    assert (Hid : In (v_question v) (map vi_question_subquery insts)).
    { rewrite Hkeys. apply existing_question_ids_In. auto. }
    apply in_map_iff in Hid. destruct Hid as [inst' [Hk Hinst']].
    exists inst'. split; [|exact Hinst'].
    pose proof (Hin _ Hinst') as Hentry'. rewrite Hk in Hentry'.
    assert (Heq : (v_question v, inst') = (v_question v, inst)).
    { apply (keyed_row_unique fst d); auto. }
    injection Heq as ->.
    destruct v as [vq vv]. unfold visits_row. simpl in *. congruence.
Qed.

Lemma with_question_visits_same (db : DB) :
  with_question_visits (question_visits db) db = db.
Proof. destruct db; reflexivity. Qed.

Lemma create_batch_quiet (d : dict VisitsInstance) (batch : list Z) (db : DB) :
  NoDup (map fst d) -> keyed_dict d -> counts_fit d -> questions_keyed db ->
  (forall id, In id batch -> In id (map fst d)) ->
  (forall v, In v (question_visits db) -> ~ In (v_question v) batch) ->
  create_batch d batch (quiet db)
  = (Ok tt,
     quiet (with_question_visits
              (question_visits db ++ batch_rows d batch db) db)).
Proof.
  intros Hnd Hkeyed Hfit Hq Hsub Hclear.
  destruct (batch_rows_spec d batch db Hnd Hkeyed Hsub)
    as [insts [Hok [Hrows [_ [Hkeys _]]]]].
  pose proof (instances_for_fit d _ Hfit insts Hok) as Hrange.
  unfold create_batch, mbind, lift, quiet. cbn [w_db]. rewrite Hok.
  unfold interleave. cbn [w_races]. unfold bulk_create. cbn [w_db w_races w_external].
  rewrite Hrows.
  assert (Hpresent :
    forallb (fun i => mem (vi_question_subquery i) (map q_id (questions db)))
      insts = true).
  { apply forallb_forall. intros inst Hinst. apply mem_In.
    assert (Hid : In (vi_question_subquery inst) (existing_question_ids batch db))
      by (rewrite <- Hkeys; apply in_map; exact Hinst).
    apply existing_question_ids_In in Hid. tauto. }
  assert (Hfresh :
    forallb (fun k => negb (mem k (map v_question (question_visits db))))
      (map vi_question_subquery insts) = true).
  { apply forallb_forall. intros k Hk. rewrite Hkeys in Hk.
    apply existing_question_ids_In in Hk. destruct Hk as [Hb _].
    apply negb_true_iff. apply mem_not_In. intros Hin.
    apply in_map_iff in Hin. destruct Hin as [v [Hv Hin]].
    apply (Hclear v Hin). rewrite Hv. exact Hb. }
  assert (Hdistinct : distinct (map vi_question_subquery insts) = true).
  { apply distinct_NoDup. rewrite Hkeys.
    apply existing_question_ids_NoDup. exact Hq. }
  rewrite Hrange, Hpresent, Hfresh, Hdistinct. reflexivity.
Qed.

Lemma create_batch_with_retry_quiet (d : dict VisitsInstance) (batch : list Z)
    (db : DB) :
  NoDup (map fst d) -> keyed_dict d -> counts_fit d -> questions_keyed db ->
  (forall id, In id batch -> In id (map fst d)) ->
  (forall v, In v (question_visits db) -> ~ In (v_question v) batch) ->
  create_batch_with_retry d batch (quiet db)
  = (Ok tt,
     quiet (with_question_visits
              (question_visits db ++ batch_rows d batch db) db)).
Proof.
  intros Hnd Hkeyed Hfit Hq Hsub Hclear.
  unfold create_batch_with_retry, except_IntegrityError, atomic.
  rewrite (create_batch_quiet d batch db Hnd Hkeyed Hfit Hq Hsub Hclear).
  reflexivity.
Qed.

Lemma batch_rows_In_batch (d : dict VisitsInstance) (batch : list Z) (db : DB)
    (v : QuestionVisits) :
  NoDup (map fst d) -> keyed_dict d ->
  (forall id, In id batch -> In id (map fst d)) ->
  In v (batch_rows d batch db) -> In (v_question v) batch.
Proof.
  intros Hnd Hkeyed Hsub Hin.
  destruct (batch_rows_spec d batch db Hnd Hkeyed Hsub)
    as [insts [_ [_ [_ [_ Hmem]]]]].
  apply Hmem in Hin. destruct Hin as [inst [_ [Hb _]]]. exact Hb.
Qed.

Lemma create_batches_quiet (d : dict VisitsInstance) (batches : list (list Z)) :
  NoDup (map fst d) -> keyed_dict d -> counts_fit d ->
  forall db,
    questions_keyed db ->
    NoDup (List.concat batches) ->
    (forall id, In id (List.concat batches) -> In id (map fst d)) ->
    (forall v, In v (question_visits db) ->
               ~ In (v_question v) (List.concat batches)) ->
    create_batches d batches (quiet db)
    = (Ok tt,
       quiet (with_question_visits
                (question_visits db ++ batches_rows d batches db) db)).
Proof.
  intros Hnd Hkeyed Hfit.
  induction batches as [|batch rest IH]; intros db Hq Hnodup Hsub Hclear.
  - simpl. unfold ret. rewrite app_nil_r, with_question_visits_same.
    reflexivity.
  - cbn [List.concat] in *. cbn [create_batches]. unfold mbind.
    assert (Hsub1 : forall id, In id batch -> In id (map fst d))
      by (intros id Hid; apply Hsub; apply in_or_app; left; exact Hid).
    rewrite (create_batch_with_retry_quiet d batch db Hnd Hkeyed Hfit Hq Hsub1)
      by (intros v Hv Hin; apply (Hclear v Hv); apply in_or_app; left; exact Hin).
    set (db1 := with_question_visits
                  (question_visits db ++ batch_rows d batch db) db).
    rewrite (IH db1).
    + unfold db1. cbn [batches_rows flat_map]. simpl question_visits.
      rewrite <- app_assoc. reflexivity.
    + exact Hq.
    + apply NoDup_app_remove_l in Hnodup. exact Hnodup.
    + intros id Hid. apply Hsub. apply in_or_app. right. exact Hid.
    + intros v Hv Hin. unfold db1 in Hv. simpl in Hv.
      apply in_app_or in Hv. destruct Hv as [Hv | Hv].
      * apply (Hclear v Hv). apply in_or_app. right. exact Hin.
      * pose proof (batch_rows_In_batch d batch db v Hnd Hkeyed Hsub1 Hv) as Hb.
        exact (apart _ _ _ Hnodup Hb Hin).
Qed.

(** ** Reload of the visit counts: the loop *)

Lemma kept_all_rows (table : list QuestionVisits) :
  filter (fun v => negb (mem (v_question v) [])) table = table.
Proof.
  induction table as [|v table IH]; [reflexivity|].
  cbn [filter mem existsb negb]. f_equal. exact IH.
Qed.

Lemma kept_nil (table : list QuestionVisits) : kept [] table = table.
Proof.
  apply kept_all_rows.
Qed.

Lemma kept_In (keys : list Z) (table : list QuestionVisits) (v : QuestionVisits) :
  In v (kept keys table) <-> In v table /\ ~ In (v_question v) keys.
Proof.
  unfold kept. rewrite filter_In, negb_true_iff, mem_not_In. reflexivity.
Qed.

Lemma kept_kept (keys keys' : list Z) (table : list QuestionVisits) :
  kept keys' (kept keys table) = kept (keys ++ keys') table.
Proof.
  unfold kept. induction table as [|v table IH]; simpl; [reflexivity|].
  rewrite mem_app.
  destruct (mem (v_question v) keys); simpl; [exact IH|].
  destruct (mem (v_question v) keys'); simpl; congruence.
Qed.

Lemma kept_all (keys : list Z) (table : list QuestionVisits) :
  (forall v, In v table -> ~ In (v_question v) keys) ->
  kept keys table = table.
Proof.
  unfold kept. induction table as [|v table IH]; intros Hout; simpl;
    [reflexivity|].
  assert (Hv : mem (v_question v) keys = false)
    by (apply mem_not_In; apply Hout; left; reflexivity).
  rewrite Hv. simpl. rewrite IH; [reflexivity|].
  intros w Hw. apply Hout. right. exact Hw.
Qed.

Lemma kept_none (keys : list Z) (table : list QuestionVisits) :
  (forall v, In v table -> In (v_question v) keys) ->
  kept keys table = [].
Proof.
  unfold kept. induction table as [|v table IH]; intros Hin; simpl;
    [reflexivity|].
  assert (Hv : mem (v_question v) keys = true)
    by (apply mem_In; apply Hin; left; reflexivity).
  rewrite Hv. simpl. apply IH. intros w Hw. apply Hin. right. exact Hw.
Qed.

Lemma batches_rows_In_batches (d : dict VisitsInstance)
    (batches : list (list Z)) (db : DB) (v : QuestionVisits) :
  NoDup (map fst d) -> keyed_dict d ->
  (forall id, In id (List.concat batches) -> In id (map fst d)) ->
  In v (batches_rows d batches db) -> In (v_question v) (List.concat batches).
Proof.
  intros Hnd Hkeyed Hsub Hin. unfold batches_rows in Hin.
  apply in_flat_map in Hin. destruct Hin as [batch [Hbatch Hv]].
  apply in_concat. exists batch. split; [exact Hbatch|].
  apply (batch_rows_In_batch d batch db v Hnd Hkeyed); [|exact Hv].
  intros id Hid. apply Hsub. apply in_concat. exists batch. auto.
Qed.

Lemma loop_rows_with_visits (total_count : Z) (items : list (Z * Z)) :
  forall i d table db,
    loop_rows total_count i d items (with_question_visits table db)
    = loop_rows total_count i d items db.
Proof.
  induction items as [|[k visits] rest IH]; intros i d table db;
    [reflexivity|].
  cbn [loop_rows]. rewrite !IH. reflexivity.
Qed.

Lemma keyed_dict_snoc (d : dict VisitsInstance) (k visits : Z) :
  keyed_dict d -> keyed_dict (d ++ [(k, mkVisitsInstance k visits)]).
Proof.
  intros Hd. unfold keyed_dict. apply Forall_app. split; [exact Hd|].
  constructor; [reflexivity | constructor].
Qed.

Lemma keys_snoc {V : Type} (d : dict V) (k : Z) (v : V) (rest : list Z) :
  map fst (d ++ [(k, v)]) ++ rest = map fst d ++ k :: rest.
Proof. rewrite map_app, <- app_assoc. reflexivity. Qed.

(** A quiet run of the loop succeeds: the rows of the questions it has
    pageviews for are replaced by [loop_rows], the other rows stay. *)
Lemma reload_loop_quiet (total_count : Z) (items : list (Z * Z)) :
  forall i d db,
    NoDup (map fst d ++ map fst items) ->
    keyed_dict d -> counts_fit d -> pageviews_fit items -> questions_keyed db ->
    total_count = i + Z.of_nat (List.length items) - 1 ->
    (items = [] -> d = []) ->
    reload_loop total_count i d items (quiet db)
    = (Ok tt,
       quiet (with_question_visits
                (kept (map fst d ++ map fst items) (question_visits db)
                 ++ loop_rows total_count i d items db) db)).
Proof.
  induction items as [|[k visits] rest IH];
    intros i d db Hnd Hkeyed Hfit Hviews Hq Htotal Hflush.
  - rewrite (Hflush eq_refl). simpl. unfold ret.
    rewrite kept_nil, app_nil_r, with_question_visits_same. reflexivity.
  - cbn [reload_loop loop_rows].
    apply Forall_cons_iff in Hviews. destruct Hviews as [Hvisits Hviews].
    cbn [snd] in Hvisits.
    assert (Hfresh : ~ In k (map fst d)).
    { simpl in Hnd. apply NoDup_remove_2 in Hnd. contradict Hnd.
      apply in_or_app. left. exact Hnd. }
    rewrite (dict_set_fresh d k _ Hfresh).
    set (d' := d ++ [(k, mkVisitsInstance k visits)]).
    assert (Hkeys : map fst d' ++ map fst rest
                    = map fst d ++ map fst ((k, visits) :: rest))
      by (unfold d'; apply keys_snoc).
    assert (Hnd' : NoDup (map fst d' ++ map fst rest))
      by (rewrite Hkeys; exact Hnd).
    assert (Hkeyed' : keyed_dict d') by (apply keyed_dict_snoc; exact Hkeyed).
    assert (Hfit' : counts_fit d').
    { unfold d', counts_fit. apply Forall_app. split; [exact Hfit|].
      constructor; [exact Hvisits | constructor]. }
    cbn [List.length] in Htotal.
    destruct (negb (i mod 30000 =? 0) && negb (i =? total_count)) eqn:Hcont.
    + rewrite (IH (i + 1) d' db Hnd' Hkeyed' Hfit' Hviews Hq); [| lia |].
      * rewrite Hkeys. reflexivity.
      * intros ->. apply andb_true_iff in Hcont. destruct Hcont as [_ Hne].
        apply negb_true_iff in Hne. apply Z.eqb_neq in Hne.
        simpl in Htotal. lia.
    + unfold mbind. unfold delete_stale at 1. cbn [quiet w_db w_races w_external].
      fold (kept (map fst d') (question_visits db)).
      set (db1 := with_question_visits (kept (map fst d') (question_visits db)) db).
      fold (quiet db1).
      assert (Hd' : NoDup (map fst d'))
        by (apply NoDup_app_remove_r in Hnd'; exact Hnd').
      assert (Hchunks : List.concat (chunked (map fst d') 1000) = map fst d')
        by (apply chunked_concat; lia).
      rewrite (create_batches_quiet d' _ Hd' Hkeyed' Hfit' db1 Hq).
      * set (rows := batches_rows d' (chunked (map fst d') 1000) db1).
        set (db2 := with_question_visits (question_visits db1 ++ rows) db1).
        rewrite (IH (i + 1) [] db2);
          [| | constructor | constructor | exact Hviews | exact Hq | lia
           | reflexivity].
        -- unfold db2, db1. cbn [question_visits with_question_visits].
           rewrite !loop_rows_with_visits.
           cbn [app map]. unfold kept at 1. rewrite filter_app.
           fold (kept (map fst rest) (kept (map fst d') (question_visits db))).
           fold (kept (map fst rest) rows).
           rewrite kept_kept, Hkeys.
           rewrite (kept_all (map fst rest) rows).
           ++ rewrite <- app_assoc. reflexivity.
           ++ intros v Hv Hin.
              assert (Hv' : In (v_question v) (map fst d')).
              { rewrite <- Hchunks.
                apply (batches_rows_In_batches d' _ db1 v Hd' Hkeyed');
                  [|exact Hv].
                intros id Hid. rewrite Hchunks in Hid. exact Hid. }
              exact (apart _ _ _ Hnd' Hv' Hin).
        -- simpl. apply NoDup_app_remove_l in Hnd'. exact Hnd'.
      * rewrite Hchunks. exact Hd'.
      * intros id Hid. rewrite Hchunks in Hid. exact Hid.
      * intros v Hv Hin. rewrite Hchunks in Hin. unfold db1 in Hv.
        cbn [question_visits with_question_visits] in Hv.
        apply kept_In in Hv. tauto.
Qed.

Lemma batches_rows_In (d : dict VisitsInstance) (batches : list (list Z))
    (db : DB) (v : QuestionVisits) :
  NoDup (map fst d) -> keyed_dict d ->
  (forall id, In id (List.concat batches) -> In id (map fst d)) ->
  In v (batches_rows d batches db) <->
  exists inst,
    In (v_question v, inst) d /\ In (v_question v) (List.concat batches)
    /\ In (v_question v) (map q_id (questions db))
    /\ v_visits v = vi_visits inst.
Proof.
  intros Hnd Hkeyed Hsub.
  assert (Hsubb : forall batch, In batch batches ->
            forall id, In id batch -> In id (map fst d)).
  { intros batch Hb id Hid. apply Hsub. apply in_concat. exists batch. auto. }
  unfold batches_rows. rewrite in_flat_map. split.
  - intros [batch [Hb Hv]].
    destruct (batch_rows_spec d batch db Hnd Hkeyed (Hsubb batch Hb))
      as [_ [_ [_ [_ [_ Hmem]]]]].
    apply Hmem in Hv. destruct Hv as [inst [H1 [H2 [H3 H4]]]].
    exists inst. repeat split; auto. apply in_concat. exists batch. auto.
  - intros [inst [H1 [H2 [H3 H4]]]].
    apply in_concat in H2. destruct H2 as [batch [Hb Hin]].
    exists batch. split; [exact Hb|].
    destruct (batch_rows_spec d batch db Hnd Hkeyed (Hsubb batch Hb))
      as [_ [_ [_ [_ [_ Hmem]]]]].
    apply Hmem. exists inst. auto.
Qed.

Lemma batches_rows_NoDup (d : dict VisitsInstance) (batches : list (list Z))
    (db : DB) :
  NoDup (map fst d) -> keyed_dict d -> questions_keyed db ->
  NoDup (List.concat batches) ->
  (forall id, In id (List.concat batches) -> In id (map fst d)) ->
  NoDup (map v_question (batches_rows d batches db)).
Proof.
  intros Hnd Hkeyed Hq.
  induction batches as [|batch rest IH]; intros Hnodup Hsub; [constructor|].
  cbn [List.concat] in *. cbn [batches_rows flat_map]. rewrite map_app.
  assert (Hsub1 : forall id, In id batch -> In id (map fst d))
    by (intros id Hid; apply Hsub; apply in_or_app; left; exact Hid).
  assert (Hsub2 : forall id, In id (List.concat rest) -> In id (map fst d))
    by (intros id Hid; apply Hsub; apply in_or_app; right; exact Hid).
  destruct (batch_rows_spec d batch db Hnd Hkeyed Hsub1)
    as [_ [_ [_ [Hvq _]]]].
  apply NoDup_app.
  - rewrite Hvq. apply existing_question_ids_NoDup. exact Hq.
  - apply IH; [eapply NoDup_app_remove_l; exact Hnodup | exact Hsub2].
  - intros x Hx Hx'. rewrite Hvq in Hx.
    apply existing_question_ids_In in Hx. destruct Hx as [Hx _].
    apply in_map_iff in Hx'. destruct Hx' as [v [<- Hv]].
    apply (batches_rows_In_batches d rest db v Hnd Hkeyed Hsub2) in Hv.
    exact (apart _ _ _ Hnodup Hx Hv).
Qed.

(** The rows that a quiet run of the loop inserts: at most one per question,
    and exactly those of the dict entries and items whose question exists. *)
Lemma loop_rows_spec (total_count : Z) (items : list (Z * Z)) (db : DB) :
  questions_keyed db ->
  forall i d,
    NoDup (map fst d ++ map fst items) ->
    keyed_dict d ->
    total_count = i + Z.of_nat (List.length items) - 1 ->
    (items = [] -> d = []) ->
    NoDup (map v_question (loop_rows total_count i d items db))
    /\ (forall v,
          In v (loop_rows total_count i d items db) <->
          exists inst,
            In (v_question v, inst) (d ++ map entry_of items)
            /\ In (v_question v) (map q_id (questions db))
            /\ v_visits v = vi_visits inst).
Proof.
  intros Hq. induction items as [|[k visits] rest IH];
    intros i d Hnd Hkeyed Htotal Hflush.
  - rewrite (Hflush eq_refl). simpl. split; [constructor|].
    intros v. split; [contradiction | intros [inst [[] _]]].
  - cbn [loop_rows].
    assert (Hfresh : ~ In k (map fst d)).
    { simpl in Hnd. apply NoDup_remove_2 in Hnd. contradict Hnd.
      apply in_or_app. left. exact Hnd. }
    rewrite (dict_set_fresh d k _ Hfresh).
    set (d' := d ++ [(k, mkVisitsInstance k visits)]).
    assert (Hkeys : map fst d' ++ map fst rest
                    = map fst d ++ map fst ((k, visits) :: rest))
      by (unfold d'; apply keys_snoc).
    assert (Hentries : d' ++ map entry_of rest
                       = d ++ map entry_of ((k, visits) :: rest))
      by (unfold d'; rewrite <- app_assoc; reflexivity).
    assert (Hnd' : NoDup (map fst d' ++ map fst rest))
      by (rewrite Hkeys; exact Hnd).
    assert (Hkeyed' : keyed_dict d') by (apply keyed_dict_snoc; exact Hkeyed).
    cbn [List.length] in Htotal.
    destruct (negb (i mod 30000 =? 0) && negb (i =? total_count)) eqn:Hcont.
    + rewrite <- Hentries. apply (IH (i + 1) d' Hnd' Hkeyed'); [lia|].
      intros ->. apply andb_true_iff in Hcont. destruct Hcont as [_ Hne].
      apply negb_true_iff in Hne. apply Z.eqb_neq in Hne.
      simpl in Htotal. lia.
    + assert (Hd' : NoDup (map fst d'))
        by (apply NoDup_app_remove_r in Hnd'; exact Hnd').
      assert (Hchunks : List.concat (chunked (map fst d') 1000) = map fst d')
        by (apply chunked_concat; lia).
      assert (Hsub : forall id,
                In id (List.concat (chunked (map fst d') 1000)) ->
                In id (map fst d'))
        by (intros id Hid; rewrite Hchunks in Hid; exact Hid).
      destruct (IH (i + 1) []) as [IHnd IHin];
        [ simpl; apply NoDup_app_remove_l in Hnd'; exact Hnd'
        | constructor | lia | reflexivity | ].
      split.
      * rewrite map_app. apply NoDup_app.
        -- apply batches_rows_NoDup; auto. rewrite Hchunks. exact Hd'.
        -- exact IHnd.
        -- intros x Hx Hx'.
           apply in_map_iff in Hx. destruct Hx as [v [<- Hv]].
           apply (batches_rows_In_batches d' _ db v Hd' Hkeyed' Hsub) in Hv.
           rewrite Hchunks in Hv.
           apply in_map_iff in Hx'. destruct Hx' as [v' [Heq Hv']].
           apply IHin in Hv'. destruct Hv' as [inst [Hentry _]].
           simpl in Hentry. apply in_map_iff in Hentry.
           destruct Hentry as [item [Hitem Hin]].
           apply (apart _ _ (v_question v) Hnd' Hv).
           rewrite <- Heq. injection Hitem as Hk _. rewrite <- Hk.
           apply in_map. exact Hin.
      * intros v. rewrite in_app_iff.
        rewrite (batches_rows_In d' _ db v Hd' Hkeyed' Hsub).
        rewrite IHin. rewrite <- Hentries. split.
        -- intros [[inst [H1 [_ [H3 H4]]]] | [inst [H1 [H3 H4]]]];
             exists inst; (split; [apply in_or_app; auto | auto]).
        -- intros [inst [H1 [H3 H4]]]. apply in_app_or in H1.
           destruct H1 as [H1 | H1]; [left | right]; exists inst;
             repeat split; auto.
           rewrite Hchunks. change (v_question v) with (fst (v_question v, inst)).
           apply in_map. exact H1.
Qed.

Lemma kept_idem (keys : list Z) (table : list QuestionVisits) :
  kept keys (kept keys table) = kept keys table.
Proof.
  apply kept_all. intros v Hv. apply kept_In in Hv. tauto.
Qed.

Lemma reload_quiet (pageviews : list (Z * Z)) (db : DB) :
  NoDup (map fst pageviews) -> pageviews_fit pageviews -> questions_keyed db ->
  reload_from_analytics pageviews (quiet db)
  = (Ok tt,
     quiet (with_question_visits
              (kept (map fst pageviews) (question_visits db)
               ++ loop_rows (count pageviews) 1 [] pageviews db) db)).
Proof.
  intros Hnd Hviews Hq. unfold reload_from_analytics, atomic.
  rewrite (reload_loop_quiet (count pageviews) pageviews 1 [] db);
    [reflexivity | exact Hnd | constructor | constructor | exact Hviews
    | exact Hq | unfold count; lia | reflexivity].
Qed.

(** C2: without interference and with counts that fit the [visits] column, a
    reload succeeds; run again on the same pageviews it leaves the store
    exactly as the first run left it.  The rows of questions without
    pageviews stay; for the questions with pageviews the table holds, up to
    order, one row per item whose question exists, with the visits of the
    item, and so no row of an id without a question. *)
Theorem reload_from_analytics_twice :
  forall (pageviews : list (Z * Z)) (db : DB),
    NoDup (map fst pageviews) ->
    pageviews_fit pageviews ->
    questions_keyed db ->
    exists db1 rows,
      reload_from_analytics pageviews (quiet db) = (Ok tt, quiet db1)
      /\ reload_from_analytics pageviews (quiet db1) = (Ok tt, quiet db1)
      /\ questions db1 = questions db
      /\ question_visits db1
         = kept (map fst pageviews) (question_visits db) ++ rows
      /\ Permutation rows
           (map row_of
              (filter (fun item => mem (fst item) (map q_id (questions db)))
                 pageviews))
      /\ (forall v,
            In v (question_visits db1) ->
            In (v_question v) (map fst pageviews) ->
            In (v_question v) (map q_id (questions db1))).
Proof.
  intros pageviews db Hnd Hviews Hq.
  set (rows := loop_rows (count pageviews) 1 [] pageviews db).
  set (db1 := with_question_visits
                (kept (map fst pageviews) (question_visits db) ++ rows) db).
  destruct (loop_rows_spec (count pageviews) pageviews db Hq 1 [])
    as [Hrows_nd Hrows_in];
    [exact Hnd | constructor | unfold count; lia | reflexivity |].
  fold rows in Hrows_nd, Hrows_in. simpl in Hrows_in.
  assert (Hrows_keys : forall v, In v rows -> In (v_question v) (map fst pageviews)).
  { intros v Hv. apply Hrows_in in Hv. destruct Hv as [inst [Hentry _]].
    apply in_map_iff in Hentry. destruct Hentry as [item [Hitem Hin]].
    injection Hitem as Hk _. rewrite <- Hk. apply in_map. exact Hin. }
  exists db1, rows. split; [|split; [|split; [|split; [|split]]]].
  - apply reload_quiet; assumption.
  - rewrite (reload_quiet pageviews db1 Hnd Hviews Hq). f_equal. f_equal.
    unfold db1 at 1 2. cbn [question_visits with_question_visits].
    rewrite loop_rows_with_visits. fold rows.
    unfold kept at 1. rewrite filter_app.
    fold (kept (map fst pageviews) (kept (map fst pageviews) (question_visits db))).
    fold (kept (map fst pageviews) rows).
    rewrite kept_idem, (kept_none _ rows Hrows_keys), app_nil_r.
    reflexivity.
  - reflexivity.
  - reflexivity.
  - apply NoDup_Permutation.
    + eapply NoDup_map_inv. exact Hrows_nd.
    + apply (NoDup_map_inv v_question). rewrite map_map. simpl.
      apply keyed_filter. exact Hnd.
    + intros v. rewrite Hrows_in. split.
      * intros [inst [Hentry [Hex Hv]]]. apply in_map_iff.
        apply in_map_iff in Hentry. destruct Hentry as [item [Hitem Hin]].
        injection Hitem as Hk Hinst. exists item. split.
        -- destruct v as [vq vv]. unfold row_of. simpl in *.
           rewrite <- Hinst in Hv. simpl in Hv. congruence.
        -- apply filter_In. split; [exact Hin|]. apply mem_In.
           rewrite Hk. exact Hex.
      * intros Hv. apply in_map_iff in Hv.
        destruct Hv as [item [<- Hin]]. apply filter_In in Hin.
        destruct Hin as [Hin Hex]. apply mem_In in Hex.
        exists (mkVisitsInstance (fst item) (snd item)). simpl.
        split; [|auto]. apply in_map_iff. exists item. auto.
  - intros v Hv Hkey. unfold db1 in Hv.
    cbn [question_visits with_question_visits] in Hv.
    apply in_app_or in Hv. destruct Hv as [Hv | Hv].
    + apply kept_In in Hv. tauto.
    + apply Hrows_in in Hv. destruct Hv as [inst [_ [Hex _]]]. exact Hex.
Qed.

Lemma reload_from_analytics_twice_witness :
  exists db1 rows,
    reload_from_analytics test_pageviews (quiet visits_db) = (Ok tt, quiet db1)
    /\ reload_from_analytics test_pageviews (quiet db1) = (Ok tt, quiet db1)
    /\ questions db1 = questions visits_db
    /\ question_visits db1
       = kept (map fst test_pageviews) (question_visits visits_db) ++ rows
    /\ Permutation rows
         (map row_of
            (filter
               (fun item => mem (fst item) (map q_id (questions visits_db)))
               test_pageviews))
    /\ (forall v,
          In v (question_visits db1) ->
          In (v_question v) (map fst test_pageviews) ->
          In (v_question v) (map q_id (questions db1))).
Proof.
  apply (reload_from_analytics_twice test_pageviews visits_db).
  - apply distinct_NoDup. reflexivity.
  - repeat constructor.
  - apply distinct_NoDup. reflexivity.
Defined.

(** The run of [test_visit_count_from_analytics] on [visits_db]: the stale
    row of question 1 is replaced, the id without a question gets no row. *)
Example reload_test_pageviews :
  reload_from_analytics test_pageviews (quiet visits_db)
  = (Ok tt,
     quiet (with_question_visits
              [mkQuestionVisits 9 1; mkQuestionVisits 1 42;
               mkQuestionVisits 2 27; mkQuestionVisits 3 1337] visits_db)).
Proof. vm_compute. reflexivity. Qed.

(** ** Reload of the visit counts: interference *)

Lemma delete_answer_rows_visits (l : list Answer) (db : DB) :
  question_visits
    (fold_right
       (fun a d => match a_id a with
                   | Some i => delete_answer_row i d
                   | None => d
                   end) db l)
  = question_visits db.
Proof.
  induction l as [|a l IH]; simpl; [reflexivity|].
  destruct (a_id a); [|exact IH]. simpl. exact IH.
Qed.

Lemma filter_twice {A : Type} (p q : A -> bool) (l : list A) :
  filter p (filter q l) = filter (fun x => q x && p x) l.
Proof.
  induction l as [|x l IH]; simpl; [reflexivity|].
  destruct (q x); simpl; [|exact IH].
  destruct (p x); congruence.
Qed.

Lemma kept_cons (id : Z) (ids : list Z) (table : list QuestionVisits) :
  filter (fun v => negb (v_question v =? id)) (kept ids table)
  = kept (id :: ids) table.
Proof.
  unfold kept. rewrite filter_twice. apply filter_ext. intros v.
  unfold mem. simpl.
  destruct (existsb (Z.eqb (v_question v)) ids), (v_question v =? id);
    reflexivity.
Qed.

(** Of the visits, deletions by other sessions remove the rows of the
    deleted questions and nothing else. *)
Lemma concurrent_delete_visits (ids : list Z) (db : DB) :
  question_visits (concurrent_delete ids db) = kept ids (question_visits db).
Proof.
  induction ids as [|id ids IH]; simpl.
  - symmetry. apply kept_nil.
  - rewrite delete_answer_rows_visits. rewrite IH. apply kept_cons.
Qed.

(** An attempt lets at most one scheduled interference through. *)
Lemma create_batch_races (d : dict VisitsInstance) (batch : list Z)
    (w w' : world) (r : result unit) :
  create_batch d batch w = (r, w') ->
  w_races w' = w_races w \/ w_races w' = tl (w_races w).
Proof.
  unfold create_batch, mbind, lift.
  destruct (instances_for d (existing_question_ids batch (w_db w)))
    as [insts|e].
  - unfold interleave. destruct (w_races w) as [|ids rest] eqn:Hr.
    + unfold bulk_create.
      destruct (negb _); [|destruct (_ && _)];
        intros H; injection H as _ <-; left; simpl; auto.
    + unfold bulk_create. cbn [w_db w_races w_external].
      destruct (negb _); [|destruct (_ && _)];
        intros H; injection H as _ <-; right; reflexivity.
  - intros H. injection H as _ <-. left. reflexivity.
Qed.

(** A sub-batch that fails after the ones before it were created ends the
    run of the sub-batches with its error. *)
Lemma create_batches_stop (d : dict VisitsInstance) (batch : list Z)
    (rest : list (list Z)) (e : exn) :
  forall prefix w w1 w',
    create_batches d prefix w = (Ok tt, w1) ->
    create_batch_with_retry d batch w1 = (Raise e, w') ->
    create_batches d (prefix ++ batch :: rest) w = (Raise e, w').
Proof.
  induction prefix as [|b prefix IH]; intros w w1 w' Hdone Hfail.
  - simpl in Hdone. unfold ret in Hdone. injection Hdone as <-.
    cbn [app create_batches]. unfold mbind. rewrite Hfail. reflexivity.
  - cbn [app create_batches] in *. unfold mbind in *.
    destruct (create_batch_with_retry d b w) as [[[]|e0] w0]; [|discriminate].
    exact (IH w0 w1 w' Hdone Hfail).
Qed.

(** A run of sub-batches that fails where the loop has got to ends the loop
    with its error. *)
Lemma flush_at_stop (total_count : Z) (e : exn) (w' : world) :
  forall i d items w d_f w_f,
    flush_at total_count i d items w d_f w_f ->
    create_batches d_f (chunked (map fst d_f) 1000) w_f = (Raise e, w') ->
    reload_loop total_count i d items w = (Raise e, w').
Proof.
  intros i d items w d_f w_f Hat.
  induction Hat as [i d k visits rest w Hcond
                   |i d k visits rest w d_f w_f Hcond Hat IH
                   |i d k visits rest w w1 d_f w_f Hcond Hdone Hat IH];
    intros Hfail; cbn [reload_loop]; rewrite Hcond.
  - unfold mbind. unfold delete_stale at 1.
    unfold delete_stale in Hfail. cbn [snd] in Hfail.
    rewrite Hfail. reflexivity.
  - exact (IH Hfail).
  - unfold mbind. unfold delete_stale at 1.
    unfold delete_stale in Hdone. cbn [snd] in Hdone.
    rewrite Hdone. exact (IH Hfail).
Qed.

(** C3: a sub-batch whose insert fails with [IntegrityError] inside its
    savepoint is attempted once more, outside any handler, and the outcome
    of that attempt is the outcome of the sub-batch, so that a sub-batch is
    attempted at most twice; a sub-batch that fails ends the run of
    sub-batches with its error; a reload that raises leaves the store as
    it was when it started, less what other sessions deleted meanwhile: of
    the visits, none of its own deletes or inserts remain; and when the
    loop has got to a sub-batch whose first attempt fails with
    [IntegrityError] and whose second attempt fails too, the reload raises
    the error of the second attempt and leaves the store so. *)
Theorem reload_retries_once_then_aborts :
  (forall d batch w w1,
     atomic (create_batch d batch) w = (Raise IntegrityError, w1) ->
     create_batch_with_retry d batch w = create_batch d batch w1)
  /\ (forall d batch w r w',
        create_batch_with_retry d batch w = (r, w') ->
        (List.length (w_races w) <= List.length (w_races w') + 2)%nat)
  /\ (forall d batch rest w e w',
        create_batch_with_retry d batch w = (Raise e, w') ->
        create_batches d (batch :: rest) w = (Raise e, w'))
  /\ (forall pageviews w e w',
        reload_from_analytics pageviews w = (Raise e, w') ->
        w_db w' = concurrent_delete (w_external w') (w_db w)
        /\ question_visits (w_db w')
           = kept (w_external w') (question_visits (w_db w)))
  /\ (forall pageviews w d w_f prefix batch rest w1 w2 e w3,
        flush_at (count pageviews) 1 [] pageviews w d w_f ->
        chunked (map fst d) 1000 = prefix ++ batch :: rest ->
        create_batches d prefix w_f = (Ok tt, w1) ->
        atomic (create_batch d batch) w1 = (Raise IntegrityError, w2) ->
        create_batch d batch w2 = (Raise e, w3) ->
        reload_from_analytics pageviews w
        = (Raise e,
           mkWorld (concurrent_delete (w_external w3) (w_db w))
             (w_races w3) (w_external w3))
        /\ question_visits (concurrent_delete (w_external w3) (w_db w))
           = kept (w_external w3) (question_visits (w_db w))).
Proof.
  split; [|split; [|split; [|split]]].
  - intros d batch w w1 Hfirst.
    unfold create_batch_with_retry, except_IntegrityError.
    rewrite Hfirst. reflexivity.
  - intros d batch w r w'.
    unfold create_batch_with_retry, except_IntegrityError, atomic.
    destruct (create_batch d batch w) as [r1 w1] eqn:H1.
    apply create_batch_races in H1.
    assert (Hone : (List.length (w_races w) <= List.length (w_races w1) + 1)%nat).
    { destruct H1 as [-> | ->]; [lia|].
      destruct (w_races w); simpl; lia. }
    destruct r1 as [[]|e1].
    + intros H. injection H as _ <-. lia.
    + cbn [w_races] in *.
      destruct e1; try (intros H; injection H as _ <-; simpl; lia).
      destruct (create_batch d batch _) as [r2 w2] eqn:H2.
      apply create_batch_races in H2. cbn [w_races] in H2.
      intros H. injection H as _ <-.
      destruct H2 as [-> | ->]; [lia|].
      destruct (w_races w1); simpl in *; lia.
  - intros d batch rest w e w' Hfail.
    cbn [create_batches]. unfold mbind. rewrite Hfail. reflexivity.
  - intros pageviews w e w' Hrun.
    unfold reload_from_analytics, atomic in Hrun.
    destruct (reload_loop (count pageviews) 1 [] pageviews w)
      as [[[]|e0] w0]; [discriminate|].
    injection Hrun as _ <-. cbn [w_db w_external].
    split; [reflexivity | apply concurrent_delete_visits].
  - intros pageviews w d w_f prefix batch rest w1 w2 e w3
      Hat Hchunks Hdone Hfirst Hsecond.
    split; [|apply concurrent_delete_visits].
    assert (Hbatch : create_batch_with_retry d batch w1 = (Raise e, w3)).
    { unfold create_batch_with_retry, except_IntegrityError.
      rewrite Hfirst. exact Hsecond. }
    pose proof (create_batches_stop d batch rest e prefix w_f w1 w3
                  Hdone Hbatch) as Hstop.
    rewrite <- Hchunks in Hstop.
    pose proof (flush_at_stop _ e w3 _ _ _ _ _ _ Hat Hstop) as Hloop.
    unfold reload_from_analytics, atomic. rewrite Hloop. reflexivity.
Qed.

(** Questions 2 and 3 are deleted by other sessions, one during each attempt
    of the only sub-batch: the reload raises and the visits are those of
    before. *)
Lemma reload_retries_once_then_aborts_witness :
  create_batch_with_retry test_dict test_batch
    (snd (delete_stale test_batch (mkWorld visits_db [[2]; [3]] [])))
  = (Raise IntegrityError,
     mkWorld
       (with_question_visits [mkQuestionVisits 9 1]
          (concurrent_delete [2; 3] visits_db)) [] [2; 3])
  /\ create_batches test_dict [test_batch]
       (snd (delete_stale test_batch (mkWorld visits_db [[2]; [3]] [])))
     = (Raise IntegrityError,
        mkWorld
          (with_question_visits [mkQuestionVisits 9 1]
             (concurrent_delete [2; 3] visits_db)) [] [2; 3])
  /\ reload_from_analytics test_pageviews (mkWorld visits_db [[2]; [3]] [])
     = (Raise IntegrityError,
        mkWorld (concurrent_delete [2; 3] visits_db) [] [2; 3])
  /\ question_visits (concurrent_delete [2; 3] visits_db)
     = kept [2; 3] (question_visits visits_db).
Proof.
  destruct reload_retries_once_then_aborts
    as [Hretry [_ [Hstop [Hundo Hend]]]].
  assert (Hfirst :
    atomic (create_batch test_dict test_batch)
      (snd (delete_stale test_batch (mkWorld visits_db [[2]; [3]] [])))
    = (Raise IntegrityError,
       mkWorld
         (with_question_visits [mkQuestionVisits 9 1]
            (concurrent_delete [2] visits_db)) [[3]] [2]))
    by (vm_compute; reflexivity).
  assert (Hsecond :
    create_batch test_dict test_batch
      (mkWorld
         (with_question_visits [mkQuestionVisits 9 1]
            (concurrent_delete [2] visits_db)) [[3]] [2])
    = (Raise IntegrityError,
       mkWorld
         (with_question_visits [mkQuestionVisits 9 1]
            (concurrent_delete [2; 3] visits_db)) [] [2; 3]))
    by (vm_compute; reflexivity).
  assert (H1 :
    create_batch_with_retry test_dict test_batch
      (snd (delete_stale test_batch (mkWorld visits_db [[2]; [3]] [])))
    = (Raise IntegrityError,
       mkWorld
         (with_question_visits [mkQuestionVisits 9 1]
            (concurrent_delete [2; 3] visits_db)) [] [2; 3])).
  { rewrite (Hretry test_dict test_batch _ _ Hfirst). exact Hsecond. }
  assert (Hat :
    flush_at (count test_pageviews) 1 [] test_pageviews
      (mkWorld visits_db [[2]; [3]] []) test_dict
      (snd (delete_stale test_batch (mkWorld visits_db [[2]; [3]] [])))).
  { do 3 (apply flush_later; [reflexivity|]).
    refine (flush_here (count test_pageviews) (1 + 1 + 1 + 1) _ 123459 3 []
              _ _).
    reflexivity. }
  destruct (Hend test_pageviews (mkWorld visits_db [[2]; [3]] []) test_dict
              _ [] test_batch [] _ _ IntegrityError _
              Hat eq_refl eq_refl Hfirst Hsecond) as [H3 _].
  split; [exact H1|]. split; [exact (Hstop _ _ [] _ _ _ H1)|].
  split; [exact H3|].
  exact (proj2 (Hundo _ _ _ _ H3)).
Defined.

(** One interference only: the second attempt inserts the rows of the
    questions that are left, and the reload succeeds. *)
Example reload_survives_one_race :
  reload_from_analytics test_pageviews (mkWorld visits_db [[2]] [])
  = (Ok tt,
     mkWorld
       (with_question_visits
          [mkQuestionVisits 9 1; mkQuestionVisits 1 42; mkQuestionVisits 3 1337]
          (concurrent_delete [2] visits_db)) [] [2]).
Proof. vm_compute. reflexivity. Qed.

(** ** Deleting the solution *)

(** After an answer is deleted, no question has it as its solution. *)
Lemma delete_clears_solution (now : datetime) (self : Answer) (db : DB) :
  raised (Answer_delete now self db) = None ->
  forall q,
    In q (questions (store (Answer_delete now self db))) ->
    refers_to (q_solution q) (a_id self) = false.
Proof.
  unfold Answer_delete.
  destruct (Question_objects_get (a_question self) db) as [question|e];
    [|discriminate].
  destruct (a_id self) as [pk|] eqn:Hpk.
  - intros _ q Hq. cbn [store Question_save snd] in Hq.
    unfold delete_answer_row in Hq. cbn [questions with_questions
      with_answers with_answer_votes] in Hq.
    apply in_map_iff in Hq. destruct Hq as [q0 [<- _]]. simpl.
    destruct (refers_to (q_solution q0) (Some pk)) eqn:E; [reflexivity|].
    exact E.
  - simpl. intros _ q _. destruct (q_solution q); reflexivity.
Qed.

(** * Further properties *)

(** ** Taking a question *)

Lemma take_ok_inv (TAKE_TIMEOUT : Z) (user : Z) (force : bool) (now : datetime)
    (self self' : Question) (db db' : DB) :
  take TAKE_TIMEOUT user force now self db = Ok (self', db') ->
  self' = set_q_taken (Some user)
            (Some (now + timedelta_seconds TAKE_TIMEOUT)) self
  /\ db' = update_question_row self' db.
Proof.
  unfold take.
  destruct (user =? q_creator self); [discriminate|].
  destruct (_ && _); [discriminate|].
  unfold Question_save. intros H. injection H as <- <-. auto.
Qed.

(** X1: [take] succeeds exactly when the user is not the creator and the
    question is free, held by that user, or taken by force; it then stores
    the claim of the user, and nothing else of the question changes. *)
Theorem take_succeeds_iff :
  forall (TAKE_TIMEOUT : Z) (user : Z) (force : bool) (now : datetime)
         (self : Question) (db : DB),
    ((exists r, take TAKE_TIMEOUT user force now self db = Ok r)
     <-> user <> q_creator self
         /\ (q_taken_by self = None \/ q_taken_by self = Some user
             \/ force = true))
    /\ (forall self' db',
          take TAKE_TIMEOUT user force now self db = Ok (self', db') ->
          self' = set_q_taken (Some user)
                    (Some (now + timedelta_seconds TAKE_TIMEOUT)) self
          /\ db' = update_question_row self' db).
Proof.
  intros T user force now self db. unfold take. split.
  - destruct (user =? q_creator self) eqn:Ec.
    + apply Z.eqb_eq in Ec. split; [intros [r Hr]; discriminate | tauto].
    + apply Z.eqb_neq in Ec.
      destruct (q_taken_by self) as [holder|] eqn:Eby.
      * destruct (holder =? user) eqn:Eh; simpl.
        -- apply Z.eqb_eq in Eh. subst holder.
           split; [intros _; auto | intros _; eexists; reflexivity].
        -- apply Z.eqb_neq in Eh. destruct force; simpl.
           ++ split; [intros _; auto | intros _; eexists; reflexivity].
           ++ split; [intros [r Hr]; discriminate|].
              intros [_ [H | [H | H]]]; congruence.
      * simpl. split; [intros _; auto | intros _; eexists; reflexivity].
  - intros self' db'. fold (take T user force now self db).
    apply take_ok_inv.
Qed.

Lemma take_succeeds_iff_witness :
  (exists r, take 600 20 false sample_now (claimed_question HOUR) sample_db = Ok r)
  /\ take 600 20 false sample_now (claimed_question HOUR) sample_db
     = Ok (set_q_taken (Some 20) (Some (sample_now + timedelta_seconds 600))
             (claimed_question HOUR),
           update_question_row
             (set_q_taken (Some 20) (Some (sample_now + timedelta_seconds 600))
                (claimed_question HOUR)) sample_db).
Proof.
  destruct (take_succeeds_iff 600 20 false sample_now (claimed_question HOUR)
              sample_db) as [Hiff Hres].
  assert (Hok : exists r,
            take 600 20 false sample_now (claimed_question HOUR) sample_db = Ok r).
  { apply Hiff. split; [vm_compute; discriminate|]. right. left. reflexivity. }
  split; [exact Hok|].
  destruct Hok as [[self' db'] Hr]. rewrite Hr.
  destruct (Hres self' db' Hr) as [-> ->]. reflexivity.
Defined.

(** X2: A claim just taken holds until its expiry and is gone after it: up to
    [TAKE_TIMEOUT] seconds after a successful [take], [is_taken] answers
    [True] and writes nothing; later it answers [False] and the question has
    no claim. *)
Theorem take_then_is_taken :
  forall (TAKE_TIMEOUT : Z) (user : Z) (force : bool) (now later : datetime)
         (self self' : Question) (db db' : DB),
    take TAKE_TIMEOUT user force now self db = Ok (self', db') ->
    (later <= now + timedelta_seconds TAKE_TIMEOUT ->
     is_taken later self' db' = (true, self', db'))
    /\ (now + timedelta_seconds TAKE_TIMEOUT < later ->
        exists self'' db'',
          is_taken later self' db' = (false, self'', db'')
          /\ q_taken_by self'' = None /\ q_taken_until self'' = None).
Proof.
  intros T user force now later self self' db db' Htake.
  destruct (take_ok_inv T user force now self self' db db' Htake) as [Hself _].
  unfold is_taken. rewrite Hself. cbn [q_taken_by q_taken_until set_q_taken].
  split.
  - intros Hle. apply Z.ltb_ge in Hle. rewrite Hle. reflexivity.
  - intros Hlt. apply Z.ltb_lt in Hlt. rewrite Hlt.
    eexists. eexists. split; [reflexivity|]. simpl. auto.
Qed.

Lemma take_then_is_taken_witness :
  is_taken (sample_now + timedelta_seconds 600)
    (set_q_taken (Some 30) (Some (sample_now + timedelta_seconds 600))
       sample_question)
    (update_question_row
       (set_q_taken (Some 30) (Some (sample_now + timedelta_seconds 600))
          sample_question) sample_db)
  = (true,
     set_q_taken (Some 30) (Some (sample_now + timedelta_seconds 600))
       sample_question,
     update_question_row
       (set_q_taken (Some 30) (Some (sample_now + timedelta_seconds 600))
          sample_question) sample_db).
Proof.
  apply (proj1 (take_then_is_taken 600 30 false sample_now
                  (sample_now + timedelta_seconds 600)
                  sample_question _ sample_db _ eq_refl)).
  apply Z.le_refl.
Defined.

(** X3: [is_taken] answers [True] exactly for a question with a holder and an
    expiry that has not passed, and then it changes neither the instance nor
    the store; a question without any claim is left alone too. *)
Theorem is_taken_true_iff :
  forall (now : datetime) (self : Question) (db : DB),
    (fst (fst (is_taken now self db)) = true
     <-> exists holder until,
           q_taken_by self = Some holder /\ q_taken_until self = Some until
           /\ now <= until)
    /\ (fst (fst (is_taken now self db)) = true ->
        is_taken now self db = (true, self, db))
    /\ (q_taken_by self = None -> q_taken_until self = None ->
        is_taken now self db = (false, self, db)).
Proof.
  intros now self db. unfold is_taken.
  destruct (q_taken_by self) as [holder|], (q_taken_until self) as [until|];
    simpl.
  - destruct (until <? now) eqn:E; simpl.
    + apply Z.ltb_lt in E. repeat split; try discriminate.
      intros [h [u [_ [Hu Hle]]]]. injection Hu as <-. lia.
    + apply Z.ltb_ge in E. repeat split; try discriminate; auto.
      intros _. exists holder, until. auto.
  - repeat split; try discriminate. intros [h [u [_ [Hu _]]]]. discriminate.
  - repeat split; try discriminate. intros [h [u [Hh _]]]. discriminate.
  - repeat split; try discriminate; auto.
    intros [h [u [Hh _]]]. discriminate.
Qed.

Lemma is_taken_true_iff_witness :
  is_taken HOUR (claimed_question HOUR) sample_db
  = (true, claimed_question HOUR, sample_db)
  /\ is_taken sample_now sample_question sample_db
     = (false, sample_question, sample_db).
Proof.
  destruct (is_taken_true_iff HOUR (claimed_question HOUR) sample_db)
    as [Hiff [Hsame _]].
  destruct (is_taken_true_iff sample_now sample_question sample_db)
    as [_ [_ Hfree]].
  split.
  - apply Hsame. apply Hiff. exists 20, HOUR.
    split; [reflexivity|]. split; [reflexivity | apply Z.le_refl].
  - apply Hfree; reflexivity.
Defined.

(** ** Age of a question *)

Lemma MICROSECONDS_PER_DAY_split :
  MICROSECONDS_PER_DAY = 86400 * MICROSECONDS_PER_SECOND.
Proof. reflexivity. Qed.

(** X4: [age] is the number of whole seconds between [created] and now: it is
    not negative for a question created in the past, and a second more than
    it has not yet elapsed. *)
Theorem age_whole_seconds :
  forall (now : datetime) (self : Question),
    age now self = (now - q_created self) / MICROSECONDS_PER_SECOND
    /\ age now self * MICROSECONDS_PER_SECOND <= now - q_created self
       < (age now self + 1) * MICROSECONDS_PER_SECOND
    /\ (q_created self <= now -> 0 <= age now self).
Proof.
  intros now self.
  assert (Hage : age now self = (now - q_created self) / MICROSECONDS_PER_SECOND).
  { unfold age, timedelta_of. cbn [td_days td_seconds].
    set (d := now - q_created self).
    rewrite (Z.div_mod d MICROSECONDS_PER_DAY) at 3
      by (unfold MICROSECONDS_PER_DAY, MICROSECONDS_PER_SECOND; lia).
    rewrite MICROSECONDS_PER_DAY_split at 3.
    replace (86400 * MICROSECONDS_PER_SECOND * (d / MICROSECONDS_PER_DAY)
             + d mod MICROSECONDS_PER_DAY)
      with (d mod MICROSECONDS_PER_DAY
            + (d / MICROSECONDS_PER_DAY * 86400) * MICROSECONDS_PER_SECOND)
      by ring.
    rewrite Z.div_add by (unfold MICROSECONDS_PER_SECOND; lia).
    ring. }
  split; [exact Hage|]. rewrite Hage.
  assert (Hpos : 0 < MICROSECONDS_PER_SECOND)
    by (unfold MICROSECONDS_PER_SECOND; lia).
  split.
  - pose proof (Z.mul_div_le (now - q_created self) _ Hpos).
    pose proof (Z.mul_succ_div_gt (now - q_created self) _ Hpos).
    unfold datetime in *. lia.
  - intros Hle. apply Z.div_pos; unfold datetime in *; lia.
Qed.

Lemma age_whole_seconds_witness : 0 <= age sample_now sample_question.
Proof.
  apply (proj2 (proj2 (age_whole_seconds sample_now sample_question))).
  vm_compute. discriminate.
Defined.

(** ** Saving an answer *)

Lemma Question_save_answers (update : bool) (now : datetime) (q : Question)
    (db : DB) :
  answers (snd (Question_save update now q db)) = answers db.
Proof. reflexivity. Qed.

(** The first row in descending order of [created] is a newest one. *)
Lemma newest_first (l : list Answer) :
  forall h t,
    order_by created_desc l = h :: t ->
    In h l /\ forall y, In y l -> a_created y <= a_created h.
Proof.
  intros h t Hsort. split.
  - apply (order_by_In created_desc). rewrite Hsort. left. reflexivity.
  - revert h t Hsort. induction l as [|x l IH]; intros h t Hsort y Hy;
      [contradiction|].
    cbn [order_by fold_right] in Hsort. fold (order_by created_desc l) in Hsort.
    destruct (order_by created_desc l) as [|h' t'] eqn:Hs.
    + assert (l = []).
      { pose proof (order_by_perm created_desc l) as Hp. rewrite Hs in Hp.
        apply Permutation_nil in Hp. exact Hp. }
      subst l. simpl in Hsort. injection Hsort as <- _.
      destruct Hy as [<- | []]. lia.
    + cbn [insert_by] in Hsort. unfold created_desc at 1 in Hsort.
      pose proof (IH h' t' eq_refl) as Hmax.
      destruct (a_created h' <=? a_created x) eqn:E.
      * apply Z.leb_le in E. injection Hsort as <- _.
        destruct Hy as [<- | Hy]; [lia|]. specialize (Hmax y Hy). lia.
      * apply Z.leb_gt in E. injection Hsort as <- _.
        destruct Hy as [<- | Hy]; [lia|]. exact (Hmax y Hy).
Qed.

(** X5: Whatever is saved, [Answer.save] leaves the question in step with its
    answers: [num_answers] is the number of answers of the question that are
    no spam, on the instance and, where the question has a row, on the
    row. *)
Theorem Answer_save_counts_answers :
  forall (ANSWERS_PER_PAGE : positive) (update : bool) (now : datetime)
         (self self' : Answer) (question question' : Question) (db db' : DB),
    Answer_save ANSWERS_PER_PAGE update now self question db
    = (self', question', db') ->
    q_num_answers question' = count (visible_answers (q_id question) db')
    /\ q_id question' = q_id question
    /\ Question_objects_get (q_id question) db'
       = match Question_objects_get (q_id question) db with
         | Ok _ => Ok question'
         | Raise e => Raise e
         end.
Proof.
  intros P update now self self' question question' db db' Hsave.
  unfold Answer_save in Hsave.
  destruct (a_id self) as [k|] eqn:Ek.
  - set (self1 := set_a_updated now self) in *.
    set (db1 := update_answer_row self1 db) in *.
    set (question1 := set_q_last_answer _ (set_q_num_answers _ question)) in *.
    pose proof (get_after_save update now question1 db1) as Hget.
    change (q_id question1) with (q_id question) in Hget.
    destruct (Question_save update now question1 db1) as [q2 db2] eqn:Hq.
    injection Hsave as <- <- <-. cbn [fst snd] in Hget.
    unfold Question_save in Hq. injection Hq as <- <-.
    split; [|split].
    + destruct update; reflexivity.
    + destruct update; reflexivity.
    + exact Hget.
  - set (self1 := set_a_id _ (set_a_page _ self)) in *.
    set (db1 := with_next_answer_id _ (with_answers _ db)) in *.
    set (question1 := set_q_last_answer _ (set_q_num_answers _ question)) in *.
    pose proof (get_after_save update now question1 db1) as Hget.
    change (q_id question1) with (q_id question) in Hget.
    destruct (Question_save update now question1 db1) as [q2 db2] eqn:Hq.
    injection Hsave as <- <- <-. cbn [fst snd] in Hget.
    unfold Question_save in Hq. injection Hq as <- <-.
    split; [|split].
    + destruct update; reflexivity.
    + destruct update; reflexivity.
    + exact Hget.
Qed.

Lemma Answer_save_counts_answers_witness :
  q_num_answers
    (snd (fst (Answer_save 20 true (4 * HOUR) (set_a_is_spam true third_reply)
                 three_answers_question three_answers_db)))
  = count (visible_answers 1
             (snd (Answer_save 20 true (4 * HOUR) (set_a_is_spam true third_reply)
                     three_answers_question three_answers_db))).
Proof.
  apply (proj1 (Answer_save_counts_answers 20 true (4 * HOUR)
                  (set_a_is_spam true third_reply)
                  (fst (fst (Answer_save 20 true (4 * HOUR)
                               (set_a_is_spam true third_reply)
                               three_answers_question three_answers_db)))
                  three_answers_question
                  (snd (fst (Answer_save 20 true (4 * HOUR)
                               (set_a_is_spam true third_reply)
                               three_answers_question three_answers_db)))
                  three_answers_db
                  (snd (Answer_save 20 true (4 * HOUR)
                          (set_a_is_spam true third_reply)
                          three_answers_question three_answers_db))
                  eq_refl)).
Defined.

(** X6: Saving an answer that has a row sets [last_answer] to a newest answer of
    the question that is no spam, and to none when the question has no such
    answer. *)
Theorem Answer_save_last_answer_is_newest :
  forall (ANSWERS_PER_PAGE : positive) (update : bool) (now : datetime)
         (self self' : Answer) (question question' : Question) (db db' : DB),
    a_id self <> None ->
    Answer_save ANSWERS_PER_PAGE update now self question db
    = (self', question', db') ->
    (visible_answers (q_id question) db' = [] /\ q_last_answer question' = None)
    \/ (exists a,
          In a (visible_answers (q_id question) db')
          /\ q_last_answer question' = a_id a
          /\ forall b, In b (visible_answers (q_id question) db') ->
                       a_created b <= a_created a).
Proof.
  intros P update now self self' question question' db db' Hid Hsave.
  unfold Answer_save in Hsave.
  destruct (a_id self) as [k|] eqn:Ek; [|congruence].
  set (self1 := set_a_updated now self) in *.
  set (db1 := update_answer_row self1 db) in *.
  fold (visible_answers (q_id question) db1) in Hsave.
  unfold Question_save in Hsave. injection Hsave as <- <- <-.
  change (visible_answers (q_id question) (update_question_row _ db1))
    with (visible_answers (q_id question) db1).
  destruct (order_by created_desc (visible_answers (q_id question) db1))
    as [|h t] eqn:Hsort.
  - left. split.
    + pose proof (order_by_perm created_desc (visible_answers (q_id question) db1))
        as Hp.
      rewrite Hsort in Hp. apply Permutation_nil in Hp. exact Hp.
    + destruct update; reflexivity.
  - right. exists h. destruct (newest_first _ _ _ Hsort) as [Hin Hmax].
    split; [exact Hin|]. split; [destruct update; reflexivity | exact Hmax].
Qed.

Lemma Answer_save_last_answer_is_newest_witness :
  (visible_answers 1 newer_spam_db = []
   /\ q_last_answer
        (mkQuestion 1 10 0 (4 * HOUR) false (Some 2) 2 None 0 None None) = None)
  \/ exists a,
       In a (visible_answers 1 newer_spam_db)
       /\ q_last_answer
            (mkQuestion 1 10 0 (4 * HOUR) false (Some 2) 2 None 0 None None)
          = a_id a
       /\ forall b, In b (visible_answers 1 newer_spam_db) ->
                    a_created b <= a_created a.
Proof.
  apply (Answer_save_last_answer_is_newest 20 true (4 * HOUR)
           (set_a_is_spam true third_reply)
           (mkAnswer (Some 3) 1 23 (3 * HOUR) (4 * HOUR) true 1)
           three_answers_question
           (mkQuestion 1 10 0 (4 * HOUR) false (Some 2) 2 None 0 None None)
           three_answers_db newer_spam_db).
  - discriminate.
  - vm_compute. reflexivity.
Defined.

Lemma overwrite_id (r a : Answer) : a_id (overwrite r a) = a_id r.
Proof.
  unfold overwrite. destruct (refers_to (a_id r) (a_id a)) eqn:E; [|reflexivity].
  apply refers_to_true in E. destruct E as [E _]. symmetry. exact E.
Qed.

Lemma Answer_save_next (per_page : positive) (update : bool) (now : datetime)
    (self : Answer) (question : Question) (db : DB) :
  a_id self <> None ->
  next_answer_id (snd (Answer_save per_page update now self question db))
  = next_answer_id db.
Proof.
  intros Hid. unfold Answer_save.
  destruct (a_id self) as [k|]; [reflexivity | congruence].
Qed.

(** X7: [Answer.save] keeps the primary key of the answers: ids stay present,
    distinct and below the next id of the sequence.  A new answer is appended
    under the next id and becomes [last_answer], spam or not; a saved one
    changes no id. *)
Theorem Answer_save_keeps_primary_key :
  forall (ANSWERS_PER_PAGE : positive) (update : bool) (now : datetime)
         (self self' : Answer) (question question' : Question) (db db' : DB),
    answers_keyed db ->
    answers_below_next db ->
    Answer_save ANSWERS_PER_PAGE update now self question db
    = (self', question', db') ->
    answers_keyed db'
    /\ answers_below_next db'
    /\ (a_id self = None ->
        a_id self' = Some (next_answer_id db)
        /\ answers db' = answers db ++ [self']
        /\ q_last_answer question' = a_id self')
    /\ (a_id self <> None ->
        map a_id (answers db') = map a_id (answers db)
        /\ next_answer_id db' = next_answer_id db).
Proof.
  intros P update now self self' question question' db db'
         [Hnd Hsome] Hbelow Hsave.
  destruct (a_id self) as [k|] eqn:Ek.
  - assert (Hid : a_id self <> None) by congruence.
    pose proof (Answer_save_answers P update now self question db Hid) as Hans.
    pose proof (Answer_save_next P update now self question db Hid) as Hnext.
    rewrite Hsave in Hans, Hnext. cbn [snd] in Hans, Hnext.
    assert (Hids : map a_id (answers db') = map a_id (answers db)).
    { rewrite Hans, map_map. apply map_ext. intros r.
      exact (overwrite_id r (set_a_updated now self)). }
    assert (Hrows : forall a, In a (answers db') ->
              exists r, In r (answers db) /\ a_id a = a_id r).
    { intros a Ha. rewrite Hans in Ha. apply in_map_iff in Ha.
      destruct Ha as [r [<- Hr]]. exists r. split; [exact Hr|].
      exact (overwrite_id r (set_a_updated now self)). }
    split; [|split; [|split]].
    + split; [rewrite Hids; exact Hnd|].
      apply Forall_forall. intros a Ha. destruct (Hrows a Ha) as [r [Hr ->]].
      rewrite Forall_forall in Hsome. auto.
    + unfold answers_below_next. rewrite Hnext.
      apply Forall_forall. intros a Ha.
      destruct (Hrows a Ha) as [r [Hr ->]].
      unfold answers_below_next in Hbelow. rewrite Forall_forall in Hbelow. auto.
    + intros H. discriminate.
    + intros _. split; [exact Hids | exact Hnext].
  - unfold Answer_save in Hsave. rewrite Ek in Hsave.
    unfold Question_save in Hsave. injection Hsave as <- <- <-.
    unfold answers_keyed.
    change (answers_below_next db) with
      (Forall (fun a => exists i, a_id a = Some i /\ i < next_answer_id db)
         (answers db)) in Hbelow.
    unfold answers_below_next.
    cbn [answers update_question_row with_questions with_next_answer_id
         with_answers next_answer_id].
    rewrite Forall_forall in Hbelow.
    split; [|split; [|split]].
    + split.
      * rewrite map_app. apply NoDup_app; [exact Hnd | repeat constructor; auto |].
        intros x Hx [<- | []]. apply in_map_iff in Hx.
        destruct Hx as [r [Hr Hin]]. destruct (Hbelow r Hin) as [i [Hi Hlt]].
        simpl in Hr. rewrite Hi in Hr. injection Hr as ->. lia.
      * apply Forall_app. split; [exact Hsome|].
        constructor; [discriminate | constructor].
    + apply Forall_app. split.
      * apply Forall_forall. intros r Hr. destruct (Hbelow r Hr) as [i [Hi Hlt]].
        exists i. split; [exact Hi | lia].
      * constructor; [|constructor]. exists (next_answer_id db).
        split; [reflexivity | lia].
    + intros _. split; [reflexivity|]. split; [reflexivity|].
      destruct update; reflexivity.
    + intros H. congruence.
Qed.

Lemma three_answers_db_keyed :
  answers_keyed three_answers_db /\ answers_below_next three_answers_db.
Proof.
  split; [split|].
  - repeat constructor; simpl; intuition discriminate.
  - repeat constructor; discriminate.
  - repeat constructor; eexists; (split; [reflexivity | reflexivity]).
Qed.

Lemma Answer_save_keeps_primary_key_witness :
  answers_keyed
    (snd (Answer_save 20 true (4 * HOUR) (new_answer 24 (4 * HOUR))
            three_answers_question three_answers_db))
  /\ answers_below_next
       (snd (Answer_save 20 true (4 * HOUR) (new_answer 24 (4 * HOUR))
               three_answers_question three_answers_db))
  /\ a_id (fst (fst (Answer_save 20 true (4 * HOUR) (new_answer 24 (4 * HOUR))
                       three_answers_question three_answers_db)))
     = Some (next_answer_id three_answers_db).
Proof.
  destruct (Answer_save_keeps_primary_key 20 true (4 * HOUR)
              (new_answer 24 (4 * HOUR))
              (fst (fst (Answer_save 20 true (4 * HOUR) (new_answer 24 (4 * HOUR))
                           three_answers_question three_answers_db)))
              three_answers_question
              (snd (fst (Answer_save 20 true (4 * HOUR) (new_answer 24 (4 * HOUR))
                           three_answers_question three_answers_db)))
              three_answers_db
              (snd (Answer_save 20 true (4 * HOUR) (new_answer 24 (4 * HOUR))
                      three_answers_question three_answers_db))
              (proj1 three_answers_db_keyed) (proj2 three_answers_db_keyed)
              eq_refl) as [H1 [H2 [H3 _]]].
  split; [exact H1|]. split; [exact H2|].
  exact (proj1 (H3 eq_refl)).
Defined.

(** ** Deleting an answer: what goes and what stays *)

Lemma find_map_same_id (f : Question -> Question) (k : Z) (l : list Question) :
  (forall q, q_id (f q) = q_id q) ->
  find (fun r => q_id r =? k) (map f l)
  = option_map f (find (fun r => q_id r =? k) l).
Proof.
  intros Hid. induction l as [|q l IH]; simpl; [reflexivity|].
  rewrite Hid. destruct (q_id q =? k); [reflexivity | exact IH].
Qed.

(** X8: Deleting an answer whose question is gone raises [DoesNotExist] and
    writes nothing.  Otherwise the delete succeeds and queues one page
    recompute for the question; the row of the answer and the votes on it
    are gone, every other answer and vote is as before, and no question is
    left pointing at the answer as its last answer or its solution. *)
Theorem Answer_delete_leaves_no_reference :
  forall (now : datetime) (self : Answer) (pk : Z) (db : DB),
    a_id self = Some pk ->
    (Question_objects_get (a_question self) db = Raise DoesNotExist ->
     raised (Answer_delete now self db) = Some DoesNotExist
     /\ store (Answer_delete now self db) = db)
    /\ (forall question,
          Question_objects_get (a_question self) db = Ok question ->
          raised (Answer_delete now self db) = None
          /\ events (Answer_delete now self db)
             = [Delay_update_answer_pages (a_question self)]
          /\ answers (store (Answer_delete now self db))
             = filter (fun a => negb (refers_to (a_id a) (Some pk))) (answers db)
          /\ answer_votes (store (Answer_delete now self db))
             = filter (fun v => negb (av_answer v =? pk)) (answer_votes db)
          /\ question_votes (store (Answer_delete now self db))
             = question_votes db
          /\ (forall q, In q (questions (store (Answer_delete now self db))) ->
                q_last_answer q <> Some pk /\ q_solution q <> Some pk)).
Proof.
  intros now self pk db Hpk. split.
  - intros Hget. unfold Answer_delete. rewrite Hget. auto.
  - intros question Hget. destruct (get_found _ _ _ Hget) as [_ Hqid].
    unfold Answer_delete. rewrite Hget, Hpk.
    unfold Question_save. cbn [raised events store].
    split; [reflexivity|]. split.
    { f_equal. f_equal.
      destruct (refers_to (q_last_answer question) (Some pk));
        [destruct (nth_error _ 1)|];
        destruct (refers_to _ (Some pk)); exact Hqid. }
    split; [reflexivity|]. split; [reflexivity|]. split; [reflexivity|].
    intros q Hq. unfold delete_answer_row in Hq.
    cbn [questions with_questions with_answers with_answer_votes] in Hq.
    apply in_map_iff in Hq. destruct Hq as [q0 [<- _]].
    cbn [q_last_answer q_solution set_q_solution set_q_last_answer].
    split.
    + destruct (refers_to (q_last_answer q0) (Some pk)) eqn:E; [discriminate|].
      intros Heq. rewrite Heq in E. simpl in E. rewrite Z.eqb_refl in E.
      discriminate.
    + destruct (refers_to (q_solution q0) (Some pk)) eqn:E; [discriminate|].
      intros Heq. rewrite Heq in E. simpl in E. rewrite Z.eqb_refl in E.
      discriminate.
Qed.

Lemma Answer_delete_leaves_no_reference_witness :
  raised (Answer_delete (5 * HOUR) third_reply three_answers_db) = None
  /\ events (Answer_delete (5 * HOUR) third_reply three_answers_db)
     = [Delay_update_answer_pages (a_question third_reply)]
  /\ answers (store (Answer_delete (5 * HOUR) third_reply three_answers_db))
     = filter (fun a => negb (refers_to (a_id a) (Some 3)))
         (answers three_answers_db)
  /\ answer_votes (store (Answer_delete (5 * HOUR) third_reply three_answers_db))
     = filter (fun v => negb (av_answer v =? 3)) (answer_votes three_answers_db)
  /\ question_votes (store (Answer_delete (5 * HOUR) third_reply three_answers_db))
     = question_votes three_answers_db
  /\ (forall q,
        In q (questions
                (store (Answer_delete (5 * HOUR) third_reply three_answers_db))) ->
        q_last_answer q <> Some 3 /\ q_solution q <> Some 3).
Proof.
  apply (proj2 (Answer_delete_leaves_no_reference (5 * HOUR) third_reply 3
                  three_answers_db eq_refl) three_answers_question).
  reflexivity.
Defined.

Lemma filter_perm {A : Type} (p : A -> bool) (l l' : list A) :
  Permutation l l' -> Permutation (filter p l) (filter p l').
Proof.
  induction 1 as [|x l l' _ IH|x y l|l l' l'' _ IH1 _ IH2]; simpl.
  - constructor.
  - destruct (p x); [apply perm_skip|]; exact IH.
  - destruct (p x), (p y); try apply Permutation_refl. apply perm_swap.
  - eapply perm_trans; eassumption.
Qed.

(** The tail of a sorted list is the sorted list of what is left. *)
Lemma order_by_tail {A : Type} (before : A -> A -> bool) (l : list A) :
  forall h t,
    order_by before l = h :: t ->
    exists l', t = order_by before l' /\ Permutation l (h :: l').
Proof.
  induction l as [|x l IH]; intros h t Hsort; [discriminate|].
  cbn [order_by fold_right] in Hsort. fold (order_by before l) in Hsort.
  destruct (order_by before l) as [|h' t'] eqn:Hs.
  - assert (l = []).
    { pose proof (order_by_perm before l) as Hp. rewrite Hs in Hp.
      apply Permutation_nil in Hp. exact Hp. }
    subst l. simpl in Hsort. injection Hsort as <- <-.
    exists []. split; [reflexivity | apply Permutation_refl].
  - destruct (IH h' t' eq_refl) as [l0 [Ht' Hperm]].
    cbn [insert_by] in Hsort. destruct (before x h').
    + injection Hsort as <- <-. exists l. split; [symmetry; exact Hs|].
      apply Permutation_refl.
    + injection Hsort as <- <-. exists (x :: l0). split.
      * rewrite Ht'. reflexivity.
      * eapply perm_trans; [apply perm_skip; exact Hperm | apply perm_swap].
Qed.

(** Deleting the row with key [pk] from a keyed table removes that row and
    no other. *)
Lemma keyed_delete (table : list Answer) (x : Answer) (pk : Z) :
  NoDup (map a_id table) -> In x table -> a_id x = Some pk ->
  Permutation table
    (x :: filter (fun a => negb (refers_to (a_id a) (Some pk))) table).
Proof.
  induction table as [|y table IH]; simpl; [contradiction|].
  rewrite NoDup_cons_iff. intros [Hfresh Hnd] [-> | Hin] Hpk.
  - rewrite Hpk. simpl. rewrite Z.eqb_refl. simpl.
    apply perm_skip. rewrite forallb_filter_id; [apply Permutation_refl|].
    apply forallb_forall. intros a Ha. apply negb_true_iff.
    destruct (refers_to (a_id a) (Some pk)) eqn:E; [|reflexivity].
    apply refers_to_true in E. destruct E as [E _].
    exfalso. apply Hfresh. rewrite Hpk, <- E. apply in_map. exact Ha.
  - assert (Hy : refers_to (a_id y) (Some pk) = false).
    { destruct (refers_to (a_id y) (Some pk)) eqn:E; [|reflexivity].
      apply refers_to_true in E. destruct E as [E _].
      exfalso. apply Hfresh. rewrite E, <- Hpk. apply in_map. exact Hin. }
    rewrite Hy. simpl.
    eapply perm_trans; [apply perm_skip; exact (IH Hnd Hin Hpk) | apply perm_swap].
Qed.

(** The row that [Answer.delete] leaves of the question. *)
Lemma Answer_delete_question_row (now : datetime) (self : Answer) (pk : Z)
    (db : DB) (question : Question) :
  a_id self = Some pk ->
  Question_objects_get (a_question self) db = Ok question ->
  exists q',
    Question_objects_get (a_question self) (store (Answer_delete now self db))
    = Ok q'
    /\ q_num_answers q' = count (visible_answers (a_question self) db) - 1
    /\ q_last_answer q'
       = (let pointed :=
            if refers_to (q_last_answer question) (Some pk) then
              match nth_error
                      (order_by created_desc
                         (question_answers (a_question self) db)) 1 with
              | Some a => a_id a
              | None => None
              end
            else q_last_answer question in
          if refers_to pointed (Some pk) then None else pointed).
Proof.
  intros Hpk Hget. destruct (get_found _ _ _ Hget) as [_ Hqid].
  unfold Answer_delete. rewrite Hget, Hpk. rewrite Hqid.
  set (q1 := if refers_to (q_last_answer question) (Some pk) then _ else question).
  set (q2 := if refers_to (q_solution q1) (Some pk) then _ else q1).
  set (q3 := set_q_num_answers _ q2).
  assert (Hid2 : q_id q2 = a_question self).
  { unfold q2, q1.
    destruct (refers_to (q_last_answer question) (Some pk));
      [destruct (nth_error _ 1)|];
      match goal with |- q_id (if ?c then _ else _) = _ => destruct c end;
      exact Hqid. }
  assert (Hid3 : q_id q3 = a_question self) by exact Hid2.
  unfold Question_save. cbn [store].
  unfold Question_objects_get, delete_answer_row.
  cbn [questions with_questions with_answers with_answer_votes update_question_row].
  rewrite find_map_same_id by (intros q; reflexivity).
  rewrite <- Hid3. rewrite find_updated_row. rewrite Hid3.
  unfold Question_objects_get in Hget.
  destruct (find (fun q => q_id q =? a_question self) (questions db));
    [|discriminate].
  cbn [option_map]. eexists. split; [reflexivity|].
  cbn [q_num_answers q_last_answer set_q_solution set_q_last_answer].
  split.
  - unfold q3. cbn [q_num_answers set_q_num_answers]. rewrite Hid2.
    reflexivity.
  - unfold q3, q2, q1. cbn [q_last_answer set_q_num_answers].
    destruct (refers_to (q_last_answer question) (Some pk)) eqn:E1.
    + destruct (nth_error _ 1) as [a|];
        match goal with
        | |- context [refers_to (q_solution ?x) (Some pk)] =>
            destruct (refers_to (q_solution x) (Some pk))
        end; reflexivity.
    + destruct (refers_to (q_solution question) (Some pk)); reflexivity.
Qed.

Lemma refers_to_pk (x : option Z) (pk : Z) :
  refers_to x (Some pk) = true <-> x = Some pk.
Proof.
  destruct x as [i|]; simpl; [|split; discriminate].
  rewrite Z.eqb_eq. split; congruence.
Qed.

Lemma Answer_delete_answers (now : datetime) (self : Answer) (pk : Z) (db : DB)
    (question : Question) :
  a_id self = Some pk ->
  Question_objects_get (a_question self) db = Ok question ->
  answers (store (Answer_delete now self db))
  = filter (fun a => negb (refers_to (a_id a) (Some pk))) (answers db).
Proof.
  intros Hpk Hget. unfold Answer_delete. rewrite Hget, Hpk. reflexivity.
Qed.

Lemma question_answers_after_delete (now : datetime) (self : Answer) (pk : Z)
    (db : DB) (question : Question) (b : Answer) :
  a_id self = Some pk ->
  Question_objects_get (a_question self) db = Ok question ->
  In b (question_answers (a_question self) (store (Answer_delete now self db)))
  <-> In b (question_answers (a_question self) db) /\ a_id b <> Some pk.
Proof.
  intros Hpk Hget. unfold question_answers.
  rewrite (Answer_delete_answers now self pk db question Hpk Hget).
  rewrite !filter_In, negb_true_iff.
  rewrite <- (refers_to_pk (a_id b) pk).
  destruct (refers_to (a_id b) (Some pk)); intuition congruence.
Qed.

(** X9: After the delete of a row of the table, the question's [num_answers]
    counts its remaining answers that are no spam when the deleted answer
    was none either; when it was spam the count is one too low. *)
Theorem Answer_delete_counts_answers :
  forall (now : datetime) (self : Answer) (pk : Z) (db : DB)
         (question : Question),
    answers_keyed db ->
    In self (answers db) ->
    a_id self = Some pk ->
    Question_objects_get (a_question self) db = Ok question ->
    exists q',
      Question_objects_get (a_question self) (store (Answer_delete now self db))
      = Ok q'
      /\ q_num_answers q'
         = count (visible_answers (a_question self)
                    (store (Answer_delete now self db)))
           - (if a_is_spam self then 1 else 0).
Proof.
  intros now self pk db question [Hnd _] Hin Hpk Hget.
  destruct (Answer_delete_question_row now self pk db question Hpk Hget)
    as [q' [Hrow [Hnum _]]].
  exists q'. split; [exact Hrow|]. rewrite Hnum.
  unfold visible_answers, question_answers.
  rewrite (Answer_delete_answers now self pk db question Hpk Hget).
  pose proof (keyed_delete (answers db) self pk Hnd Hin Hpk) as Hperm.
  apply (filter_perm (fun a => a_question a =? a_question self)) in Hperm.
  apply (filter_perm not_spam) in Hperm.
  apply Permutation_length in Hperm.
  cbn [filter] in Hperm. rewrite Z.eqb_refl in Hperm. cbn [filter] in Hperm.
  unfold count. unfold not_spam at 2 in Hperm.
  destruct (a_is_spam self); cbn [negb] in Hperm.
  - rewrite Hperm. reflexivity.
  - cbn [List.length] in Hperm. rewrite Hperm. lia.
Qed.

Lemma Answer_delete_counts_answers_witness :
  exists q',
    Question_objects_get (a_question third_reply)
      (store (Answer_delete (5 * HOUR) third_reply three_answers_db)) = Ok q'
    /\ q_num_answers q'
       = count (visible_answers (a_question third_reply)
                  (store (Answer_delete (5 * HOUR) third_reply three_answers_db)))
         - (if a_is_spam third_reply then 1 else 0).
Proof.
  apply (Answer_delete_counts_answers (5 * HOUR) third_reply 3 three_answers_db
           three_answers_question).
  - exact (proj1 three_answers_db_keyed).
  - right. right. left. reflexivity.
  - reflexivity.
  - reflexivity.
Defined.

(** X10: When the answer deleted is the question's last answer and newer than
    every other answer of the question, [last_answer] moves to a newest of the
    answers that remain, spam or not, and to none when none remains. *)
Theorem Answer_delete_newest_moves_last_answer :
  forall (now : datetime) (self : Answer) (pk : Z) (db : DB)
         (question : Question),
    answers_keyed db ->
    In self (answers db) ->
    a_id self = Some pk ->
    Question_objects_get (a_question self) db = Ok question ->
    q_last_answer question = Some pk ->
    (forall b, In b (question_answers (a_question self) db) -> b <> self ->
               a_created b < a_created self) ->
    exists q',
      Question_objects_get (a_question self) (store (Answer_delete now self db))
      = Ok q'
      /\ ((question_answers (a_question self)
             (store (Answer_delete now self db)) = []
           /\ q_last_answer q' = None)
          \/ exists a,
               In a (question_answers (a_question self)
                       (store (Answer_delete now self db)))
               /\ q_last_answer q' = a_id a
               /\ forall b,
                    In b (question_answers (a_question self)
                            (store (Answer_delete now self db))) ->
                    a_created b <= a_created a).
Proof.
  intros now self pk db question [Hnd _] Hin Hpk Hget Hlast Hnewest.
  destruct (Answer_delete_question_row now self pk db question Hpk Hget)
    as [q' [Hrow [_ Hla]]].
  exists q'. split; [exact Hrow|].
  rewrite Hlast in Hla. cbn [refers_to] in Hla. rewrite Z.eqb_refl in Hla.
  set (l := question_answers (a_question self) db) in *.
  assert (Hself : In self l).
  { unfold l, question_answers. apply filter_In. split; [exact Hin|].
    apply Z.eqb_refl. }
  assert (HlT : forall b, In b l -> In b (answers db)).
  { intros b Hb. unfold l, question_answers in Hb. apply filter_In in Hb. tauto. }
  assert (Hsame : forall b, In b l -> a_id b = Some pk -> b = self).
  { intros b Hb Hid. apply (keyed_row_unique a_id (answers db)); auto.
    congruence. }
  destruct (order_by created_desc l) as [|h t] eqn:Hsort.
  { pose proof (order_by_perm created_desc l) as Hp. rewrite Hsort in Hp.
    apply Permutation_nil in Hp. rewrite Hp in Hself. contradiction. }
  destruct (newest_first l h t Hsort) as [Hh Hmax].
  assert (Hhself : h = self).
  { destruct (refers_to (a_id h) (Some pk)) eqn:E.
    - apply refers_to_pk in E. exact (Hsame h Hh E).
    - assert (Hne : h <> self).
      { intros ->. rewrite Hpk in E. simpl in E. rewrite Z.eqb_refl in E.
        discriminate. }
      pose proof (Hnewest h Hh Hne). pose proof (Hmax self Hself). lia. }
  subst h.
  destruct (order_by_tail created_desc l self t Hsort) as [l' [Ht Hperm]].
  assert (Hlnd : NoDup l).
  { apply (NoDup_map_inv a_id). unfold l, question_answers.
    apply keyed_filter. exact Hnd. }
  assert (Hnd' : NoDup (self :: l')) by (eapply Permutation_NoDup; eassumption).
  apply NoDup_cons_iff in Hnd'. destruct Hnd' as [Hnotin _].
  assert (Hrest : forall b, In b l -> a_id b <> Some pk -> In b l').
  { intros b Hb Hid. apply (Permutation_in _ Hperm) in Hb.
    destruct Hb as [<- | Hb]; [congruence | exact Hb]. }
  assert (Hother : forall b, In b l' -> In b l /\ a_id b <> Some pk).
  { intros b Hb. assert (Hbl : In b l).
    { apply (Permutation_in _ (Permutation_sym Hperm)). right. exact Hb. }
    split; [exact Hbl|]. intros Hid. apply Hnotin.
    rewrite <- (Hsame b Hbl Hid). exact Hb. }
  cbn [nth_error] in Hla.
  destruct t as [|a t'].
  - left. split.
    + destruct (question_answers (a_question self)
                  (store (Answer_delete now self db))) as [|b rest] eqn:Hq;
        [reflexivity|].
      assert (Hb : In b (b :: rest)) by (left; reflexivity).
      rewrite <- Hq in Hb.
      apply (question_answers_after_delete now self pk db question b Hpk Hget)
        in Hb.
      destruct Hb as [Hb Hid]. apply (Hrest b Hb) in Hid.
      pose proof (order_by_perm created_desc l') as Hp. rewrite <- Ht in Hp.
      apply Permutation_nil in Hp. rewrite Hp in Hid. contradiction.
    + exact Hla.
  - right. exists a.
    assert (Hal' : In a l').
    { apply (order_by_In created_desc). rewrite <- Ht. left. reflexivity. }
    destruct (Hother a Hal') as [Hal Haid].
    assert (Hunlink : refers_to (a_id a) (Some pk) = false).
    { destruct (refers_to (a_id a) (Some pk)) eqn:E; [|reflexivity].
      apply refers_to_pk in E. congruence. }
    cbn [nth_error] in Hla. rewrite Hunlink in Hla.
    split; [|split; [exact Hla|]].
    + apply (question_answers_after_delete now self pk db question a Hpk Hget).
      auto.
    + intros b Hb.
      apply (question_answers_after_delete now self pk db question b Hpk Hget)
        in Hb.
      destruct Hb as [Hb Hid].
      destruct (newest_first l' a t' (eq_sym Ht)) as [_ Hmax'].
      apply Hmax'. exact (Hrest b Hb Hid).
Qed.

Lemma Answer_delete_newest_moves_last_answer_witness :
  exists q',
    Question_objects_get (a_question third_reply)
      (store (Answer_delete (5 * HOUR) third_reply three_answers_db)) = Ok q'
    /\ ((question_answers (a_question third_reply)
           (store (Answer_delete (5 * HOUR) third_reply three_answers_db)) = []
         /\ q_last_answer q' = None)
        \/ exists a,
             In a (question_answers (a_question third_reply)
                     (store (Answer_delete (5 * HOUR) third_reply
                               three_answers_db)))
             /\ q_last_answer q' = a_id a
             /\ forall b,
                  In b (question_answers (a_question third_reply)
                          (store (Answer_delete (5 * HOUR) third_reply
                                    three_answers_db))) ->
                  a_created b <= a_created a).
Proof.
  apply (Answer_delete_newest_moves_last_answer (5 * HOUR) third_reply 3
           three_answers_db three_answers_question).
  - exact (proj1 three_answers_db_keyed).
  - right. right. left. reflexivity.
  - reflexivity.
  - reflexivity.
  - reflexivity.
  - intros b Hb Hne. vm_compute in Hb.
    destruct Hb as [<- | [<- | [<- | []]]].
    + vm_compute. reflexivity.
    + vm_compute. reflexivity.
    + exfalso. apply Hne. reflexivity.
Defined.

(** ** Recomputing the pages: what changes and what does not *)

Lemma numbered_answers_In (question_id : Z) (db : DB) (r : Answer) :
  In r (numbered_answers question_id db)
  <-> In r (answers db) /\ a_question r = question_id /\ a_is_spam r = false.
Proof.
  unfold numbered_answers, question_answers.
  rewrite filter_In, order_by_In, filter_In, Z.eqb_eq.
  unfold not_spam. rewrite negb_true_iff. tauto.
Qed.

(** The rows after the task: every row keeps its key columns; the [i]-th
    numbered answer gets its page and the time of the save; any other row is
    as before. *)
Lemma update_answer_pages_rows (per_page : positive) (now : datetime)
    (question_id : Z) (db : DB) (question : Question) :
  answers_keyed db ->
  Question_objects_get question_id db = Ok question ->
  exists g,
    answers (store (update_answer_pages per_page now question_id db))
    = map g (answers db)
    /\ (forall r, In r (answers db) -> same_key (g r) r)
    /\ (forall i r, nth_error (numbered_answers question_id db) i = Some r ->
          g r = set_a_updated now
                  (set_a_page (Z.of_nat i / Z.pos per_page + 1) r))
    /\ (forall r, In r (answers db) ->
          ~ In r (numbered_answers question_id db) -> g r = r).
Proof.
  intros [Hnd Hsome] Hget.
  destruct (get_found _ _ _ Hget) as [_ Hqid].
  set (L := numbered_answers question_id db).
  set (U := renumbered per_page now 0 L).
  exists (overwrites U).
  assert (HLT : forall a, In a L -> In a (answers db)).
  { intros a Ha. apply numbered_answers_In in Ha. tauto. }
  assert (HLsome : Forall (fun a => a_id a <> None) L).
  { apply Forall_forall. intros a Ha. rewrite Forall_forall in Hsome. auto. }
  assert (HLnd : NoDup (map a_id L)).
  { unfold L, numbered_answers. apply keyed_filter.
    eapply Permutation_NoDup.
    - apply Permutation_map. apply Permutation_sym. apply order_by_perm.
    - unfold question_answers. apply keyed_filter. exact Hnd. }
  assert (HUnd : NoDup (map a_id U))
    by (unfold U; rewrite renumbered_ids; exact HLnd).
  assert (HUfrom : forall u, In u U ->
            exists a, In a (answers db) /\ same_key u a).
  { intros u Hu. destruct (renumbered_In _ _ _ _ _ Hu) as [a [Ha Hk]].
    exists a. auto. }
  split; [|split; [|split]].
  - unfold update_answer_pages. rewrite Hget, Hqid.
    pose proof (loop_answers per_page now L 0 question db HLsome) as Hloop.
    fold (numbered_answers question_id db). fold L.
    destruct (update_answer_pages_loop per_page now 0 L question db)
      as [q' db'].
    exact Hloop.
  - intros r Hr. apply (overwrites_same_key (answers db) U Hnd HUfrom r r Hr).
    repeat split.
  - intros i r Hi.
    pose proof (renumbered_at per_page now L 0 i r Hi) as Hu. fold U in Hu.
    apply (overwrites_nth U i _ r HUnd Hu); [reflexivity|].
    simpl. rewrite Forall_forall in HLsome. apply HLsome.
    eapply nth_error_In. exact Hi.
  - intros r Hr Hnot. apply overwrites_other. intros u Hu Heq.
    destruct (renumbered_In _ _ _ _ _ Hu) as [a [Ha Hk]].
    assert (a = r).
    { apply (keyed_row_unique a_id (answers db)); auto.
      destruct Hk as [Hk _]. congruence. }
    subst a. exact (Hnot Ha).
Qed.

Lemma loop_other_tables (per_page : positive) (now : datetime)
    (l : list Answer) :
  forall i question db,
    Forall (fun a => a_id a <> None) l ->
    let db' := snd (update_answer_pages_loop per_page now i l question db) in
    question_votes db' = question_votes db
    /\ answer_votes db' = answer_votes db
    /\ question_visits db' = question_visits db
    /\ next_answer_id db' = next_answer_id db
    /\ map q_id (questions db') = map q_id (questions db).
Proof.
  induction l as [|a l IH]; intros i question db Hids; [simpl; auto|].
  inversion Hids as [|? ? Ha Hl]; subst.
  cbn [update_answer_pages_loop].
  assert (Hstep :
    let d := snd (Answer_save per_page true now
                    (set_a_page (i / Z.pos per_page + 1) a) question db) in
    question_votes d = question_votes db
    /\ answer_votes d = answer_votes db
    /\ question_visits d = question_visits db
    /\ next_answer_id d = next_answer_id db
    /\ map q_id (questions d) = map q_id (questions db)).
  { unfold Answer_save. cbn [a_id set_a_page].
    destruct (a_id a) as [k|]; [|congruence].
    cbn. repeat split. rewrite map_map. apply map_ext. intros r.
    destruct (q_id r =? q_id question) eqn:E; [|reflexivity].
    apply Z.eqb_eq in E. simpl. congruence. }
  destruct (Answer_save per_page true now
              (set_a_page (i / Z.pos per_page + 1) a) question db)
    as [[self' question'] db1].
  cbn [snd] in Hstep. destruct Hstep as [H1 [H2 [H3 [H4 H5]]]].
  specialize (IH (i + 1) question' db1 Hl). cbn zeta in IH.
  destruct IH as [I1 [I2 [I3 [I4 I5]]]].
  cbn zeta. repeat split; congruence.
Qed.

(** X11: [update_answer_pages] writes pages and nothing of the rest: no answer is
    added or removed, no answer changes its id, question, creation time or
    spam flag; the answers of other questions and the spam answers keep their
    page and every other column; votes and visits are untouched, and no
    question is added or removed. *)
Theorem update_answer_pages_only_pages :
  forall (ANSWERS_PER_PAGE : positive) (now : datetime) (question_id : Z)
         (db : DB) (question : Question),
    answers_keyed db ->
    Question_objects_get question_id db = Ok question ->
    (exists g,
       answers (store (update_answer_pages ANSWERS_PER_PAGE now question_id db))
       = map g (answers db)
       /\ (forall r, In r (answers db) -> same_key (g r) r)
       /\ (forall r, In r (answers db) ->
             a_question r <> question_id \/ a_is_spam r = true -> g r = r))
    /\ question_votes
         (store (update_answer_pages ANSWERS_PER_PAGE now question_id db))
       = question_votes db
    /\ answer_votes
         (store (update_answer_pages ANSWERS_PER_PAGE now question_id db))
       = answer_votes db
    /\ question_visits
         (store (update_answer_pages ANSWERS_PER_PAGE now question_id db))
       = question_visits db
    /\ map q_id
         (questions
            (store (update_answer_pages ANSWERS_PER_PAGE now question_id db)))
       = map q_id (questions db).
Proof.
  intros P now question_id db question Hkeyed Hget.
  split.
  - destruct (update_answer_pages_rows P now question_id db question Hkeyed Hget)
      as [g [Hrows [Hkey [_ Hother]]]].
    exists g. split; [exact Hrows|]. split; [exact Hkey|].
    intros r Hr Hout. apply (Hother r Hr). intros Hin.
    apply numbered_answers_In in Hin. destruct Hin as [_ [Hq Hs]].
    destruct Hout as [Hne | Hspam]; congruence.
  - destruct Hkeyed as [_ Hsome].
    destruct (get_found _ _ _ Hget) as [_ Hqid].
    unfold update_answer_pages. rewrite Hget.
    assert (Hids : Forall (fun a => a_id a <> None)
                     (filter not_spam
                        (order_by created_asc
                           (question_answers (q_id question) db)))).
    { apply Forall_forall. intros a Ha. apply filter_In in Ha.
      destruct Ha as [Ha _]. apply order_by_In in Ha.
      unfold question_answers in Ha. apply filter_In in Ha.
      rewrite Forall_forall in Hsome. apply Hsome. tauto. }
    pose proof (loop_other_tables P now _ 0 question db Hids) as Hloop.
    cbn zeta in Hloop.
    destruct (update_answer_pages_loop P now 0 _ question db) as [q' db'].
    cbn [snd store] in *. destruct Hloop as [H1 [H2 [H3 [_ H5]]]]. auto.
Qed.

Lemma update_answer_pages_only_pages_witness :
  question_votes (store (update_answer_pages 20 sample_now 1 newer_spam_db))
  = question_votes newer_spam_db
  /\ map q_id (questions (store (update_answer_pages 20 sample_now 1 newer_spam_db)))
     = map q_id (questions newer_spam_db).
Proof.
  assert (Hkeyed : answers_keyed newer_spam_db).
  { split.
    - repeat constructor; simpl; intuition discriminate.
    - repeat constructor; discriminate. }
  destruct (update_answer_pages_only_pages 20 sample_now 1 newer_spam_db
              (mkQuestion 1 10 0 (4 * HOUR) false (Some 2) 2 None 0 None None)
              Hkeyed eq_refl) as [_ [H1 [_ [_ H5]]]].
  split; [exact H1 | exact H5].
Defined.

Lemma get_same_ids (k : Z) (l l' : list Question) :
  map q_id l = map q_id l' ->
  forall q, find (fun r => q_id r =? k) l = Some q ->
  exists q', find (fun r => q_id r =? k) l' = Some q'.
Proof.
  revert l'. induction l as [|x l IH]; intros [|x' l'] Hids q Hfind;
    try discriminate.
  simpl in Hids. injection Hids as Hx Hl. simpl in *. rewrite <- Hx.
  destruct (q_id x =? k); [eexists; reflexivity|].
  exact (IH l' Hl q Hfind).
Qed.

Lemma numbered_answers_map (g : Answer -> Answer) (question_id : Z)
    (table : list Answer) :
  (forall r, In r table -> same_key (g r) r) ->
  filter not_spam
    (order_by created_asc
       (filter (fun a => a_question a =? question_id) (map g table)))
  = map g
      (filter not_spam
         (order_by created_asc
            (filter (fun a => a_question a =? question_id) table))).
Proof.
  intros Hkey.
  assert (Hsub : forall x,
            In x (filter (fun a => a_question a =? question_id) table) ->
            In x table)
    by (intros x Hx; apply filter_In in Hx; tauto).
  rewrite filter_map_invariant
    by (intros x Hx; destruct (Hkey x Hx) as [_ [Hq _]]; rewrite Hq; reflexivity).
  rewrite order_by_map
    by (intros x y Hx Hy; unfold created_asc;
        destruct (Hkey x (Hsub x Hx)) as [_ [_ [Hcx _]]];
        destruct (Hkey y (Hsub y Hy)) as [_ [_ [Hcy _]]];
        rewrite Hcx, Hcy; reflexivity).
  rewrite filter_map_invariant
    by (intros x Hx; apply order_by_In in Hx; unfold not_spam;
        destruct (Hkey x (Hsub x Hx)) as [_ [_ [_ Hs]]];
        rewrite Hs; reflexivity).
  reflexivity.
Qed.

(** X12: Recomputing the pages twice gives the pages of recomputing once,
    whenever the second run happens. *)
Theorem update_answer_pages_idempotent :
  forall (ANSWERS_PER_PAGE : positive) (now later : datetime) (question_id : Z)
         (db : DB) (question : Question),
    answers_keyed db ->
    Question_objects_get question_id db = Ok question ->
    map a_page
      (answers
         (store (update_answer_pages ANSWERS_PER_PAGE later question_id
                   (store (update_answer_pages ANSWERS_PER_PAGE now
                             question_id db)))))
    = map a_page
        (answers (store (update_answer_pages ANSWERS_PER_PAGE now
                           question_id db))).
Proof.
  intros P now later question_id db question Hkeyed Hget.
  destruct (update_answer_pages_rows P now question_id db question Hkeyed Hget)
    as [g [Hrows [Hkey [Hnum Hother]]]].
  set (db1 := store (update_answer_pages P now question_id db)) in *.
  assert (Hkeyed1 : answers_keyed db1).
  { destruct Hkeyed as [Hnd Hsome]. split.
    - rewrite Hrows, map_map.
      erewrite map_ext_in; [exact Hnd|].
      intros r Hr. destruct (Hkey r Hr) as [Hid _]. exact Hid.
    - rewrite Hrows. apply Forall_forall. intros a Ha.
      apply in_map_iff in Ha. destruct Ha as [r [<- Hr]].
      destruct (Hkey r Hr) as [Hid _]. rewrite Hid.
      rewrite Forall_forall in Hsome. auto. }
  assert (Hget1 : exists q1, Question_objects_get question_id db1 = Ok q1).
  { assert (Hids : map q_id (questions db) = map q_id (questions db1)).
    { symmetry. unfold db1.
      destruct Hkeyed as [_ Hsome].
      unfold update_answer_pages. rewrite Hget.
      assert (Hf : Forall (fun a => a_id a <> None)
                     (filter not_spam
                        (order_by created_asc
                           (question_answers (q_id question) db)))).
      { apply Forall_forall. intros a Ha. apply filter_In in Ha.
        destruct Ha as [Ha _]. apply order_by_In in Ha.
        unfold question_answers in Ha. apply filter_In in Ha.
        rewrite Forall_forall in Hsome. apply Hsome. tauto. }
      pose proof (loop_other_tables P now _ 0 question db Hf) as Hloop.
      cbn zeta in Hloop.
      destruct (update_answer_pages_loop P now 0 _ question db) as [q' db'].
      cbn [snd store] in *. tauto. }
    unfold Question_objects_get in *.
    destruct (find _ (questions db)) as [q|] eqn:Hf; [|discriminate].
    destruct (get_same_ids question_id _ _ Hids q Hf) as [q1 Hq1].
    exists q1. rewrite Hq1. reflexivity. }
  destruct Hget1 as [q1 Hget1].
  destruct (update_answer_pages_rows P later question_id db1 q1 Hkeyed1 Hget1)
    as [g1 [Hrows1 [_ [Hnum1 Hother1]]]].
  assert (HL1 : numbered_answers question_id db1
                = map g (numbered_answers question_id db)).
  { unfold numbered_answers, question_answers. rewrite Hrows.
    apply numbered_answers_map. exact Hkey. }
  rewrite Hrows1, Hrows, !map_map. apply map_ext_in. intros r Hr.
  destruct ((a_question r =? question_id) && negb (a_is_spam r)) eqn:E.
  - apply andb_true_iff in E. destruct E as [Eq Es].
    apply Z.eqb_eq in Eq. apply negb_true_iff in Es.
    assert (Hin : In r (numbered_answers question_id db))
      by (apply numbered_answers_In; auto).
    apply In_nth_error in Hin. destruct Hin as [i Hi].
    assert (Hi1 : nth_error (numbered_answers question_id db1) i = Some (g r)).
    { rewrite HL1, nth_error_map, Hi. reflexivity. }
    rewrite (Hnum1 i (g r) Hi1). rewrite (Hnum i r Hi). reflexivity.
  - assert (Hout : ~ In r (numbered_answers question_id db)).
    { intros Hin. apply numbered_answers_In in Hin.
      destruct Hin as [_ [Hq Hs]]. rewrite Hq, Hs, Z.eqb_refl in E.
      discriminate. }
    rewrite (Hother r Hr Hout).
    rewrite Hother1; [reflexivity | |].
    + rewrite Hrows. apply in_map_iff. exists r. split; [|exact Hr].
      exact (Hother r Hr Hout).
    + intros Hin. apply numbered_answers_In in Hin.
      destruct Hin as [_ [Hq Hs]]. rewrite Hq, Hs, Z.eqb_refl in E.
      discriminate.
Qed.

Lemma update_answer_pages_idempotent_witness :
  map a_page
    (answers
       (store (update_answer_pages 1 (6 * HOUR) 1
                 (store (update_answer_pages 1 (5 * HOUR) 1 newer_spam_db)))))
  = map a_page
      (answers (store (update_answer_pages 1 (5 * HOUR) 1 newer_spam_db))).
Proof.
  apply (update_answer_pages_idempotent 1 (5 * HOUR) (6 * HOUR) 1 newer_spam_db
           (mkQuestion 1 10 0 (4 * HOUR) false (Some 2) 2 None 0 None None)).
  - split.
    + repeat constructor; simpl; intuition discriminate.
    + repeat constructor; discriminate.
  - reflexivity.
Defined.

(** ** Recomputing the pages: the question *)

Lemma Answer_save_in_step (per_page : positive) (now : datetime)
    (self : Answer) (question q0 : Question) (db : DB) :
  a_id self <> None ->
  Question_objects_get (q_id question) db = Ok q0 ->
  question_in_step now (q_id question)
    (snd (fst (Answer_save per_page true now self question db)))
    (snd (Answer_save per_page true now self question db))
  /\ q_id (snd (fst (Answer_save per_page true now self question db)))
     = q_id question.
Proof.
  intros Hid Hrow. unfold Answer_save.
  destruct (a_id self) as [k|] eqn:Ek; [|congruence].
  set (self1 := set_a_updated now self).
  set (db1 := update_answer_row self1 db).
  fold (visible_answers (q_id question) db1).
  set (question1 := set_q_last_answer _ (set_q_num_answers _ question)).
  pose proof (get_after_save true now question1 db1) as Hget.
  change (q_id question1) with (q_id question) in Hget.
  change (Question_objects_get (q_id question) db1)
    with (Question_objects_get (q_id question) db) in Hget.
  rewrite Hrow in Hget.
  unfold Question_save in *. cbn [fst snd] in *.
  split; [|reflexivity].
  split; [exact Hget|]. split; [reflexivity|]. split; [reflexivity|].
  change (visible_answers (q_id question) (update_question_row _ db1))
    with (visible_answers (q_id question) db1).
  cbn [q_last_answer set_q_updated]. unfold question1.
  cbn [q_last_answer set_q_last_answer].
  destruct (order_by created_desc (visible_answers (q_id question) db1))
    as [|h t] eqn:Hsort.
  - left. split; [|reflexivity].
    pose proof (order_by_perm created_desc (visible_answers (q_id question) db1))
      as Hp.
    rewrite Hsort in Hp. apply Permutation_nil in Hp. exact Hp.
  - right. exists h. destruct (newest_first _ _ _ Hsort) as [Hin Hmax].
    auto.
Qed.

Lemma loop_in_step (per_page : positive) (now : datetime) (l : list Answer) :
  forall i question q0 db,
    l <> [] ->
    Forall (fun a => a_id a <> None) l ->
    Question_objects_get (q_id question) db = Ok q0 ->
    question_in_step now (q_id question)
      (fst (update_answer_pages_loop per_page now i l question db))
      (snd (update_answer_pages_loop per_page now i l question db)).
Proof.
  induction l as [|a l IH]; intros i question q0 db Hne Hids Hrow;
    [congruence|].
  inversion Hids as [|? ? Ha Hl]; subst.
  cbn [update_answer_pages_loop].
  destruct (Answer_save_in_step per_page now
              (set_a_page (i / Z.pos per_page + 1) a) question q0 db Ha Hrow)
    as [Hstep Hsame].
  destruct (Answer_save per_page true now
              (set_a_page (i / Z.pos per_page + 1) a) question db)
    as [[self' question'] db1].
  cbn [fst snd] in Hstep, Hsame.
  destruct l as [|b l'].
  - exact Hstep.
  - rewrite <- Hsame. apply (IH (i + 1) question' question' db1).
    + discriminate.
    + exact Hl.
    + rewrite Hsame. destruct Hstep as [Hget _]. exact Hget.
Qed.

(** X13: Recomputing the pages of a question that has an answer to number also
    brings the question up to date: its row gets the time of the run as
    [updated], the number of its answers that are no spam as [num_answers],
    and a newest of them as [last_answer].  With no answer to number the
    store is left as it is. *)
Theorem update_answer_pages_refreshes_question :
  forall (ANSWERS_PER_PAGE : positive) (now : datetime) (question_id : Z)
         (db : DB) (question : Question),
    answers_keyed db ->
    Question_objects_get question_id db = Ok question ->
    (numbered_answers question_id db = [] ->
     store (update_answer_pages ANSWERS_PER_PAGE now question_id db) = db)
    /\ (numbered_answers question_id db <> [] ->
        exists q',
          question_in_step now question_id q'
            (store (update_answer_pages ANSWERS_PER_PAGE now question_id db))).
Proof.
  intros P now question_id db question [_ Hsome] Hget.
  destruct (get_found _ _ _ Hget) as [_ Hqid].
  unfold update_answer_pages. rewrite Hget, Hqid.
  fold (numbered_answers question_id db). split.
  - intros ->. reflexivity.
  - intros Hne.
    assert (Hids : Forall (fun a => a_id a <> None)
                     (numbered_answers question_id db)).
    { apply Forall_forall. intros a Ha. apply numbered_answers_In in Ha.
      rewrite Forall_forall in Hsome. apply Hsome. tauto. }
    rewrite <- Hqid in Hget.
    pose proof (loop_in_step P now _ 0 question question db Hne Hids Hget)
      as Hloop.
    rewrite Hqid in Hloop.
    destruct (update_answer_pages_loop P now 0 _ question db) as [q' db'].
    exists q'. exact Hloop.
Qed.

Lemma update_answer_pages_refreshes_question_witness :
  exists q',
    question_in_step (5 * HOUR) 1 q'
      (store (update_answer_pages 20 (5 * HOUR) 1 newer_spam_db)).
Proof.
  assert (Hkeyed : answers_keyed newer_spam_db).
  { split.
    - repeat constructor; simpl; intuition discriminate.
    - repeat constructor; discriminate. }
  assert (Hget : Question_objects_get 1 newer_spam_db
                 = Ok (mkQuestion 1 10 0 (4 * HOUR) false (Some 2) 2 None 0
                         None None))
    by reflexivity.
  assert (Hne : numbered_answers 1 newer_spam_db <> [])
    by (vm_compute; discriminate).
  exact (proj2 (update_answer_pages_refreshes_question 20 (5 * HOUR) 1
                  newer_spam_db _ Hkeyed Hget) Hne).
Defined.

(** ** Votes of the past week: the two paths and the chunks *)

Lemma with_questions_same (db : DB) : with_questions (questions db) db = db.
Proof. destruct db; reflexivity. Qed.

(** X14: The task for one question and the bulk update of a chunk that holds
    only that question leave the same store. *)
Theorem vote_sync_paths_agree :
  forall (now : datetime) (question_id : Z) (db : DB) (question : Question),
    questions_keyed db ->
    Question_objects_get question_id db = Ok question ->
    store (update_question_votes now question_id db)
    = store (update_question_vote_chunk now [question_id] db).
Proof.
  intros now question_id db question Hkeyed Hget.
  destruct (get_found _ _ _ Hget) as [Hin Hqid].
  unfold update_question_votes, update_question_vote_chunk.
  rewrite Hget. unfold sync_num_votes_past_week, Question_save.
  cbn [store]. unfold update_question_row. rewrite midnight_shift.
  f_equal. apply map_ext_in. intros r Hr.
  cbn [q_id set_q_num_votes_past_week existsb]. rewrite orb_false_r.
  rewrite Hqid. destruct (q_id r =? question_id) eqn:E; [|reflexivity].
  apply Z.eqb_eq in E.
  assert (r = question).
  { apply (keyed_row_unique q_id (questions db)); auto. congruence. }
  subst r. rewrite Hqid.
  destruct (votes_in_range _ now question_id db =? 0) eqn:E0; cbn [coalesce].
  - apply Z.eqb_eq in E0. rewrite E0. reflexivity.
  - reflexivity.
Qed.

Lemma vote_sync_paths_agree_witness :
  store (update_question_votes sample_now 1 voted_db)
  = store (update_question_vote_chunk sample_now [1] voted_db).
Proof.
  apply (vote_sync_paths_agree sample_now 1 voted_db sample_question).
  - repeat constructor. simpl. tauto.
  - reflexivity.
Defined.

Lemma chunk_row (now : datetime) (ids : list Z) (db : DB) (q : Question) :
  (if existsb (Z.eqb (q_id q)) ids
   then set_q_num_votes_past_week
          (coalesce
             (if votes_in_range (midnight (now - timedelta_days 7)) now
                   (q_id q) db =? 0
              then None
              else Some (votes_in_range (midnight (now - timedelta_days 7)) now
                           (q_id q) db)) 0) q
   else q)
  = (if existsb (Z.eqb (q_id q)) ids
     then set_q_num_votes_past_week
            (votes_in_range (midnight (now - timedelta_days 7)) now (q_id q) db)
            q
     else q).
Proof.
  destruct (existsb (Z.eqb (q_id q)) ids); [|reflexivity].
  destruct (votes_in_range _ now (q_id q) db =? 0) eqn:E0; cbn [coalesce];
    [|reflexivity].
  apply Z.eqb_eq in E0. rewrite E0. reflexivity.
Qed.

(** X15: The bulk update does not depend on how the questions are cut into
    chunks: one chunk after another, at the same time, leaves the store of
    the two chunks taken as one; an empty chunk changes nothing. *)
Theorem vote_chunks_compose :
  forall (now : datetime) (ids ids' : list Z) (db : DB),
    store (update_question_vote_chunk now ids'
             (store (update_question_vote_chunk now ids db)))
    = store (update_question_vote_chunk now (ids ++ ids') db)
    /\ store (update_question_vote_chunk now [] db) = db.
Proof.
  intros now ids ids' db. split.
  - unfold update_question_vote_chunk. cbn [store].
    unfold with_questions. cbn [questions answers question_votes answer_votes
                                question_visits next_answer_id].
    f_equal. rewrite map_map. apply map_ext. intros q.
    change (votes_in_range ?lo ?hi ?k
              (mkDB _ (answers db) (question_votes db) (answer_votes db)
                 (question_visits db) (next_answer_id db)))
      with (votes_in_range lo hi k db).
    rewrite !(chunk_row now _ db).
    rewrite existsb_app.
    destruct (existsb (Z.eqb (q_id q)) ids) eqn:E1.
    + cbn [q_id set_q_num_votes_past_week orb].
      destruct (existsb (Z.eqb (q_id q)) ids'); reflexivity.
    + cbn [orb]. destruct (existsb (Z.eqb (q_id q)) ids'); reflexivity.
  - unfold update_question_vote_chunk. cbn [store existsb].
    rewrite map_id. apply with_questions_same.
Qed.

(** ** Reload of the visit counts: what it can raise *)

Lemma dict_get_key {V : Type} (d : dict V) (k : Z) :
  In k (map fst d) -> exists v, dict_get d k = Some v.
Proof.
  unfold dict_get. induction d as [|[k' v'] d IH]; simpl; [contradiction|].
  intros [-> | Hin].
  - rewrite Z.eqb_refl. eexists. reflexivity.
  - destruct (k' =? k); [eexists; reflexivity | exact (IH Hin)].
Qed.

Lemma instances_for_found (d : dict VisitsInstance) (ids : list Z) :
  (forall id, In id ids -> In id (map fst d)) ->
  exists instances, instances_for d ids = Ok instances.
Proof.
  induction ids as [|id ids IH]; intros Hsub; [eexists; reflexivity|].
  destruct IH as [insts Hok]; [intros x Hx; apply Hsub; right; exact Hx|].
  destruct (dict_get_key d id (Hsub id (or_introl eq_refl))) as [inst Hinst].
  simpl. rewrite Hinst, Hok. eexists. reflexivity.
Qed.

(** An entry of the dict, or an item of the pageviews, whose count does not
    fit the [visits] column. *)
Lemma instances_for_unfit (d : dict VisitsInstance) (ids : list Z) :
  forall instances,
    instances_for d ids = Ok instances ->
    forallb (fun i => fits_IntegerField (vi_visits i)) instances = false ->
    exists kv, In kv d /\ fits_IntegerField (vi_visits (snd kv)) = false.
Proof.
  induction ids as [|id ids IH]; intros instances; simpl.
  - intros H. injection H as <-. discriminate.
  - destruct (dict_get d id) as [inst|] eqn:Hget; [|discriminate].
    destruct (instances_for d ids) as [insts|e]; [|discriminate].
    simpl. intros H. injection H as <-. simpl.
    destruct (fits_IntegerField (vi_visits inst)) eqn:Hinst; simpl.
    + apply IH. reflexivity.
    + intros _. destruct (dict_get_entry d id inst Hget) as [k Hin].
      exists (k, inst). auto.
Qed.

Lemma dict_set_In {V : Type} (d : dict V) (k : Z) (v : V) (kv : Z * V) :
  In kv (dict_set d k v) -> In kv d \/ kv = (k, v).
Proof.
  unfold dict_set. destruct (mem k (map fst d)).
  - intros H. apply in_map_iff in H. destruct H as [kv' [Heq Hin]].
    destruct (fst kv' =? k); [right; congruence | left; congruence].
  - intros H. apply in_app_or in H. destruct H as [H | [H | []]]; auto.
Qed.

Lemma create_batch_raises (d : dict VisitsInstance) (batch : list Z)
    (w w' : world) (e : exn) :
  (forall id, In id batch -> In id (map fst d)) ->
  create_batch d batch w = (Raise e, w') ->
  e = IntegrityError
  \/ (e = DataError
      /\ exists kv, In kv d /\ fits_IntegerField (vi_visits (snd kv)) = false).
Proof.
  intros Hsub. unfold create_batch, mbind, lift.
  destruct (instances_for_found d (existing_question_ids batch (w_db w)))
    as [insts Hok].
  { intros id Hid. apply existing_question_ids_In in Hid. apply Hsub. tauto. }
  rewrite Hok. unfold interleave, bulk_create.
  destruct (forallb (fun i => fits_IntegerField (vi_visits i)) insts) eqn:Hfit;
    cbn [negb].
  - destruct (w_races w); cbn [w_db w_races w_external];
      destruct (_ && _); intros H; inversion H; left; reflexivity.
  - pose proof (instances_for_unfit d _ insts Hok Hfit) as Hunfit.
    destruct (w_races w); cbn [w_db w_races w_external];
      intros H; inversion H; right; auto.
Qed.

Lemma create_batch_with_retry_raises (d : dict VisitsInstance)
    (batch : list Z) (w w' : world) (e : exn) :
  (forall id, In id batch -> In id (map fst d)) ->
  create_batch_with_retry d batch w = (Raise e, w') ->
  e = IntegrityError
  \/ (e = DataError
      /\ exists kv, In kv d /\ fits_IntegerField (vi_visits (snd kv)) = false).
Proof.
  intros Hsub. unfold create_batch_with_retry, except_IntegrityError, atomic.
  destruct (create_batch d batch w) as [[[]|e1] w1] eqn:H1.
  - discriminate.
  - pose proof (create_batch_raises d batch w w1 e1 Hsub H1) as Hfirst.
    destruct e1; try (now intros H; injection H as <- _; exact Hfirst).
    apply create_batch_raises. exact Hsub.
Qed.

Lemma create_batches_raises (d : dict VisitsInstance) (batches : list (list Z)) :
  forall w w' e,
    (forall id, In id (List.concat batches) -> In id (map fst d)) ->
    create_batches d batches w = (Raise e, w') ->
    e = IntegrityError
    \/ (e = DataError
        /\ exists kv, In kv d /\ fits_IntegerField (vi_visits (snd kv)) = false).
Proof.
  induction batches as [|batch rest IH]; intros w w' e Hsub; [discriminate|].
  cbn [create_batches]. unfold mbind.
  destruct (create_batch_with_retry d batch w) as [[[]|e1] w1] eqn:H1.
  - apply IH. intros id Hid. apply Hsub. simpl. apply in_or_app. auto.
  - intros H. injection H as <- _.
    apply (create_batch_with_retry_raises d batch w w1 e1); [|exact H1].
    intros id Hid. apply Hsub. simpl. apply in_or_app. auto.
Qed.

Lemma reload_loop_raises (total_count : Z) (items : list (Z * Z)) :
  forall i d w w' e,
    reload_loop total_count i d items w = (Raise e, w') ->
    e = IntegrityError
    \/ (e = DataError
        /\ ((exists kv, In kv d /\ fits_IntegerField (vi_visits (snd kv)) = false)
            \/ exists item,
                 In item items /\ fits_IntegerField (snd item) = false)).
Proof.
  induction items as [|[k visits] rest IH]; intros i d w w' e; [discriminate|].
  cbn [reload_loop].
  set (d' := dict_set d k (mkVisitsInstance k visits)).
  assert (Hd' : (exists kv, In kv d'
                            /\ fits_IntegerField (vi_visits (snd kv)) = false) ->
                (exists kv, In kv d
                            /\ fits_IntegerField (vi_visits (snd kv)) = false)
                \/ exists item,
                     In item ((k, visits) :: rest)
                     /\ fits_IntegerField (snd item) = false).
  { intros [kv [Hin Hunfit]]. apply dict_set_In in Hin.
    destruct Hin as [Hin | ->].
    - left. exists kv. auto.
    - right. exists (k, visits). split; [left; reflexivity | exact Hunfit]. }
  assert (Hrest : (exists item, In item rest
                                /\ fits_IntegerField (snd item) = false) ->
                  exists item,
                    In item ((k, visits) :: rest)
                    /\ fits_IntegerField (snd item) = false).
  { intros [item [Hin Hunfit]]. exists item. split; [right|]; assumption. }
  destruct (negb (i mod 30000 =? 0) && negb (i =? total_count)).
  - intros H. apply IH in H.
    destruct H as [H | [He [H | H]]]; [left; exact H | right | right];
      (split; [exact He|]); auto.
  - unfold mbind. unfold delete_stale at 1.
    destruct (create_batches d' (chunked (map fst d') 1000) _)
      as [[[]|e1] w1] eqn:H1.
    + intros H. apply IH in H.
      destruct H as [H | [He [[kv [[] _]] | H]]]; [left; exact H | right].
      split; [exact He | right; auto].
    + intros H. injection H as <- _.
      apply (create_batches_raises d' _ _ _ _) in H1.
      * destruct H1 as [H1 | [He H1]]; [left; exact H1 | right].
        split; [exact He | auto].
      * intros id Hid. rewrite chunked_concat in Hid by lia. exact Hid.
Qed.

(** X16: Whatever the pageviews and whatever other sessions do, a reload
    raises nothing but [IntegrityError], or [DataError] when one of the
    counts does not fit the [visits] column: every id it looks up in its
    dict of instances is a key of that dict. *)
Theorem reload_raises_IntegrityError_or_DataError :
  forall (pageviews : list (Z * Z)) (w w' : world) (e : exn),
    reload_from_analytics pageviews w = (Raise e, w') ->
    e = IntegrityError
    \/ (e = DataError
        /\ exists item,
             In item pageviews /\ fits_IntegerField (snd item) = false).
Proof.
  intros pageviews w w' e. unfold reload_from_analytics, atomic.
  destruct (reload_loop (count pageviews) 1 [] pageviews w)
    as [[[]|e1] w1] eqn:H1; [discriminate|].
  intros H. injection H as <- _.
  apply reload_loop_raises in H1.
  destruct H1 as [H1 | [He [[kv [[] _]] | H1]]]; [left; exact H1 | right].
  split; [exact He | exact H1].
Qed.

Lemma reload_raises_IntegrityError_or_DataError_witness :
  IntegrityError = IntegrityError
  \/ (IntegrityError = DataError
      /\ exists item,
           In item test_pageviews /\ fits_IntegerField (snd item) = false).
Proof.
  apply (reload_raises_IntegrityError_or_DataError test_pageviews
           (mkWorld visits_db [[2]; [3]] [])
           (mkWorld (concurrent_delete [2; 3] visits_db) [] [2; 3])
           IntegrityError).
  vm_compute. reflexivity.
Defined.

(** A count of 2^31 for question 2: the reload raises [DataError] and the
    visits are those of before. *)
Example reload_count_out_of_range :
  reload_from_analytics [(1, 42); (2, 2147483648)] (quiet visits_db)
  = (Raise DataError, quiet visits_db).
Proof. vm_compute. reflexivity. Qed.

(** ** Reload of the visit counts: reading the counts back *)

Lemma keyed_filter_one {A : Type} (key : A -> Z) (l : list A) (x : A) :
  NoDup (map key l) -> In x l ->
  filter (fun y => key y =? key x) l = [x].
Proof.
  induction l as [|y l IH]; simpl; [contradiction|].
  rewrite NoDup_cons_iff. intros [Hfresh Hnd] [-> | Hin].
  - rewrite Z.eqb_refl. f_equal.
    destruct (filter (fun y => key y =? key x) l) as [|a rest] eqn:Hf;
      [reflexivity|].
    assert (Ha : In a (filter (fun y => key y =? key x) l))
      by (rewrite Hf; left; reflexivity).
    apply filter_In in Ha. destruct Ha as [Ha Hk]. apply Z.eqb_eq in Hk.
    exfalso. apply Hfresh. rewrite <- Hk. apply in_map. exact Ha.
  - destruct (key y =? key x) eqn:E.
    + apply Z.eqb_eq in E. exfalso. apply Hfresh. rewrite E. apply in_map.
      exact Hin.
    + exact (IH Hnd Hin).
Qed.

Lemma filter_nothing {A : Type} (p : A -> bool) (l : list A) :
  (forall x, In x l -> p x = false) -> filter p l = [].
Proof.
  induction l as [|x l IH]; intros Hp; simpl; [reflexivity|].
  rewrite (Hp x (or_introl eq_refl)). apply IH.
  intros y Hy. apply Hp. right. exact Hy.
Qed.

(** X17: After a reload without interference and with counts that fit the
    [visits] column, [num_visits] of a question that the pageviews mention,
    read on an instance that has not cached it, is the count of the
    pageviews, whatever was stored before; for any other question it is
    what it was. *)
Theorem reload_then_num_visits :
  forall (pageviews : list (Z * Z)) (db : DB) (self : Question),
    NoDup (map fst pageviews) ->
    pageviews_fit pageviews ->
    questions_keyed db ->
    In self (questions db) ->
    (forall visits,
       In (q_id self, visits) pageviews ->
       num_visits self
         (w_db (snd (reload_from_analytics pageviews (quiet db))))
       = Visits (Some visits))
    /\ (~ In (q_id self) (map fst pageviews) ->
        num_visits self
          (w_db (snd (reload_from_analytics pageviews (quiet db))))
        = num_visits self db).
Proof.
  intros pageviews db self Hnd Hviews Hq Hself.
  rewrite (reload_quiet pageviews db Hnd Hviews Hq).
  set (rows := loop_rows (count pageviews) 1 [] pageviews db).
  destruct (loop_rows_spec (count pageviews) pageviews db Hq 1 [])
    as [Hrows_nd Hrows_in];
    [exact Hnd | constructor | unfold count; lia | reflexivity |].
  fold rows in Hrows_nd, Hrows_in. simpl in Hrows_in.
  unfold num_visits, quiet.
  cbn [snd w_db question_visits with_question_visits].
  rewrite filter_app. split.
  - intros visits Hitem.
    assert (Hkey : In (q_id self) (map fst pageviews)).
    { change (q_id self) with (fst (q_id self, visits)). apply in_map.
      exact Hitem. }
    rewrite (filter_nothing _ (kept (map fst pageviews) (question_visits db))).
    + assert (Hrow : In (mkQuestionVisits (q_id self) visits) rows).
      { apply Hrows_in. exists (mkVisitsInstance (q_id self) visits).
        cbn [v_question v_visits vi_visits]. split; [|split; [|reflexivity]].
        - apply in_map_iff. exists (q_id self, visits). auto.
        - apply in_map. exact Hself. }
      pose proof (keyed_filter_one v_question rows _ Hrows_nd Hrow) as Hone.
      cbn [v_question] in Hone. cbn [app]. rewrite Hone. reflexivity.
    + intros v Hv. apply kept_In in Hv. destruct Hv as [_ Hout].
      apply Z.eqb_neq. intros Heq. apply Hout. rewrite Heq. exact Hkey.
  - intros Hout.
    rewrite (filter_nothing _ rows).
    + rewrite app_nil_r. unfold kept. rewrite filter_twice.
      rewrite (filter_ext _ (fun v => v_question v =? q_id self));
        [reflexivity|].
      intros v.
      destruct (v_question v =? q_id self) eqn:E;
        [|apply andb_false_r].
      apply Z.eqb_eq in E. rewrite E.
      apply mem_not_In in Hout. rewrite Hout. reflexivity.
    + intros v Hv. apply Hrows_in in Hv.
      destruct Hv as [inst [Hentry _]].
      apply in_map_iff in Hentry. destruct Hentry as [item [Hitem Hin]].
      injection Hitem as Hk _.
      apply Z.eqb_neq. intros Heq. apply Hout. rewrite <- Heq, <- Hk.
      apply in_map. exact Hin.
Qed.

Lemma reload_then_num_visits_witness :
  num_visits (asked 1)
    (w_db (snd (reload_from_analytics test_pageviews (quiet visits_db))))
  = Visits (Some 42).
Proof.
  apply (proj1 (reload_then_num_visits test_pageviews visits_db (asked 1)
                  ltac:(apply distinct_NoDup; reflexivity)
                  ltac:(repeat constructor)
                  ltac:(apply distinct_NoDup; reflexivity)
                  (or_introl eq_refl)) 42).
  left. reflexivity.
Defined.

(** ** Votes in total and of the past week *)

Lemma count_filter_le {A : Type} (p : A -> bool) (l : list A) :
  0 <= count (filter p l) <= count l.
Proof.
  unfold count. pose proof (filter_length_le p l). lia.
Qed.

(** X18: The number that [sync_num_votes_past_week] returns and stores lies
    between zero and [num_votes], whatever the clock says. *)
Theorem votes_past_week_at_most_num_votes
    (now : datetime) (self : Question) (db : DB) :
  let '(n, self') := sync_num_votes_past_week now self db in
  0 <= n <= num_votes self db /\ q_num_votes_past_week self' = n.
Proof.
  unfold sync_num_votes_past_week, votes_in_range, num_votes. simpl.
  split; [|reflexivity].
  set (p := fun v => in_range (midnight now - timedelta_days 7) now (qv_created v)).
  rewrite (filter_ext _
             (fun v => (qv_question v =? q_id self) && p v))
    by (intros v; reflexivity).
  assert (Hsplit : forall l,
             filter (fun v => (qv_question v =? q_id self) && p v) l
             = filter p (filter (fun v => qv_question v =? q_id self) l)).
  { induction l as [|v l IH]; simpl; [reflexivity|].
    destruct (qv_question v =? q_id self); simpl; [|exact IH].
    destruct (p v); simpl; rewrite IH; reflexivity. }
  rewrite Hsplit. apply count_filter_le.
Qed.

(** ** Vote metadata *)



(** ** Version numbers *)

Section Versions.

Variable is_decimal : N -> bool.

Lemma span_digits_fst (s : list N) :
  all_digits is_decimal (fst (span_digits is_decimal s)) = true.
Proof.
  induction s as [|c s IH]; simpl; [reflexivity|].
  destruct (is_decimal c) eqn:Hc; [|reflexivity].
  destruct (span_digits is_decimal s) as [digits tail]. simpl in *.
  rewrite Hc, IH. reflexivity.
Qed.

Lemma span_digits_parts (s : list N) :
  fst (span_digits is_decimal s) ++ snd (span_digits is_decimal s) = s.
Proof.
  induction s as [|c s IH]; simpl; [reflexivity|].
  destruct (is_decimal c); [|reflexivity].
  destruct (span_digits is_decimal s) as [digits tail]. simpl in *.
  rewrite IH. reflexivity.
Qed.

(** What follows the run of digits starts with no digit. *)
Lemma span_digits_snd (s : list N) :
  fst (span_digits is_decimal (snd (span_digits is_decimal s))) = [].
Proof.
  induction s as [|c s IH]; simpl; [reflexivity|].
  destruct (is_decimal c) eqn:Hc.
  - destruct (span_digits is_decimal s) as [digits tail]. simpl in *. exact IH.
  - simpl. rewrite Hc. reflexivity.
Qed.

Lemma span_digits_append (ds s : list N) :
  all_digits is_decimal ds = true ->
  span_digits is_decimal (ds ++ s)
  = (ds ++ fst (span_digits is_decimal s), snd (span_digits is_decimal s)).
Proof.
  induction ds as [|c ds IH]; simpl; intros H.
  - destruct (span_digits is_decimal s); reflexivity.
  - apply andb_true_iff in H. destruct H as [Hc Hds].
    rewrite Hc, (IH Hds). reflexivity.
Qed.

Hypothesis full_stop_is_no_digit : is_decimal FULL_STOP = false.

(** The version that a match yields. *)
Lemma tenths_version_match (major minor tail : list N) :
  all_digits is_decimal major = true -> major <> [] ->
  all_digits is_decimal minor = true -> minor <> [] ->
  _tenths_version is_decimal (major ++ FULL_STOP :: minor ++ tail)
  = major ++ FULL_STOP :: minor ++ fst (span_digits is_decimal tail).
Proof.
  intros Hmajor Hne Hminor Hne'. unfold _tenths_version.
  rewrite (span_digits_append major _ Hmajor).
  cbn [span_digits]. rewrite full_stop_is_no_digit. cbn [fst snd].
  rewrite app_nil_r.
  destruct major as [|c major]; [congruence|].
  rewrite N.eqb_refl.
  rewrite (span_digits_append minor tail Hminor).
  destruct minor as [|d minor]; [congruence|]. reflexivity.
Qed.

(** The parts of a version that is not empty. *)
Lemma tenths_version_parts (s : list N) :
  _tenths_version is_decimal s <> [] ->
  exists major minor tail,
    all_digits is_decimal major = true /\ major <> []
    /\ all_digits is_decimal minor = true /\ minor <> []
    /\ fst (span_digits is_decimal tail) = []
    /\ s = major ++ FULL_STOP :: minor ++ tail
    /\ _tenths_version is_decimal s = major ++ FULL_STOP :: minor.
Proof.
  unfold _tenths_version.
  pose proof (span_digits_fst s) as Hmajor.
  pose proof (span_digits_parts s) as Hs.
  destruct (span_digits is_decimal s) as [major rest]. simpl in Hmajor, Hs.
  destruct major as [|a major]; [congruence|].
  destruct rest as [|c rest']; [congruence|].
  destruct (c =? FULL_STOP)%N eqn:Hc; [|congruence].
  apply N.eqb_eq in Hc. subst c.
  pose proof (span_digits_fst rest') as Hminor.
  pose proof (span_digits_parts rest') as Hrest.
  pose proof (span_digits_snd rest') as Htail.
  destruct (span_digits is_decimal rest') as [minor tail].
  simpl in Hminor, Hrest, Htail.
  destruct minor as [|b minor]; [congruence|]. intros _.
  exists (a :: major), (b :: minor), tail.
  repeat split; try assumption; try discriminate.
  rewrite Hrest. symmetry. exact Hs.
Qed.

End Versions.

(** X20: With the full stop no digit, [_tenths_version] returns the leading
    [major.minor] of a string that starts with digits, a full stop and
    digits, the minor number taken as long as it goes, and the empty string
    for every other string; the digits are those of the pattern's [\d],
    whatever their script. *)
Theorem tenths_version_leading_major_minor
    (is_decimal : N -> bool) (s : list N) :
  is_decimal FULL_STOP = false ->
  (_tenths_version is_decimal s = []
   /\ ~ exists major minor tail,
          all_digits is_decimal major = true /\ major <> []
          /\ all_digits is_decimal minor = true /\ minor <> []
          /\ s = major ++ FULL_STOP :: minor ++ tail)
  \/ (exists major minor tail,
        all_digits is_decimal major = true /\ major <> []
        /\ all_digits is_decimal minor = true /\ minor <> []
        /\ fst (span_digits is_decimal tail) = []
        /\ s = major ++ FULL_STOP :: minor ++ tail
        /\ _tenths_version is_decimal s = major ++ FULL_STOP :: minor).
Proof.
  intros Hstop.
  destruct (list_eq_dec N.eq_dec (_tenths_version is_decimal s) [])
    as [Hempty|Hfound].
  - left. split; [exact Hempty|].
    intros (major & minor & tail & Hmajor & Hne & Hminor & Hne' & ->).
    rewrite (tenths_version_match is_decimal Hstop _ _ _
               Hmajor Hne Hminor Hne') in Hempty.
    destruct major; [congruence | discriminate].
  - right. apply tenths_version_parts. exact Hfound.
Qed.

(** The string of the Arabic-Indic digits 3 and 6 around a full stop is its
    own version. *)
Lemma tenths_version_leading_major_minor_witness :
  (_tenths_version sample_decimal [1635; 46; 1638]%N = []
   /\ ~ exists major minor tail,
          all_digits sample_decimal major = true /\ major <> []
          /\ all_digits sample_decimal minor = true /\ minor <> []
          /\ [1635; 46; 1638]%N = major ++ FULL_STOP :: minor ++ tail)
  \/ (exists major minor tail,
        all_digits sample_decimal major = true /\ major <> []
        /\ all_digits sample_decimal minor = true /\ minor <> []
        /\ fst (span_digits sample_decimal tail) = []
        /\ [1635; 46; 1638]%N = major ++ FULL_STOP :: minor ++ tail
        /\ _tenths_version sample_decimal [1635; 46; 1638]%N
           = major ++ FULL_STOP :: minor).
Proof.
  apply (tenths_version_leading_major_minor sample_decimal
           [1635; 46; 1638]%N).
  reflexivity.
Defined.

(** X21: With the full stop no digit, a version that [_tenths_version]
    returned is left as it is by a second call. *)
Theorem tenths_version_idempotent (is_decimal : N -> bool) (s : list N) :
  is_decimal FULL_STOP = false ->
  _tenths_version is_decimal (_tenths_version is_decimal s)
  = _tenths_version is_decimal s.
Proof.
  intros Hstop.
  destruct (list_eq_dec N.eq_dec (_tenths_version is_decimal s) [])
    as [Hempty|Hfound].
  - rewrite Hempty. reflexivity.
  - destruct (tenths_version_parts is_decimal s Hfound)
      as (major & minor & tail & Hmajor & Hne & Hminor & Hne' & _ & _ & ->).
    rewrite <- (app_nil_r minor) at 1.
    rewrite (tenths_version_match is_decimal Hstop _ _ _
               Hmajor Hne Hminor Hne').
    cbn [span_digits fst]. rewrite app_nil_r. reflexivity.
Qed.

Lemma tenths_version_idempotent_witness :
  _tenths_version sample_decimal
    (_tenths_version sample_decimal (code_points "1.2.3beta3"))
  = _tenths_version sample_decimal (code_points "1.2.3beta3").
Proof.
  apply (tenths_version_idempotent sample_decimal
           (code_points "1.2.3beta3")).
  reflexivity.
Defined.

(** The cases of [test_tenths_version], and digits of another script. *)
Example tenths_version_tests :
  _tenths_version sample_decimal (code_points "1.2.3beta3") = code_points "1.2"
  /\ _tenths_version sample_decimal (code_points "1.2rc") = code_points "1.2"
  /\ _tenths_version sample_decimal (code_points "1.w") = []
  /\ _tenths_version sample_decimal [1635; 46; 1638; 98]%N
     = [1635; 46; 1638]%N.
Proof. vm_compute. auto. Qed.

(** ** Permissions *)

(** X22: On a question that is locked or archived nobody may choose or withdraw
    a solution or flag the question, whatever permissions they hold; editing
    and answering are left to the holders of the two model permissions. *)
Theorem closed_question_needs_permission
    (self : FlaggedQuestion) (user : User) :
  fq_is_locked self = true \/ fq_is_archived self = Some true ->
  allows_solve self user = false
  /\ allows_unsolve self user = false
  /\ allows_flag self user = false
  /\ allows_edit self user = user_has_perm user "questions.change_question"
  /\ allows_new_answer self user = user_has_perm user "questions.add_answer".
Proof.
  intros H.
  assert (He : editable self = false).
  { unfold editable. destruct H as [-> | ->]; simpl.
    - reflexivity.
    - apply andb_false_r. }
  unfold allows_solve, allows_unsolve, allows_flag, allows_edit,
    allows_new_answer.
  rewrite He. simpl. rewrite andb_false_r, !orb_false_r. auto.
Qed.

Lemma closed_question_needs_permission_witness :
  allows_solve locked_question moderator = false
  /\ allows_unsolve locked_question moderator = false
  /\ allows_flag locked_question moderator = false
  /\ allows_edit locked_question moderator
     = user_has_perm moderator "questions.change_question"
  /\ allows_new_answer locked_question moderator
     = user_has_perm moderator "questions.add_answer".
Proof.
  apply (closed_question_needs_permission locked_question moderator).
  left. reflexivity.
Defined.

(** X23: On a question that is not locked and whose [is_archived] is false or
    NULL, the creator may edit, answer, solve and unsolve without any
    permission, and may not flag. *)
Theorem creator_rights_on_editable_question
    (self : FlaggedQuestion) (user : User) :
  fq_is_locked self = false ->
  fq_is_archived self <> Some true ->
  user_id user = Some (q_creator (fq_question self)) ->
  user_is_authenticated user = true ->
  allows_edit self user = true
  /\ allows_new_answer self user = true
  /\ allows_solve self user = true
  /\ allows_unsolve self user = true
  /\ allows_flag self user = false.
Proof.
  intros Hlocked Harchived Hid Hauth.
  assert (He : editable self = true).
  { unfold editable. rewrite Hlocked.
    destruct (fq_is_archived self) as [[|]|]; [congruence | |]; reflexivity. }
  assert (Hc : is_creator user self = true).
  { unfold is_creator. rewrite Hid. simpl. apply Z.eqb_refl. }
  unfold allows_solve, allows_unsolve, allows_flag, allows_edit,
    allows_new_answer.
  rewrite He, Hc, Hauth. simpl. rewrite !orb_true_r. auto.
Qed.

Lemma creator_rights_on_editable_question_witness :
  allows_edit open_question asker = true
  /\ allows_new_answer open_question asker = true
  /\ allows_solve open_question asker = true
  /\ allows_unsolve open_question asker = true
  /\ allows_flag open_question asker = false.
Proof.
  apply (creator_rights_on_editable_question open_question asker).
  - reflexivity.
  - discriminate.
  - reflexivity.
  - reflexivity.
Defined.

(** ** Helpful replies *)

Lemma groups_In (x : Z) (l : list Z) : In x (groups l) <-> In x l.
Proof.
  induction l as [|y l IH]; simpl; [tauto|].
  rewrite filter_In, IH, negb_true_iff, Z.eqb_neq.
  destruct (Z.eq_dec y x) as [->|Hne]; [tauto|].
  split; [tauto|]. intros [H|H]; [tauto|]. right. split; congruence.
Qed.

Lemma groups_NoDup (l : list Z) : NoDup (groups l).
Proof.
  induction l as [|y l IH]; simpl; [apply NoDup_nil|].
  apply NoDup_cons; [|apply NoDup_filter, IH].
  rewrite filter_In, negb_true_iff, Z.eqb_neq. tauto.
Qed.

Lemma firstn_skipn_In {A : Type} (n : nat) (l : list A) (x : A) :
  In x l <-> In x (firstn n l) \/ In x (skipn n l).
Proof.
  rewrite <- in_app_iff, firstn_skipn. tauto.
Qed.

Lemma firstn_keyed {A : Type} (n : nat) (l : list A) :
  NoDup l -> NoDup (firstn n l).
Proof.
  intros H. rewrite <- (firstn_skipn n l) in H.
  apply NoDup_app_remove_r in H. exact H.
Qed.

Lemma list_remove_In (x y : Z) (l : list Z) :
  In y (list_remove x l) -> In y l.
Proof.
  induction l as [|z l IH]; simpl; [tauto|].
  destruct (z =? x); simpl; tauto.
Qed.

Lemma list_remove_NoDup (x : Z) (l : list Z) :
  NoDup l -> NoDup (list_remove x l) /\ ~ In x (list_remove x l).
Proof.
  induction l as [|z l IH]; simpl; intros H; [split; [exact H | tauto]|].
  apply NoDup_cons_iff in H. destruct H as [Hz Hl].
  destruct (z =? x) eqn:E.
  - apply Z.eqb_eq in E. subst z. tauto.
  - apply Z.eqb_neq in E. destruct (IH Hl) as [IH1 IH2]. split.
    + apply NoDup_cons; [|exact IH1].
      intros Hin. apply Hz. eapply list_remove_In. exact Hin.
    + simpl. tauto.
Qed.

Lemma list_remove_length (x : Z) (l : list Z) :
  In x l -> S (List.length (list_remove x l)) = List.length l.
Proof.
  induction l as [|z l IH]; simpl; [tauto|].
  destruct (z =? x) eqn:E; [reflexivity|].
  apply Z.eqb_neq in E. intros [H|H]; [congruence|].
  simpl. rewrite (IH H). reflexivity.
Qed.

Lemma helpful_ids_NoDup (self : Question) (db : DB) :
  NoDup (helpful_ids self db).
Proof.
  unfold helpful_ids. apply firstn_keyed.
  eapply Permutation_NoDup; [apply Permutation_sym, order_by_perm|].
  apply NoDup_filter, groups_NoDup.
Qed.

Lemma helpful_ids_voted (self : Question) (db : DB) (i : Z) :
  In i (helpful_ids self db) ->
  exists v, In v (helpful_votes self db) /\ av_answer v = i.
Proof.
  unfold helpful_ids. intros H.
  assert (H' : In i (order_by
                       (fun x y => score (helpful_votes self db) y
                                   <=? score (helpful_votes self db) x)
                       (filter (fun id => 0 <? score (helpful_votes self db) id)
                          (groups (map av_answer (helpful_votes self db)))))).
  { apply (firstn_skipn_In 2). left. exact H. }
  apply order_by_In, filter_In in H'. destruct H' as [H' _].
  apply groups_In, in_map_iff in H'. destruct H' as [v [Hv Hin]].
  exists v. tauto.
Qed.

Lemma without_solution_spec (self : Question) (ids : list Z) :
  NoDup ids ->
  NoDup (without_solution self ids)
  /\ (forall i, In i (without_solution self ids) ->
                In i ids /\ q_solution self <> Some i)
  /\ (List.length (without_solution self ids) <= List.length ids)%nat
  /\ (forall s, q_solution self = Some s -> In s ids ->
                S (List.length (without_solution self ids)) = List.length ids).
Proof.
  intros Hids. unfold without_solution.
  destruct (q_solution self) as [s|].
  - destruct (mem s ids) eqn:Hmem.
    + apply mem_In in Hmem.
      destruct (list_remove_NoDup s ids Hids) as [H1 H2].
      pose proof (list_remove_length s ids Hmem) as H3.
      repeat split.
      * exact H1.
      * eapply list_remove_In. eassumption.
      * intros E. injection E as ->. tauto.
      * lia.
      * intros s' E _. injection E as <-. exact H3.
    + apply mem_not_In in Hmem. repeat split.
      * exact Hids.
      * assumption.
      * intros E. injection E as ->. tauto.
      * lia.
      * intros s' E Hin. injection E as <-. tauto.
  - repeat split; try assumption; try discriminate. lia.
Qed.

(** No more rows of a keyed table have their id in a list than the list has
    ids. *)
Lemma keyed_rows_of_ids (table : list Answer) (ids : list Z) :
  NoDup (map a_id table) ->
  (List.length
     (filter (fun a => match a_id a with
                       | Some i => mem i ids
                       | None => false
                       end) table)
   <= List.length ids)%nat.
Proof.
  intros Hkeyed.
  set (p := fun a => match a_id a with
                     | Some i => mem i ids
                     | None => false
                     end).
  rewrite <- (length_map a_id (filter p table)).
  rewrite <- (length_map (@Some Z) ids).
  apply NoDup_incl_length.
  - apply keyed_filter. exact Hkeyed.
  - intros k Hk. apply in_map_iff in Hk. destruct Hk as [a [<- Ha]].
    apply filter_In in Ha. destruct Ha as [_ Ha]. unfold p in Ha.
    destruct (a_id a) as [i|]; [|discriminate].
    apply in_map, mem_In. exact Ha.
Qed.

(** X24: When no two answers share an id, [helpful_replies] returns at most two
    answers, and at most one when the solution is among the two answers with
    the most helpful votes. *)
Theorem helpful_replies_at_most_two (self : Question) (db : DB) :
  answers_keyed db ->
  (List.length (helpful_replies self db) <= 2)%nat
  /\ (forall s, q_solution self = Some s -> In s (helpful_ids self db) ->
                (List.length (helpful_replies self db) <= 1)%nat).
Proof.
  intros [Hkeyed _].
  destruct (without_solution_spec self _ (helpful_ids_NoDup self db))
    as (_ & _ & Hle & Hcut).
  assert (Htwo : (List.length (helpful_ids self db) <= 2)%nat).
  { unfold helpful_ids. apply firstn_le_length. }
  assert (Hrows : (List.length (helpful_replies self db)
                   <= List.length (without_solution self (helpful_ids self db)))%nat).
  { unfold helpful_replies.
    destruct (0 <? count (without_solution self (helpful_ids self db)));
      [|simpl; lia].
    rewrite (Permutation_length (order_by_perm _ _)).
    apply keyed_rows_of_ids. unfold question_answers.
    apply keyed_filter. exact Hkeyed. }
  split; [lia|].
  intros s Hs Hin. specialize (Hcut s Hs Hin). lia.
Qed.

Lemma helpful_replies_at_most_two_witness :
  (List.length (helpful_replies solved_question helpful_db) <= 2)%nat
  /\ (forall s, q_solution solved_question = Some s ->
                In s (helpful_ids solved_question helpful_db) ->
                (List.length (helpful_replies solved_question helpful_db) <= 1)%nat).
Proof.
  apply (helpful_replies_at_most_two solved_question helpful_db).
  split.
  - vm_compute. repeat constructor; simpl; intuition discriminate.
  - repeat constructor; discriminate.
Defined.

(** X25: Every answer that [helpful_replies] returns is an answer of the
    question with at least one helpful vote, and is not the solution. *)
Theorem helpful_replies_sound (self : Question) (db : DB) (a : Answer) :
  In a (helpful_replies self db) ->
  In a (answers db)
  /\ a_question a = q_id self
  /\ refers_to (q_solution self) (a_id a) = false
  /\ exists v, In v (answer_votes db)
               /\ av_helpful v = true /\ a_id a = Some (av_answer v).
Proof.
  unfold helpful_replies.
  destruct (without_solution_spec self _ (helpful_ids_NoDup self db))
    as (_ & Hin & _ & _).
  destruct (0 <? count (without_solution self (helpful_ids self db)));
    [|simpl; tauto].
  intros Ha. apply order_by_In, filter_In in Ha. destruct Ha as [Ha Hid].
  unfold question_answers in Ha. apply filter_In in Ha.
  destruct Ha as [Ha Hq]. apply Z.eqb_eq in Hq.
  destruct (a_id a) as [i|] eqn:Ei; [|discriminate].
  apply mem_In, Hin in Hid. destruct Hid as [Hid Hsol].
  destruct (helpful_ids_voted self db i Hid) as [v [Hv Hi]].
  unfold helpful_votes in Hv. apply filter_In in Hv. destruct Hv as [Hv Hh].
  apply andb_true_iff in Hh. destruct Hh as [Hh _].
  repeat split; try assumption.
  - destruct (q_solution self) as [s|]; simpl; [|reflexivity].
    apply Z.eqb_neq. congruence.
  - exists v. repeat split; try assumption. congruence.
Qed.

Lemma helpful_replies_sound_witness :
  In third_reply (answers helpful_db)
  /\ a_question third_reply = q_id solved_question
  /\ refers_to (q_solution solved_question) (a_id third_reply) = false
  /\ exists v, In v (answer_votes helpful_db)
               /\ av_helpful v = true /\ a_id third_reply = Some (av_answer v).
Proof.
  apply (helpful_replies_sound solved_question helpful_db third_reply).
  vm_compute. left. reflexivity.
Defined.

Section Ranking.

Context {A : Type} (key : A -> Z).

Lemma insert_by_descending (x : A) (l : list A) :
  descending key l ->
  descending key (insert_by (fun a b => key b <=? key a) x l).
Proof.
  induction l as [|y l IH]; simpl; intros H; [tauto|].
  destruct H as [Hy Hl].
  destruct (key y <=? key x) eqn:E.
  - apply Z.leb_le in E. simpl. split; [|tauto].
    intros z [<- | Hz]; [exact E|]. specialize (Hy z Hz). lia.
  - apply Z.leb_gt in E. simpl. split; [|exact (IH Hl)].
    intros z Hz.
    apply (Permutation_in _ (insert_by_perm _ x l)) in Hz.
    destruct Hz as [<- | Hz]; [lia | exact (Hy z Hz)].
Qed.

Lemma order_by_descending (l : list A) :
  descending key (order_by (fun a b => key b <=? key a) l).
Proof.
  induction l as [|x l IH]; simpl; [exact I|].
  apply insert_by_descending. exact IH.
Qed.

(** In a descending list nothing behind a cut has a higher key than anything
    in front of it. *)
Lemma descending_cut (n : nat) (l : list A) (x y : A) :
  descending key l ->
  In x (firstn n l) -> In y (skipn n l) -> key y <= key x.
Proof.
  revert n. induction l as [|z l IH]; intros n H Hx Hy.
  - destruct n; simpl in Hx; contradiction.
  - destruct n as [|n]; simpl in Hx, Hy; [contradiction|].
    destruct H as [Hz Hl]. destruct Hx as [<- | Hx].
    + apply Hz. apply (firstn_skipn_In n). right. exact Hy.
    + exact (IH n Hl Hx Hy).
Qed.

End Ranking.

(** X26: The ids that [helpful_ids] returns are those of the answers with the
    most helpful votes: an answer of the question that has a helpful vote
    and is not among them has no more helpful votes than any of them. *)
Theorem helpful_ids_are_top_scored
    (self : Question) (db : DB) (i : Z) (v : AnswerVote) :
  In i (helpful_ids self db) ->
  In v (helpful_votes self db) ->
  ~ In (av_answer v) (helpful_ids self db) ->
  score (helpful_votes self db) (av_answer v)
  <= score (helpful_votes self db) i.
Proof.
  unfold helpful_ids.
  set (votes := helpful_votes self db).
  set (ranked := order_by (fun x y => score votes y <=? score votes x)
                   (filter (fun id => 0 <? score votes id)
                      (groups (map av_answer votes)))).
  intros Hi Hv Hout.
  assert (Hin : In (av_answer v) ranked).
  { apply order_by_In, filter_In. split.
    - apply groups_In, in_map. exact Hv.
    - apply Z.ltb_lt. unfold score, count.
      assert (Hv' : In v (filter (fun w => av_answer w =? av_answer v) votes)).
      { apply filter_In. split; [exact Hv | apply Z.eqb_refl]. }
      destruct (filter (fun w => av_answer w =? av_answer v) votes);
        [contradiction | simpl; lia]. }
  apply (firstn_skipn_In 2) in Hin. destruct Hin as [Hin | Hin]; [tauto|].
  apply (descending_cut (score votes) 2 ranked i (av_answer v));
    [apply order_by_descending | exact Hi | exact Hin].
Qed.

Lemma helpful_ids_are_top_scored_witness :
  score (helpful_votes solved_question helpful_db) (av_answer (helpful_vote 1 31))
  <= score (helpful_votes solved_question helpful_db) 3.
Proof.
  apply (helpful_ids_are_top_scored solved_question helpful_db 3
           (helpful_vote 1 31)).
  - vm_compute. right. left. reflexivity.
  - vm_compute. left. reflexivity.
  - vm_compute. intuition discriminate.
Defined.
